(** * Battle effect-resolution engine: a shallow embedding

    The engine lives in two JavaScript modules, [battleCore.js] (turn
    processing, stat recalculation, death triggers, attacks, tools and
    spells) and [itemEffects.js] (effect tables, effect power, timed
    effects).  Every definition below is a transcription of the function
    of the same name.

    Conventions of the embedding:
    - a JavaScript number is a [num]: an exact rational or [NaN].
      Rounding of IEEE doubles and the infinities are not modelled;
    - a numeric-valued object (battleStats, statChanges, ...) is an
      insertion-ordered association list [Obj] of its own properties.
      Where the category string of an item indexes a table or the
      caster's stats, the members inherited from [Object.prototype] are
      modelled ([inheritedProperty]).  A stat name inside
      [statModifications], [permanentModifications] or a charge effect is
      looked up among the own properties, which is what the source does
      unless the stat name is itself the name of such a member
      ([usesOwnStatNames]);
    - a property that may be [undefined] is an [option];
    - [console.log] output, icons and descriptions are presentation only
      and are left out; [console.error] is kept where it marks a
      soft-failure branch;
    - values drawn from [Math.random] and the functions imported from
      [battleCalculations.js] are parameters. *)

From Stdlib Require Import ZArith QArith Qround Qabs String DecimalString List Bool Lia.
From Stdlib Require Import Lqa Sorting.Sorted.
Import ListNotations.
Open Scope string_scope.
Open Scope Z_scope.

(** ** JavaScript numbers *)

Module JS.

Inductive num : Type :=
| Fin (q : Q)
| NaN.

Definition fin (q : Q) : num := Fin (Qred q).
Definition ofZ (z : Z) : num := Fin (inject_Z z).

Definition lift2 (f : Q -> Q -> Q) (a b : num) : num :=
  match a, b with
  | Fin x, Fin y => fin (f x y)
  | _, _ => NaN
  end.

Definition add : num -> num -> num := lift2 Qplus.
Definition sub : num -> num -> num := lift2 Qminus.
Definition mul : num -> num -> num := lift2 Qmult.

(** [a / b]; a zero divisor would give an infinity, which is outside the
    model, so it is mapped to [NaN].  The only division of the engine,
    [turns / (maxTurns || 3)], never has a zero divisor. *)
Definition div (a b : num) : num :=
  match a, b with
  | Fin x, Fin y => if Qeq_bool y 0 then NaN else fin (x / y)
  | _, _ => NaN
  end.

(** [Math.round]: nearest integer, halves towards plus infinity. *)
Definition round (a : num) : num :=
  match a with
  | Fin x => ofZ (Qfloor (x + (1 # 2)))
  | NaN => NaN
  end.

(** [Math.floor] *)
Definition floor (a : num) : num :=
  match a with
  | Fin x => ofZ (Qfloor x)
  | NaN => NaN
  end.

(** [Math.max] and [Math.min] of two arguments. *)
Definition max (a b : num) : num :=
  match a, b with
  | Fin x, Fin y => if Qle_bool x y then b else a
  | _, _ => NaN
  end.

Definition min (a b : num) : num :=
  match a, b with
  | Fin x, Fin y => if Qle_bool x y then a else b
  | _, _ => NaN
  end.

(** [Math.abs] and [Math.sign] *)
Definition abs (a : num) : num :=
  match a with
  | Fin x => Fin (Qabs x)
  | NaN => NaN
  end.

Definition sign (a : num) : num :=
  match a with
  | Fin x =>
      match Qcompare x 0 with
      | Gt => ofZ 1
      | Lt => ofZ (-1)
      | Eq => ofZ 0
      end
  | NaN => NaN
  end.

(** Comparisons: every comparison with [NaN] is false. *)
Definition le (a b : num) : bool :=
  match a, b with
  | Fin x, Fin y => Qle_bool x y
  | _, _ => false
  end.

Definition lt (a b : num) : bool :=
  match a, b with
  | Fin x, Fin y => negb (Qle_bool y x)
  | _, _ => false
  end.

Definition ge (a b : num) : bool := le b a.
Definition gt (a b : num) : bool := lt b a.

(** [a === b] on numbers *)
Definition eqb (a b : num) : bool :=
  match a, b with
  | Fin x, Fin y => Qeq_bool x y
  | _, _ => false
  end.

(** Truthiness of a number: [0] and [NaN] are falsy. *)
Definition truthy (a : num) : bool :=
  match a with
  | Fin x => negb (Qeq_bool x 0)
  | NaN => false
  end.

(** Truthiness of a possibly undefined number. *)
Definition truthyO (o : option num) : bool :=
  match o with
  | Some a => truthy a
  | None => false
  end.

(** [o || d] for a possibly undefined number [o] *)
Definition orElse (o : option num) (d : num) : num :=
  match o with
  | Some a => if truthy a then a else d
  | None => d
  end.

(** An [undefined] operand of an arithmetic operator converts to [NaN]. *)
Definition toNum (o : option num) : num :=
  match o with
  | Some a => a
  | None => NaN
  end.

(** [s || d] for a possibly undefined string: the empty string is falsy. *)
Definition orStr (o : option string) (d : string) : string :=
  match o with
  | Some s => if String.eqb s "" then d else s
  | None => d
  end.

Definition truthyStr (o : option string) : bool :=
  match o with
  | Some s => negb (String.eqb s "")
  | None => false
  end.

(** [hay.includes(needle)] *)
Fixpoint includes (needle hay : string) : bool :=
  if String.prefix needle hay then true
  else match hay with
       | EmptyString => false
       | String _ rest => includes needle rest
       end.

(** [o === s] for a possibly undefined string [o] and a literal [s] *)
Definition isStr (o : option string) (s : string) : bool :=
  match o with
  | Some x => String.eqb x s
  | None => false
  end.

End JS.

Abbreviation num := JS.num.
Abbreviation Fin := JS.Fin.
Abbreviation NaN := JS.NaN.

(** Decimal literals of the source, as exact rationals. *)
Definition dec (n : Z) (d : positive) : num := JS.fin (n # d).
Definition int (z : Z) : num := JS.ofZ z.

(** ** Numeric-valued objects *)

Definition Obj : Type := list (string * num).

(** [m[k]] *)
Fixpoint obj_get (k : string) (m : Obj) : option num :=
  match m with
  | [] => None
  | (k', v) :: rest => if String.eqb k k' then Some v else obj_get k rest
  end.

(** [m[k] = v]: an existing key keeps its place, a new key goes last. *)
Fixpoint obj_set (k : string) (v : num) (m : Obj) : Obj :=
  match m with
  | [] => [(k, v)]
  | (k', v') :: rest =>
      if String.eqb k k' then (k', v) :: rest else (k', v') :: obj_set k v rest
  end.

(** [m || {}] for a possibly undefined object *)
Definition orEmpty (o : option Obj) : Obj :=
  match o with
  | Some m => m
  | None => []
  end.

(** ** Data model *)

(** The [chargeEffect] payload of a charge effect. *)
Record ChargeEffect : Type := {
  targetStat : string;
  perTurnBonus : num;
  maxTurns : num;
  finalBurst : num
}.

(** The [prepareEffect] payload of a charging spell. *)
Record PrepareEffect : Type := {
  pe_name : string;
  pe_turns : num;
  pe_damage : num;
  pe_areaEffect : bool;
  pe_stunChance : num
}.

(** An entry of [creature.activeEffects].  The [id] of the source is
    [Date.now() + Math.random()], a display key that the engine never
    reads; it is left out together with [icon] and [description]. *)
Record Effect : Type := {
  e_name : string;
  e_type : string;
  duration : Z;
  statModifications : option Obj;
  healthOverTime : option num;
  powerLevel : option string;
  startTurn : Z;
  effectType : option string;
  chargeEffect : option ChargeEffect;
  prepareEffect : option PrepareEffect;
  casterMagic : option num
}.

Definition withDuration (e : Effect) (d : Z) : Effect :=
  {| e_name := e_name e; e_type := e_type e; duration := d;
     statModifications := statModifications e;
     healthOverTime := healthOverTime e; powerLevel := powerLevel e;
     startTurn := startTurn e; effectType := effectType e;
     chargeEffect := chargeEffect e; prepareEffect := prepareEffect e;
     casterMagic := casterMagic e |}.

Definition withStatModifications (e : Effect) (m : option Obj) : Effect :=
  {| e_name := e_name e; e_type := e_type e; duration := duration e;
     statModifications := m;
     healthOverTime := healthOverTime e; powerLevel := powerLevel e;
     startTurn := startTurn e; effectType := effectType e;
     chargeEffect := chargeEffect e; prepareEffect := prepareEffect e;
     casterMagic := casterMagic e |}.

Definition withHealthOverTime (e : Effect) (h : option num) : Effect :=
  {| e_name := e_name e; e_type := e_type e; duration := duration e;
     statModifications := statModifications e;
     healthOverTime := h; powerLevel := powerLevel e;
     startTurn := startTurn e; effectType := effectType e;
     chargeEffect := chargeEffect e; prepareEffect := prepareEffect e;
     casterMagic := casterMagic e |}.

(** A creature.  [c_maxHealth] and [c_health] are the top-level
    [maxHealth] and [health] properties (not the battle stat). *)
Record Creature : Type := {
  id : Z;
  species_name : string;
  rarity : string;
  form : option num;
  combination_level : Z;
  stats : option Obj;
  specialty_stats : option (list string);
  battleStats : option Obj;
  currentHealth : num;
  c_maxHealth : option num;
  c_health : option num;
  activeEffects : option (list (option Effect));
  permanentModifications : option Obj;
  isDefending : bool;
  nextAttackBonus : option num;
  currentTurn : option Z
}.

Definition withBattleStats (c : Creature) (bs : option Obj) : Creature :=
  {| id := id c; species_name := species_name c; rarity := rarity c;
     form := form c; combination_level := combination_level c; stats := stats c;
     specialty_stats := specialty_stats c; battleStats := bs;
     currentHealth := currentHealth c; c_maxHealth := c_maxHealth c;
     c_health := c_health c; activeEffects := activeEffects c;
     permanentModifications := permanentModifications c;
     isDefending := isDefending c; nextAttackBonus := nextAttackBonus c;
     currentTurn := currentTurn c |}.

Definition withCurrentHealth (c : Creature) (h : num) : Creature :=
  {| id := id c; species_name := species_name c; rarity := rarity c;
     form := form c; combination_level := combination_level c; stats := stats c;
     specialty_stats := specialty_stats c; battleStats := battleStats c;
     currentHealth := h; c_maxHealth := c_maxHealth c;
     c_health := c_health c; activeEffects := activeEffects c;
     permanentModifications := permanentModifications c;
     isDefending := isDefending c; nextAttackBonus := nextAttackBonus c;
     currentTurn := currentTurn c |}.

Definition withTopMaxHealth (c : Creature) (h : option num) : Creature :=
  {| id := id c; species_name := species_name c; rarity := rarity c;
     form := form c; combination_level := combination_level c; stats := stats c;
     specialty_stats := specialty_stats c; battleStats := battleStats c;
     currentHealth := currentHealth c; c_maxHealth := h;
     c_health := c_health c; activeEffects := activeEffects c;
     permanentModifications := permanentModifications c;
     isDefending := isDefending c; nextAttackBonus := nextAttackBonus c;
     currentTurn := currentTurn c |}.

Definition withActiveEffects (c : Creature)
    (l : option (list (option Effect))) : Creature :=
  {| id := id c; species_name := species_name c; rarity := rarity c;
     form := form c; combination_level := combination_level c; stats := stats c;
     specialty_stats := specialty_stats c; battleStats := battleStats c;
     currentHealth := currentHealth c; c_maxHealth := c_maxHealth c;
     c_health := c_health c; activeEffects := l;
     permanentModifications := permanentModifications c;
     isDefending := isDefending c; nextAttackBonus := nextAttackBonus c;
     currentTurn := currentTurn c |}.

Definition withIsDefending (c : Creature) (b : bool) : Creature :=
  {| id := id c; species_name := species_name c; rarity := rarity c;
     form := form c; combination_level := combination_level c; stats := stats c;
     specialty_stats := specialty_stats c; battleStats := battleStats c;
     currentHealth := currentHealth c; c_maxHealth := c_maxHealth c;
     c_health := c_health c; activeEffects := activeEffects c;
     permanentModifications := permanentModifications c;
     isDefending := b; nextAttackBonus := nextAttackBonus c;
     currentTurn := currentTurn c |}.

Definition withNextAttackBonus (c : Creature) (b : option num) : Creature :=
  {| id := id c; species_name := species_name c; rarity := rarity c;
     form := form c; combination_level := combination_level c; stats := stats c;
     specialty_stats := specialty_stats c; battleStats := battleStats c;
     currentHealth := currentHealth c; c_maxHealth := c_maxHealth c;
     c_health := c_health c; activeEffects := activeEffects c;
     permanentModifications := permanentModifications c;
     isDefending := isDefending c; nextAttackBonus := b;
     currentTurn := currentTurn c |}.

Definition withCurrentTurn (c : Creature) (t : option Z) : Creature :=
  {| id := id c; species_name := species_name c; rarity := rarity c;
     form := form c; combination_level := combination_level c; stats := stats c;
     specialty_stats := specialty_stats c; battleStats := battleStats c;
     currentHealth := currentHealth c; c_maxHealth := c_maxHealth c;
     c_health := c_health c; activeEffects := activeEffects c;
     permanentModifications := permanentModifications c;
     isDefending := isDefending c; nextAttackBonus := nextAttackBonus c;
     currentTurn := t |}.

(** ** itemEffects.js: timed effects *)

Section TimedEffects.

(** [sinThird k] stands for [Math.sin(k * Math.PI / 3)], a floating-point
    value that the rational model takes as given. *)
Variable sinThird : Z -> num.

(** [processTimedEffect(effect, currentTurn, startTurn)] *)
Definition processTimedEffect (effect : Effect) (currentTurn startTurn0 : Z)
    : Effect :=
  let turnsPassed := currentTurn - startTurn0 in
  let processedEffect := effect in
  let processedEffect :=
    match chargeEffect effect with
    | Some ce =>
        if JS.isStr (effectType effect) "Charge" then
          let chargeProgress :=
            JS.min (JS.div (int turnsPassed) (JS.orElse (Some (maxTurns ce)) (int 3)))
                   (int 1) in
          if JS.lt chargeProgress (int 1) then
            let currentBonus := JS.floor (JS.mul (perTurnBonus ce) chargeProgress) in
            withStatModifications processedEffect
              (Some (obj_set (targetStat ce) currentBonus
                       (orEmpty (statModifications processedEffect))))
          else processedEffect
        else processedEffect
    | None => processedEffect
    end in
  if JS.isStr (effectType effect) "Echo" && JS.truthyO (healthOverTime effect) then
    let echoIntensity :=
      JS.add (dec 8 10) (JS.mul (sinThird turnsPassed) (dec 3 10)) in
    withHealthOverTime processedEffect
      (Some (JS.round (JS.mul (JS.orElse (healthOverTime effect) (int 0))
                              echoIntensity)))
  else processedEffect.

End TimedEffects.

(** ** battleCore.js: stat recalculation *)

Section StatRecalculation.

(** [calculateDerivedStats] is imported from [battleCalculations.js]. *)
Variable calculateDerivedStats : Creature -> Obj.

(** The minimum applied to a stat after an effect modified it. *)
Definition clampStat (stat : string) (v : num) : num :=
  if JS.includes "Attack" stat || JS.includes "Defense" stat then
    JS.max (int 1) v
  else if String.eqb stat "maxHealth" then JS.max (int 10) v
  else if String.eqb stat "initiative" || JS.includes "Chance" stat then
    JS.max (int 0) v
  else v.

(** The loop over [Object.entries(effect.statModifications)]. *)
Definition addEffectModifications (modifiedStats : Obj) (mods : Obj) : Obj :=
  fold_left
    (fun acc (entry : string * num) =>
       let (stat, value) := entry in
       match obj_get stat acc with
       | Some cur => obj_set stat (clampStat stat (JS.add cur value)) acc
       | None => acc
       end)
    mods modifiedStats.

(** The loop over [Object.entries(creature.permanentModifications)]. *)
Definition addPermanentModifications (modifiedStats : Obj) (mods : Obj) : Obj :=
  fold_left
    (fun acc (entry : string * num) =>
       let (stat, value) := entry in
       match obj_get stat acc with
       | Some cur => obj_set stat (JS.add cur value) acc
       | None => acc
       end)
    mods modifiedStats.

(** The combination bonus applied to every stat but chances and energy cost. *)
Definition applyCombination (level : Z) (modifiedStats : Obj) : Obj :=
  let combinationMultiplier := JS.add (int 1) (JS.mul (int level) (dec 8 100)) in
  map (fun (entry : string * num) =>
         let (stat, value) := entry in
         if negb (JS.includes "Chance" stat) && negb (String.eqb stat "energyCost")
         then (stat, JS.round (JS.mul value combinationMultiplier))
         else (stat, value))
      modifiedStats.

(** [recalculateDerivedStats(creature)].  The source returns the new stats
    and, as a side effect, may lower [creature.currentHealth]; the model
    returns the stats together with the creature as the call leaves it. *)
Definition recalculateDerivedStats (creature : Creature) : Obj * Creature :=
  match stats creature with
  | None => (orEmpty (battleStats creature), creature)
  | Some _ =>
      let freshDerivedStats := calculateDerivedStats creature in
      let modifiedStats := freshDerivedStats in
      let modifiedStats :=
        match activeEffects creature with
        | Some effects =>
            fold_left
              (fun acc (oe : option Effect) =>
                 match oe with
                 | Some effect =>
                     match statModifications effect with
                     | Some mods => addEffectModifications acc mods
                     | None => acc
                     end
                 | None => acc
                 end)
              effects modifiedStats
        | None => modifiedStats
        end in
      let modifiedStats :=
        match permanentModifications creature with
        | Some mods => addPermanentModifications modifiedStats mods
        | None => modifiedStats
        end in
      let modifiedStats :=
        if combination_level creature >? 0
        then applyCombination (combination_level creature) modifiedStats
        else modifiedStats in
      let creature :=
        if JS.truthy (currentHealth creature)
           && JS.gt (currentHealth creature)
                    (JS.toNum (obj_get "maxHealth" modifiedStats))
        then withCurrentHealth creature (JS.toNum (obj_get "maxHealth" modifiedStats))
        else creature in
      (modifiedStats, creature)
  end.

End StatRecalculation.

(** ** battleCore.js: the ongoing-effects tick *)

Section OngoingEffects.

Variable sinThird : Z -> num.
Variable calculateDerivedStats : Creature -> Obj.

(** The variables that the callback of [activeEffects.map] in
    [applyOngoingEffects] updates: [updatedCreature.currentHealth],
    [updatedCreature.nextAttackBonus], [currentStatMods] and
    [statsModified]. *)
Record TickState : Type := {
  ts_currentHealth : num;
  ts_nextAttackBonus : option num;
  ts_currentStatMods : Obj;
  ts_statsModified : bool
}.

(** [currentStatMods[stat] = (currentStatMods[stat] || 0) + value;
     statsModified = true] *)
Definition addStatMod (st : TickState) (stat : string) (value : num) : TickState :=
  {| ts_currentHealth := ts_currentHealth st;
     ts_nextAttackBonus := ts_nextAttackBonus st;
     ts_currentStatMods :=
       obj_set stat
         (JS.add (JS.orElse (obj_get stat (ts_currentStatMods st)) (int 0)) value)
         (ts_currentStatMods st);
     ts_statsModified := true |}.

(** Difficulty and rarity scaling of a health-over-time amount. *)
Definition scaleHealthChange (difficulty rarity0 : string) (healthChange : num) : num :=
  let healthChange :=
    if String.eqb difficulty "hard" then JS.round (JS.mul healthChange (dec 115 100))
    else if String.eqb difficulty "expert" then JS.round (JS.mul healthChange (dec 125 100))
    else healthChange in
  if String.eqb rarity0 "Legendary" then JS.round (JS.mul healthChange (dec 12 10))
  else if String.eqb rarity0 "Epic" then JS.round (JS.mul healthChange (dec 115 100))
  else if String.eqb rarity0 "Rare" then JS.round (JS.mul healthChange (dec 11 10))
  else healthChange.

(** The health-over-time step of the callback. *)
Definition applyHealthOverTime (difficulty rarity0 : string) (battleStats0 : Obj)
    (st : TickState) (processedEffect : Effect) : TickState :=
  match healthOverTime processedEffect with
  | Some hot =>
      if negb (JS.eqb hot (int 0)) then
        let healthChange := scaleHealthChange difficulty rarity0 hot in
        {| ts_currentHealth :=
             JS.min (JS.toNum (obj_get "maxHealth" battleStats0))
                    (JS.max (int 0) (JS.add (ts_currentHealth st) healthChange));
           ts_nextAttackBonus := ts_nextAttackBonus st;
           ts_currentStatMods := ts_currentStatMods st;
           ts_statsModified := ts_statsModified st |}
      else st
  | None => st
  end.

(** The callback of [activeEffects.map]: the state after the effect was
    processed and the array element it returns. *)
Definition tickEffect (difficulty : string) (currentTurn0 : Z) (rarity0 : string)
    (battleStats0 : Obj) (st : TickState) (oe : option Effect)
    : TickState * option Effect :=
  match oe with
  | None => (st, None)
  | Some effect =>
      let processedEffect :=
        processTimedEffect sinThird effect currentTurn0 (startTurn effect) in
      let st :=
        match statModifications processedEffect with
        | Some mods =>
            fold_left (fun s (entry : string * num) =>
                         addStatMod s (fst entry) (snd entry)) mods st
        | None => st
        end in
      let st := applyHealthOverTime difficulty rarity0 battleStats0 st processedEffect in
      let decremented :=
        Some (withDuration processedEffect (duration processedEffect - 1)) in
      match chargeEffect processedEffect with
      | Some ce =>
          if String.eqb (e_type processedEffect) "charge" then
            let turnsActive := currentTurn0 - startTurn processedEffect in
            let chargeProgress :=
              JS.min (JS.div (int turnsActive) (JS.orElse (Some (maxTurns ce)) (int 3)))
                     (int 1) in
            if JS.ge chargeProgress (int 1) && JS.truthy (finalBurst ce) then
              let burstDamage := finalBurst ce in
              ({| ts_currentHealth := ts_currentHealth st;
                  ts_nextAttackBonus :=
                    Some (JS.add (JS.orElse (ts_nextAttackBonus st) (int 0)) burstDamage);
                  ts_currentStatMods := ts_currentStatMods st;
                  ts_statsModified := ts_statsModified st |},
               Some (withDuration processedEffect 0))
            else
              let incrementalBonus :=
                JS.floor (JS.mul (perTurnBonus ce) chargeProgress) in
              if negb (String.eqb (targetStat ce) "") && JS.gt incrementalBonus (int 0)
              then (addStatMod st (targetStat ce) incrementalBonus, decremented)
              else (st, decremented)
          else (st, decremented)
      | None => (st, decremented)
      end
  end.

(** [activeEffects.map(callback)], threading the state through the
    elements in order. *)
Fixpoint tickEffects (difficulty : string) (currentTurn0 : Z) (rarity0 : string)
    (battleStats0 : Obj) (st : TickState) (effects : list (option Effect))
    : TickState * list (option Effect) :=
  match effects with
  | [] => (st, [])
  | oe :: rest =>
      let (st1, oe') := tickEffect difficulty currentTurn0 rarity0 battleStats0 st oe in
      let (st2, rest') := tickEffects difficulty currentTurn0 rarity0 battleStats0 st1 rest in
      (st2, oe' :: rest')
  end.

(** [.filter(effect => effect && effect.duration > 0)] *)
Definition keepEffect (oe : option Effect) : bool :=
  match oe with
  | Some effect => duration effect >? 0
  | None => false
  end.

(** The loop over [Object.entries(currentStatMods)] that rebuilds the
    battle stats. *)
Definition applyCurrentStatMods (currentStatMods battleStats0 : Obj) : Obj :=
  fold_left
    (fun acc (entry : string * num) =>
       let (stat, value) := entry in
       match obj_get stat acc with
       | Some cur => obj_set stat (JS.max (int 0) (JS.add cur value)) acc
       | None => acc
       end)
    currentStatMods battleStats0.

(** The callback of [creatures.map] in [applyOngoingEffects]. *)
Definition tickCreature (difficulty : string) (currentTurn0 : Z) (creature : Creature)
    : Creature :=
  match battleStats creature with
  | None => creature
  | Some battleStats0 =>
      let st0 := {| ts_currentHealth := currentHealth creature;
                    ts_nextAttackBonus := nextAttackBonus creature;
                    ts_currentStatMods := [];
                    ts_statsModified := false |} in
      let (st, mapped) :=
        tickEffects difficulty currentTurn0 (rarity creature) battleStats0 st0
          (match activeEffects creature with Some l => l | None => [] end) in
      let updatedCreature :=
        withActiveEffects
          (withNextAttackBonus (withCurrentHealth creature (ts_currentHealth st))
             (ts_nextAttackBonus st))
          (Some (filter keepEffect mapped)) in
      let updatedCreature :=
        if ts_statsModified st then
          withBattleStats updatedCreature
            (Some (applyCurrentStatMods (ts_currentStatMods st)
                     (calculateDerivedStats updatedCreature)))
        else updatedCreature in
      if isDefending updatedCreature then withIsDefending updatedCreature false
      else updatedCreature
  end.

(** [applyOngoingEffects(creatures, difficulty, currentTurn)].  A field
    that is not an array gives the empty field. *)
Definition applyOngoingEffects (creatures : option (list Creature))
    (difficulty : string) (currentTurn0 : Z) : list Creature :=
  match creatures with
  | None => []
  | Some l => map (tickCreature difficulty currentTurn0) l
  end.

End OngoingEffects.

(** ** battleCore.js: death triggers *)

(** An effect record as the death triggers and on-hit procs build it. *)
Definition plainEffect (name type : string) (turns : Z) (mods : Obj) (start : Z)
    : Effect :=
  {| e_name := name; e_type := type; duration := turns;
     statModifications := Some mods; healthOverTime := None;
     powerLevel := None; startTurn := start; effectType := None;
     chargeEffect := None; prepareEffect := None; casterMagic := None |}.

(** [x.currentTurn || 0] *)
Definition turnOrZero (c : Creature) : Z :=
  match currentTurn c with
  | Some t => t
  | None => 0
  end.

(** [if (!x.activeEffects) x.activeEffects = []; x.activeEffects.push(e)] *)
Definition pushEffect (c : Creature) (e : Effect) : Creature :=
  withActiveEffects c
    (Some ((match activeEffects c with Some l => l | None => [] end)
             ++ [Some e])%list).

(** [obj[k] += v] *)
Definition addAssign (k : string) (v : num) (m : Obj) : Obj :=
  obj_set k (JS.add (JS.toNum (obj_get k m)) v) m.

(** The body run for each ally of a defeated Legendary creature.  Reading
    [ally.battleStats.physicalAttack] throws a [TypeError] when the ally
    has no battle stats: the result is then [None]. *)
Definition legendaryBlessing (creature ally : Creature) : option Creature :=
  match battleStats ally with
  | None => None
  | Some bs =>
      let bs := addAssign "physicalAttack" (int 2) bs in
      let bs := addAssign "magicalAttack" (int 2) bs in
      Some (pushEffect (withBattleStats ally (Some bs))
              (plainEffect (species_name creature ++ "'s Final Gift")
                 "legendary_blessing" 5
                 [("physicalAttack", int 2); ("magicalAttack", int 2)]
                 (turnOrZero ally)))
  end.

Definition energyRelease (ally : Creature) : Creature :=
  pushEffect ally
    (plainEffect "Energy Release" "energy_burst" 2
       [("energyCost", int (-1))] (turnOrZero ally)).

Definition epicEssence (ally : Creature) : Creature :=
  pushEffect ally
    (plainEffect "Epic Essence" "epic_blessing" 3
       [("physicalAttack", int 1); ("magicalAttack", int 1)] (turnOrZero ally)).

Definition guiltyConscience (enemy : Creature) : Creature :=
  pushEffect enemy
    (plainEffect "Guilty Conscience" "debuff" 2
       [("initiative", int (-2)); ("dodgeChance", int (-1))] (turnOrZero enemy)).

(** [survivingCreatures.forEach(f)] for a body [f] that may throw. *)
Fixpoint forEachAlly (f : Creature -> option Creature) (l : list Creature)
    : option (list Creature) :=
  match l with
  | [] => Some []
  | c :: rest =>
      match f c with
      | None => None
      | Some c' =>
          match forEachAlly f rest with
          | None => None
          | Some rest' => Some (c' :: rest')
          end
      end
  end.

(** [specialty_stats && specialty_stats.includes('energy')] *)
Definition hasEnergySpecialty (c : Creature) : bool :=
  match specialty_stats c with
  | Some l => existsb (String.eqb "energy") l
  | None => false
  end.

(** The body of [creatures.forEach] in [processDefeatedCreatures], on the
    pair of [survivingCreatures] (as built so far) and [opposingCreatures].
    The creatures of both arrays are mutated in place by the source, so
    the model returns both. *)
Definition defeatStep (acc : list Creature * list Creature) (creature : Creature)
    : option (list Creature * list Creature) :=
  let (survivingCreatures, opposingCreatures) := acc in
  if JS.gt (currentHealth creature) (int 0) then
    Some ((survivingCreatures ++ [creature])%list, opposingCreatures)
  else
    let allies :=
      if String.eqb (rarity creature) "Legendary" then
        forEachAlly (legendaryBlessing creature) survivingCreatures
      else if hasEnergySpecialty creature then
        Some (map energyRelease survivingCreatures)
      else if String.eqb (rarity creature) "Epic" then
        Some (map epicEssence survivingCreatures)
      else Some survivingCreatures in
    match allies with
    | None => None
    | Some survivingCreatures =>
        if String.eqb (rarity creature) "Legendary"
           || String.eqb (rarity creature) "Epic"
        then Some (survivingCreatures, map guiltyConscience opposingCreatures)
        else Some (survivingCreatures, opposingCreatures)
    end.

Fixpoint defeatLoop (acc : list Creature * list Creature) (creatures : list Creature)
    : option (list Creature * list Creature) :=
  match creatures with
  | [] => Some acc
  | creature :: rest =>
      match defeatStep acc creature with
      | None => None
      | Some acc' => defeatLoop acc' rest
      end
  end.

(** [processDefeatedCreatures(creatures, opposingCreatures)]: the returned
    survivors and the opposing field as the call leaves it; [None] when
    the call throws. *)
Definition processDefeatedCreatures (creatures opposingCreatures : list Creature)
    : option (list Creature * list Creature) :=
  defeatLoop ([], opposingCreatures) creatures.

(** ** battleCore.js: attacks *)

(** The object returned by [calculateDamage], with the two properties that
    [processAttack] adds to it. *)
Record DamageResult : Type := {
  dr_damage : num;
  isDodged : bool;
  isCritical : bool;
  effectiveness : string;
  damageType : option string;
  dr_actualDamage : option num;
  comboMultiplier : option num
}.

(** The object returned by [processAttack]. *)
Record AttackResult : Type := {
  updatedAttacker : option Creature;
  updatedDefender : option Creature;
  battleLog : string;
  damage : num;
  finalDamage : num;
  totalDamage : num;
  damageDealt : num;
  actualDamage : num;
  ar_isCritical : option bool;
  ar_attackType : option string;
  isBlocked : option bool;
  damageResult : DamageResult
}.

Section Attack.

(** Imported from [battleCalculations.js]. *)
Variable calculateComboBonus : num -> num.
Variable calculateDamage : Creature -> Creature -> string -> num -> DamageResult.

(** The conversion of a number to text inside a template string. *)
Variable showNum : num -> string.

(** [x.maxHealth || x.health] *)
Definition topMaxHealth (c : Creature) : option num :=
  if JS.truthyO (c_maxHealth c) then c_maxHealth c else c_health c.

(** The copies that [processAttack] makes of its two arguments. *)
Definition cloneForAttack (c : Creature) : Creature :=
  withActiveEffects (withTopMaxHealth c (topMaxHealth c))
    (Some (match activeEffects c with Some l => l | None => [] end)).

Definition criticalStrikeTrauma (defender : Creature) : Effect :=
  plainEffect "Critical Strike Trauma" "debuff" 1
    [("physicalDefense", int (-2)); ("magicalDefense", int (-2))]
    (turnOrZero defender).

Definition elementalWeakness (defender : Creature) : Effect :=
  plainEffect "Elemental Weakness" "debuff" 2
    [("physicalDefense", int (-1)); ("magicalDefense", int (-1))]
    (turnOrZero defender).

(** The text appended to the log after [dealing N damage.] *)
Definition woundText (defenderClone : Creature) : string :=
  let maxH := JS.toNum (obj_get "maxHealth" (orEmpty (battleStats defenderClone))) in
  if JS.le (currentHealth defenderClone) (int 0) then
    if String.eqb (rarity defenderClone) "Legendary" then
      " " ++ species_name defenderClone ++ " falls in battle!"
    else if String.eqb (rarity defenderClone) "Epic" then
      " " ++ species_name defenderClone ++ " has been defeated!"
    else " " ++ species_name defenderClone ++ " was defeated!"
  else if JS.lt (currentHealth defenderClone) (JS.mul maxH (dec 2 10)) then
    " " ++ species_name defenderClone ++ " is critically wounded!"
  else if JS.lt (currentHealth defenderClone) (JS.mul maxH (dec 5 10)) then
    " " ++ species_name defenderClone ++ " is wounded!"
  else "".

(** [processAttack(attacker, defender, attackType, comboLevel)].
    [critRoll] and [effectRoll] are the values that the two calls of
    [Math.random] return when they are reached. *)
Definition processAttack (attacker defender : option Creature)
    (attackType : string) (comboLevel : num) (critRoll effectRoll : num)
    : AttackResult :=
  let invalid :=
    {| updatedAttacker := attacker; updatedDefender := defender;
       battleLog := "Invalid attack - missing stats";
       damage := int 0; finalDamage := int 0; totalDamage := int 0;
       damageDealt := int 0; actualDamage := int 0;
       ar_isCritical := None; ar_attackType := None; isBlocked := None;
       damageResult :=
         {| dr_damage := int 0; isDodged := false; isCritical := false;
            effectiveness := "normal"; damageType := None;
            dr_actualDamage := None; comboMultiplier := None |} |} in
  match attacker, defender with
  | Some attacker, Some defender =>
      match battleStats attacker, battleStats defender with
      | Some attackerStats, Some _ =>
          let attackerClone := cloneForAttack attacker in
          let defenderClone :=
            withIsDefending (cloneForAttack defender) (isDefending defender || false) in
          let attackType :=
            if String.eqb attackType "auto" then
              if JS.ge (JS.toNum (obj_get "physicalAttack" attackerStats))
                       (JS.toNum (obj_get "magicalAttack" attackerStats))
              then "physical" else "magical"
            else attackType in
          let attackerClone :=
            if JS.truthyO (nextAttackBonus attackerClone) then
              let bonus := JS.toNum (nextAttackBonus attackerClone) in
              let stat :=
                if String.eqb attackType "physical"
                then "physicalAttack" else "magicalAttack" in
              withNextAttackBonus
                (withBattleStats attackerClone
                   (Some (addAssign stat bonus attackerStats)))
                None
            else attackerClone in
          let comboMultiplier0 := calculateComboBonus comboLevel in
          let damageResult0 :=
            calculateDamage attackerClone defenderClone attackType comboMultiplier0 in
          let previousHealth := currentHealth defenderClone in
          let defenderClone :=
            if negb (isDodged damageResult0) then
              let hit :=
                withCurrentHealth defenderClone
                  (JS.max (int 0)
                     (JS.sub (currentHealth defenderClone) (dr_damage damageResult0))) in
              let hit :=
                if isCritical damageResult0 && JS.lt critRoll (dec 2 10)
                then pushEffect hit (criticalStrikeTrauma hit) else hit in
              if (String.eqb (effectiveness damageResult0) "very effective"
                  || String.eqb (effectiveness damageResult0) "effective")
                 && JS.lt effectRoll (dec 25 100)
              then pushEffect hit (elementalWeakness hit) else hit
            else defenderClone in
          let actualDamage0 :=
            if negb (isDodged damageResult0)
            then JS.sub previousHealth (currentHealth defenderClone)
            else int 0 in
          let logMessage :=
            if isDodged damageResult0 then
              species_name attackerClone ++ "'s " ++ attackType
                ++ " attack was dodged by " ++ species_name defenderClone ++ "!"
            else
              species_name attackerClone ++ " used " ++ attackType ++ " attack on "
                ++ species_name defenderClone
                ++ (if isCritical damageResult0 then " (Critical Hit!)" else "")
                ++ (if JS.gt comboLevel (int 1)
                    then " [Combo x" ++ showNum comboLevel ++ "!]" else "")
                ++ (if negb (String.eqb (effectiveness damageResult0) "normal")
                    then " - " ++ effectiveness damageResult0 ++ "!" else "")
                ++ (match damageType damageResult0 with
                    | Some t =>
                        if negb (String.eqb t "") && negb (String.eqb t "normal")
                        then " [" ++ t ++ "]" else ""
                    | None => ""
                    end)
                ++ " dealing " ++ showNum actualDamage0 ++ " damage."
                ++ woundText defenderClone in
          {| updatedAttacker := Some attackerClone;
             updatedDefender := Some defenderClone;
             battleLog := logMessage;
             damage := actualDamage0; finalDamage := actualDamage0;
             totalDamage := actualDamage0; damageDealt := actualDamage0;
             actualDamage := actualDamage0;
             ar_isCritical := Some (isCritical damageResult0 || false);
             ar_attackType := Some attackType;
             isBlocked := Some (isDodged damageResult0 || false);
             damageResult :=
               {| dr_damage := actualDamage0;
                  isDodged := isDodged damageResult0;
                  isCritical := isCritical damageResult0;
                  effectiveness := effectiveness damageResult0;
                  damageType := damageType damageResult0;
                  dr_actualDamage :=
                    if negb (isDodged damageResult0) then Some actualDamage0
                    else dr_actualDamage damageResult0;
                  comboMultiplier := Some comboMultiplier0 |} |}
      | _, _ => invalid
      end
  | _, _ => invalid
  end.

End Attack.

(** ** itemEffects.js: effect tables *)

(** A tool or spell definition. *)
Record Item : Type := {
  i_name : option string;
  tool_effect : option string;
  tool_type : option string;
  spell_effect : option string;
  spell_type : option string
}.

(** The objects of the tool tables and the value of [getToolEffect]. *)
Record ToolEffect : Type := {
  te_statChanges : option Obj;
  te_energyGain : option num;
  te_healthChange : option num;
  te_healthOverTime : option num;
  te_chargeEffect : option ChargeEffect;
  te_duration : option Z
}.

(** The objects of the spell tables and the value of [getSpellEffect];
    [se_actualDamage] and [se_wasCritical] are added by [applySpell]. *)
Record SpellEffect : Type := {
  se_damage : option num;
  se_criticalChance : option num;
  se_armorPiercing : option bool;
  se_selfHeal : option num;
  se_statDrain : option Obj;
  se_statGain : option Obj;
  se_prepareEffect : option PrepareEffect;
  se_chargeBonus : option num;
  se_statChanges : option Obj;
  se_healing : option num;
  se_damageReduction : option num;
  se_healthOverTime : option num;
  se_duration : option Z;
  se_actualDamage : option num;
  se_wasCritical : option bool
}.

(** The names that every object literal inherits from [Object.prototype].
    [table[key]] is a plain property read, so for such a key it yields the
    inherited member (a function, or the prototype itself), which is
    truthy and has none of the properties the engine reads from it. *)
Definition inheritedProperty (key : string) : bool :=
  existsb (String.eqb key)
    ["constructor"; "toString"; "toLocaleString"; "valueOf"; "hasOwnProperty";
     "isPrototypeOf"; "propertyIsEnumerable"; "__proto__"; "__defineGetter__";
     "__defineSetter__"; "__lookupGetter__"; "__lookupSetter__"].

(** [Object.entries(m).reduce((acc, [stat, value]) => { acc[stat] = f(value) }, {})] *)
Definition mapValues (f : num -> num) (m : Obj) : Obj :=
  fold_left (fun acc (entry : string * num) => obj_set (fst entry) (f (snd entry)) acc)
    m [].

Definition emptyToolEffect : ToolEffect :=
  {| te_statChanges := None; te_energyGain := None; te_healthChange := None;
     te_healthOverTime := None; te_chargeEffect := None; te_duration := None |}.

Definition staminaCharge : ChargeEffect :=
  {| targetStat := "physicalDefense"; perTurnBonus := int 3; maxTurns := int 3;
     finalBurst := int 25 |}.

(** [baseEffects[type] || fallback] of [getToolEffect] *)
Definition toolBaseEffect (type : string) : ToolEffect :=
  if String.eqb type "energy" then
    {| te_statChanges := Some [("energyCost", dec (-5) 10)];
       te_energyGain := Some (int 2); te_healthChange := None;
       te_healthOverTime := None; te_chargeEffect := None;
       te_duration := Some 3 |}
  else if String.eqb type "strength" then
    {| te_statChanges := Some [("physicalAttack", int 10); ("physicalDefense", int 5)];
       te_energyGain := None; te_healthChange := None;
       te_healthOverTime := None; te_chargeEffect := None;
       te_duration := Some 2 |}
  else if String.eqb type "magic" then
    {| te_statChanges :=
         Some [("physicalDefense", int 10); ("magicalDefense", int 10);
               ("maxHealth", int 15)];
       te_energyGain := None; te_healthChange := Some (int 5);
       te_healthOverTime := None; te_chargeEffect := None;
       te_duration := Some 2 |}
  else if String.eqb type "stamina" then
    {| te_statChanges := Some [("physicalDefense", int 5)];
       te_energyGain := None; te_healthChange := Some (int 10);
       te_healthOverTime := None; te_chargeEffect := Some staminaCharge;
       te_duration := Some 3 |}
  else if String.eqb type "speed" then
    {| te_statChanges :=
         Some [("physicalAttack", int 8); ("magicalAttack", int 8);
               ("physicalDefense", int (-2)); ("magicalDefense", int (-2))];
       te_energyGain := None; te_healthChange := Some (int 5);
       te_healthOverTime := None; te_chargeEffect := None;
       te_duration := Some 3 |}
  else if inheritedProperty type then emptyToolEffect
  else
    {| te_statChanges := Some [("physicalAttack", int 3)];
       te_energyGain := None; te_healthChange := None;
       te_healthOverTime := None; te_chargeEffect := None;
       te_duration := Some 3 |}.

Definition simpleToolEffect (changes : Obj) (health : option num) (turns : Z)
    : ToolEffect :=
  {| te_statChanges := Some changes; te_energyGain := None;
     te_healthChange := health; te_healthOverTime := None;
     te_chargeEffect := None; te_duration := Some turns |}.

Definition shieldChanges : Obj :=
  [("physicalDefense", int 10); ("magicalDefense", int 10); ("maxHealth", int 15)].

(** [getToolEffect(tool)]; the value is [None] if the function returned
    [null] or [undefined]. *)
Definition getToolEffect (tool : option Item) : option ToolEffect :=
  match tool with
  | Some {| tool_effect := Some effect; tool_type := Some type |} =>
      if String.eqb effect "" || String.eqb type "" then
        Some (simpleToolEffect [("physicalDefense", int 2)] None 1)
      else
        let baseEffect := toolBaseEffect type in
        if String.eqb effect "Surge" then
          if String.eqb type "strength" then
            Some (simpleToolEffect
                    [("physicalAttack", int 10); ("physicalDefense", int 5)] None 2)
          else
            Some {| te_statChanges :=
                      Some (mapValues (fun value => JS.mul value (int 2))
                              (orEmpty (te_statChanges baseEffect)));
                    te_energyGain := te_energyGain baseEffect;
                    te_healthChange :=
                      Some (JS.mul (JS.orElse (te_healthChange baseEffect) (int 0))
                                   (dec 15 10));
                    te_healthOverTime := te_healthOverTime baseEffect;
                    te_chargeEffect := te_chargeEffect baseEffect;
                    te_duration := Some 1 |}
        else if String.eqb effect "Shield" then
          if String.eqb type "magic" then
            Some (simpleToolEffect shieldChanges (Some (int 5)) 2)
          else Some (simpleToolEffect shieldChanges (Some (int 8)) 3)
        else if String.eqb effect "Echo" then
          if String.eqb type "energy" then
            Some {| te_statChanges := Some [("energyCost", dec (-5) 10)];
                    te_energyGain := None; te_healthChange := None;
                    te_healthOverTime := Some (int 2); te_chargeEffect := None;
                    te_duration := Some 3 |}
          else
            Some {| te_statChanges :=
                      Some (mapValues (fun value => JS.round (JS.mul value (dec 7 10)))
                              (orEmpty (te_statChanges baseEffect)));
                    te_energyGain := te_energyGain baseEffect;
                    te_healthChange := te_healthChange baseEffect;
                    te_healthOverTime :=
                      Some (JS.round
                              (JS.mul (JS.orElse (te_healthChange baseEffect) (int 0))
                                      (dec 25 100)));
                    te_chargeEffect := te_chargeEffect baseEffect;
                    te_duration := Some 5 |}
        else if String.eqb effect "Drain" then
          if String.eqb type "speed" then
            Some (simpleToolEffect
                    [("physicalAttack", int 8); ("magicalAttack", int 8);
                     ("physicalDefense", int (-2)); ("magicalDefense", int (-2))]
                    (Some (int 5)) 3)
          else
            Some (simpleToolEffect
                    [("physicalAttack", int 8); ("magicalAttack", int 8);
                     ("physicalDefense", int (-3)); ("magicalDefense", int (-3))]
                    (Some (int 5)) 3)
        else if String.eqb effect "Charge" then
          if String.eqb type "stamina" then
            Some {| te_statChanges := Some [("physicalDefense", int 3)];
                    te_energyGain := None; te_healthChange := None;
                    te_healthOverTime := None;
                    te_chargeEffect := Some staminaCharge;
                    te_duration := Some 3 |}
          else
            Some {| te_statChanges := Some [];
                    te_energyGain := None; te_healthChange := None;
                    te_healthOverTime := None;
                    te_chargeEffect :=
                      Some {| targetStat :=
                                match orEmpty (te_statChanges baseEffect) with
                                | (stat, _) :: _ =>
                                    if String.eqb stat "" then "physicalAttack" else stat
                                | [] => "physicalAttack"
                                end;
                              perTurnBonus := int 3; maxTurns := int 3;
                              finalBurst := int 15 |};
                    te_duration := Some 3 |}
        else
          Some {| te_statChanges :=
                    Some (mapValues (fun value => JS.round (JS.mul value (dec 11 10)))
                            (orEmpty (te_statChanges baseEffect)));
                  te_energyGain := te_energyGain baseEffect;
                  te_healthChange :=
                    Some (JS.round
                            (JS.mul (JS.orElse (te_healthChange baseEffect) (int 0))
                                    (dec 11 10)));
                  te_healthOverTime := te_healthOverTime baseEffect;
                  te_chargeEffect := te_chargeEffect baseEffect;
                  te_duration := te_duration baseEffect |}
  | _ => Some (simpleToolEffect [("physicalDefense", int 2)] None 1)
  end.

Definition emptySpellEffect : SpellEffect :=
  {| se_damage := None; se_criticalChance := None; se_armorPiercing := None;
     se_selfHeal := None; se_statDrain := None; se_statGain := None;
     se_prepareEffect := None; se_chargeBonus := None; se_statChanges := None;
     se_healing := None; se_damageReduction := None; se_healthOverTime := None;
     se_duration := None; se_actualDamage := None; se_wasCritical := None |}.

Definition burstSpell (dmg : num) : SpellEffect :=
  {| se_damage := Some dmg; se_criticalChance := Some (int 15);
     se_armorPiercing := Some true;
     se_selfHeal := None; se_statDrain := None; se_statGain := None;
     se_prepareEffect := None; se_chargeBonus := None; se_statChanges := None;
     se_healing := None; se_damageReduction := None; se_healthOverTime := None;
     se_duration := Some 0; se_actualDamage := None; se_wasCritical := None |}.

Definition drainSpell (magicPower : num) : SpellEffect :=
  {| se_damage := Some (JS.mul (int 18) magicPower);
     se_criticalChance := None; se_armorPiercing := None;
     se_selfHeal := Some (JS.mul (int 10) magicPower);
     se_statDrain := Some [("physicalAttack", int (-3)); ("magicalAttack", int (-3))];
     se_statGain := Some [("physicalAttack", int 2); ("magicalAttack", int 2)];
     se_prepareEffect := None; se_chargeBonus := None; se_statChanges := None;
     se_healing := None; se_damageReduction := None; se_healthOverTime := None;
     se_duration := Some 2; se_actualDamage := None; se_wasCritical := None |}.

Definition chargeSpell (magicPower : num) : SpellEffect :=
  {| se_damage := None; se_criticalChance := None; se_armorPiercing := None;
     se_selfHeal := None; se_statDrain := None; se_statGain := None;
     se_prepareEffect :=
       Some {| pe_name := "Charging Spell"; pe_turns := int 1;
               pe_damage := JS.mul (int 35) magicPower; pe_areaEffect := true;
               pe_stunChance := dec 2 10 |};
     se_chargeBonus := Some (JS.mul (int 5) magicPower);
     se_statChanges := None;
     se_healing := None; se_damageReduction := None; se_healthOverTime := None;
     se_duration := Some 1; se_actualDamage := None; se_wasCritical := None |}.

Definition shieldSpell (changes : Obj) (magicPower reduction : num) : SpellEffect :=
  {| se_damage := None; se_criticalChance := None; se_armorPiercing := None;
     se_selfHeal := None; se_statDrain := None; se_statGain := None;
     se_prepareEffect := None; se_chargeBonus := None;
     se_statChanges := Some changes;
     se_healing := Some (JS.mul (int 15) magicPower);
     se_damageReduction := Some reduction; se_healthOverTime := None;
     se_duration := Some 3; se_actualDamage := None; se_wasCritical := None |}.

Definition echoSpell (changes : Obj) (hot : num) : SpellEffect :=
  {| se_damage := None; se_criticalChance := None; se_armorPiercing := None;
     se_selfHeal := None; se_statDrain := None; se_statGain := None;
     se_prepareEffect := None; se_chargeBonus := None;
     se_statChanges := Some changes;
     se_healing := None; se_damageReduction := None;
     se_healthOverTime := Some hot;
     se_duration := Some 3; se_actualDamage := None; se_wasCritical := None |}.

Definition staminaShieldChanges : Obj :=
  [("physicalDefense", int 8); ("magicalDefense", int 8); ("maxHealth", int 15)].

Definition speedEchoChanges : Obj :=
  [("initiative", int 5); ("dodgeChance", int 3); ("criticalChance", int 3)].

(** [baseEffects[type] || fallback] of [getSpellEffect] *)
Definition spellBaseEffect (type : string) (magicPower : num) : SpellEffect :=
  if String.eqb type "energy" then burstSpell (JS.mul (int 20) magicPower)
  else if String.eqb type "strength" then drainSpell magicPower
  else if String.eqb type "magic" then chargeSpell magicPower
  else if String.eqb type "stamina" then
    shieldSpell staminaShieldChanges magicPower (dec 15 100)
  else if String.eqb type "speed" then echoSpell speedEchoChanges (int 3)
  else if inheritedProperty type then emptySpellEffect
  else
    {| se_damage := Some (JS.mul (int 10) magicPower);
       se_criticalChance := None; se_armorPiercing := None;
       se_selfHeal := None; se_statDrain := None; se_statGain := None;
       se_prepareEffect := None; se_chargeBonus := None; se_statChanges := None;
       se_healing := None; se_damageReduction := None; se_healthOverTime := None;
       se_duration := Some 2; se_actualDamage := None; se_wasCritical := None |}.

(** [getSpellEffect(spell, casterMagic)]; the value is [None] if the
    function returned [null] or [undefined]. *)
Definition getSpellEffect (spell : option Item) (casterMagic0 : num)
    : option SpellEffect :=
  let invalid :=
    {| se_damage := Some (int 5); se_criticalChance := None;
       se_armorPiercing := None;
       se_selfHeal := None; se_statDrain := None; se_statGain := None;
       se_prepareEffect := None; se_chargeBonus := None; se_statChanges := None;
       se_healing := None; se_damageReduction := None; se_healthOverTime := None;
       se_duration := Some 1; se_actualDamage := None; se_wasCritical := None |} in
  match spell with
  | Some {| spell_effect := Some effect; spell_type := Some type |} =>
      if String.eqb effect "" || String.eqb type "" then Some invalid
      else
        let magicPower := JS.add (int 1) (JS.mul casterMagic0 (dec 15 100)) in
        let baseEffect := spellBaseEffect type magicPower in
        if String.eqb effect "Surge" then
          if String.eqb type "energy" then
            Some (burstSpell (JS.mul (int 25) magicPower))
          else
            Some (burstSpell
                    (JS.mul (JS.orElse (se_damage baseEffect) (int 15)) (dec 25 10)))
        else if String.eqb effect "Shield" then
          if String.eqb type "stamina" then
            Some (shieldSpell staminaShieldChanges magicPower (dec 15 100))
          else
            Some (shieldSpell
                    [("physicalDefense", int 12); ("magicalDefense", int 12);
                     ("maxHealth", int 20)]
                    magicPower (dec 2 10))
        else if String.eqb effect "Echo" then
          if String.eqb type "speed" then Some (echoSpell speedEchoChanges (int 3))
          else
            Some (echoSpell
                    (match se_statChanges baseEffect with
                     | Some changes =>
                         mapValues (fun value => JS.round (JS.mul value (dec 3 10)))
                           changes
                     | None => []
                     end)
                    (if JS.truthyO (se_healing baseEffect) then
                       JS.round
                         (JS.mul (JS.div (JS.toNum (se_healing baseEffect)) (int 3))
                                 magicPower)
                     else if JS.truthyO (se_damage baseEffect) then
                       JS.round
                         (JS.mul
                            (JS.sub (int 0)
                               (JS.div (JS.toNum (se_damage baseEffect)) (int 3)))
                            magicPower)
                     else int 0))
        else if String.eqb effect "Drain" then Some (drainSpell magicPower)
        else if String.eqb effect "Charge" then Some (chargeSpell magicPower)
        else
          Some {| se_damage :=
                    Some (JS.mul (JS.orElse (se_damage baseEffect) (int 0)) (dec 12 10));
                  se_criticalChance := se_criticalChance baseEffect;
                  se_armorPiercing := se_armorPiercing baseEffect;
                  se_selfHeal := se_selfHeal baseEffect;
                  se_statDrain := se_statDrain baseEffect;
                  se_statGain := se_statGain baseEffect;
                  se_prepareEffect := se_prepareEffect baseEffect;
                  se_chargeBonus := se_chargeBonus baseEffect;
                  se_statChanges :=
                    match se_statChanges baseEffect with
                    | Some changes =>
                        Some (mapValues
                                (fun value => JS.round (JS.mul value (dec 115 100)))
                                changes)
                    | None => None
                    end;
                  se_healing :=
                    Some (JS.mul (JS.orElse (se_healing baseEffect) (int 0)) (dec 12 10));
                  se_damageReduction := se_damageReduction baseEffect;
                  se_healthOverTime := se_healthOverTime baseEffect;
                  se_duration := se_duration baseEffect;
                  se_actualDamage := None; se_wasCritical := None |}
  | _ => Some invalid
  end.

(** [calculateEffectPower(item, casterStats, difficulty)] *)
Definition calculateEffectPower (item : Item) (casterStats : option Obj)
    (difficulty : string) : num :=
  let powerMultiplier := int 1 in
  let powerMultiplier :=
    if String.eqb difficulty "easy" then JS.mul powerMultiplier (dec 9 10)
    else if String.eqb difficulty "medium" then JS.mul powerMultiplier (int 1)
    else if String.eqb difficulty "hard" then JS.mul powerMultiplier (dec 11 10)
    else if String.eqb difficulty "expert" then JS.mul powerMultiplier (dec 12 10)
    else powerMultiplier in
  match casterStats, spell_type item with
  | Some casterStats, Some type =>
      if String.eqb type "" then powerMultiplier
      else
        let relevantStat :=
          match obj_get type casterStats with
          | Some v => JS.orElse (Some v) (int 5)
          | None => if inheritedProperty type then NaN else int 5
          end in
        JS.mul powerMultiplier
          (JS.add (int 1) (JS.mul (JS.sub relevantStat (int 5)) (dec 5 100)))
  | _, _ => powerMultiplier
  end.

(** ** battleCore.js: tools and spells *)

(** The object returned by [applyTool]; [tr_error] is the message that the
    call passed to [console.error], if any. *)
Record ToolResult : Type := {
  updatedCreature : option Creature;
  toolEffect : option ToolEffect;
  tr_error : option string
}.

(** The object returned by [applySpell]; [sr_error] as [tr_error]. *)
Record SpellResult : Type := {
  updatedCaster : option Creature;
  updatedTarget : option Creature;
  spellEffect : option SpellEffect;
  sr_error : option string
}.

(** [Math.min(Math.abs(value), cap) * Math.sign(value)] *)
Definition capMagnitude (cap : num) (value : num) : num :=
  JS.mul (JS.min (JS.abs value) cap) (JS.sign value).

(** The [reduce] that scales the stat changes of a tool or spell. *)
Definition scaleStatChanges (cap basePowerMultiplier : num) (changes : Obj) : Obj :=
  mapValues
    (fun value =>
       JS.round (JS.mul (capMagnitude cap value)
                        (JS.min basePowerMultiplier (dec 15 10))))
    changes.

(** [x ? Math.round(Math.min(x * m, cap)) : 0] *)
Definition scaleCapped (cap basePowerMultiplier : num) (x : option num) : num :=
  if JS.truthyO x
  then JS.round (JS.min (JS.mul (JS.toNum x) basePowerMultiplier) cap)
  else int 0.

(** [x ? Math.round(x * m) : 0] *)
Definition scaleUncapped (basePowerMultiplier : num) (x : option num) : num :=
  if JS.truthyO x then JS.round (JS.mul (JS.toNum x) basePowerMultiplier) else int 0.

(** [scaledToolEffect] of [applyTool] *)
Definition scaleToolEffect (toolEffect0 : ToolEffect) (basePowerMultiplier : num)
    : ToolEffect :=
  {| te_statChanges :=
       Some (match te_statChanges toolEffect0 with
             | Some changes => scaleStatChanges (int 10) basePowerMultiplier changes
             | None => []
             end);
     te_energyGain := te_energyGain toolEffect0;
     te_healthChange :=
       Some (scaleCapped (int 50) basePowerMultiplier (te_healthChange toolEffect0));
     te_healthOverTime :=
       Some (scaleUncapped basePowerMultiplier (te_healthOverTime toolEffect0));
     te_chargeEffect := te_chargeEffect toolEffect0;
     te_duration :=
       Some (match te_duration toolEffect0 with
             | Some d => if d =? 0 then 1 else d
             | None => 1
             end) |}.

(** The loop that adds scaled stat changes to the battle stats. *)
Definition applyStatChanges (changes battleStats0 : Obj) : Obj :=
  fold_left
    (fun acc (entry : string * num) =>
       let (stat, value) := entry in
       match obj_get stat acc with
       | Some cur => obj_set stat (JS.max (int 0) (JS.add cur value)) acc
       | None => acc
       end)
    changes battleStats0.

(** [m >= 1.3 ? 'strong' : m >= 1.1 ? 'normal' : 'weak'] *)
Definition powerLevelOf (basePowerMultiplier : num) : string :=
  if JS.ge basePowerMultiplier (dec 13 10) then "strong"
  else if JS.ge basePowerMultiplier (dec 11 10) then "normal"
  else "weak".

Section Items.

Variable calculateDerivedStats : Creature -> Obj.

(** [applyTool(creature, tool, difficulty, currentTurn)].  The deep copy
    [JSON.parse(JSON.stringify(creature))] is the identity on the data of
    the model. *)
Definition applyTool (creature : option Creature) (tool : option Item)
    (difficulty : string) (currentTurn0 : Z) : ToolResult :=
  match creature, tool with
  | Some creature0, Some tool0 =>
      match battleStats creature0 with
      | None =>
          {| updatedCreature := creature; toolEffect := None;
             tr_error :=
               Some "Tool application failed - creature missing battleStats:" |}
      | Some battleStats0 =>
          let creatureClone := withCurrentTurn creature0 (Some currentTurn0) in
          let basePowerMultiplier :=
            calculateEffectPower tool0 (stats creature0) difficulty in
          match getToolEffect tool with
          | None =>
              {| updatedCreature := creature; toolEffect := None;
                 tr_error :=
                   Some "Tool application failed - invalid tool effect:" |}
          | Some toolEffect0 =>
              let scaledToolEffect := scaleToolEffect toolEffect0 basePowerMultiplier in
              let scaledChanges := orEmpty (te_statChanges scaledToolEffect) in
              let scaledDuration :=
                match te_duration scaledToolEffect with Some d => d | None => 0 end in
              let creatureClone :=
                withBattleStats creatureClone
                  (Some (applyStatChanges scaledChanges battleStats0)) in
              let creatureClone :=
                if scaledDuration >? 0 then
                  let isCharge :=
                    JS.isStr (tool_effect tool0) "Charge" in
                  pushEffect creatureClone
                    {| e_name := JS.orStr (i_name tool0) "Tool" ++ " Effect";
                       e_type :=
                         match te_chargeEffect toolEffect0 with
                         | Some _ =>
                             if isCharge then "charge"
                             else JS.orStr (tool_type tool0) "enhancement"
                         | None => JS.orStr (tool_type tool0) "enhancement"
                         end;
                       duration := scaledDuration;
                       statModifications := Some scaledChanges;
                       healthOverTime :=
                         Some (JS.orElse (te_healthOverTime scaledToolEffect) (int 0));
                       powerLevel := Some (powerLevelOf basePowerMultiplier);
                       startTurn := currentTurn0;
                       effectType := tool_effect tool0;
                       chargeEffect :=
                         match te_chargeEffect toolEffect0 with
                         | Some ce =>
                             if isCharge then
                               Some {| targetStat := targetStat ce;
                                       perTurnBonus :=
                                         JS.round (JS.mul (perTurnBonus ce)
                                                          basePowerMultiplier);
                                       maxTurns := maxTurns ce;
                                       finalBurst :=
                                         JS.round (JS.mul (finalBurst ce)
                                                          basePowerMultiplier) |}
                             else None
                         | None => None
                         end;
                       prepareEffect := None;
                       casterMagic := None |}
                else creatureClone in
              let healthChange := JS.toNum (te_healthChange scaledToolEffect) in
              let creatureClone :=
                if JS.truthy healthChange && JS.gt healthChange (int 0) then
                  withCurrentHealth creatureClone
                    (JS.min (JS.add (currentHealth creatureClone) healthChange)
                            (JS.toNum (obj_get "maxHealth"
                                         (orEmpty (battleStats creatureClone)))))
                else creatureClone in
              let (newStats, creatureClone) :=
                recalculateDerivedStats calculateDerivedStats creatureClone in
              {| updatedCreature := Some (withBattleStats creatureClone (Some newStats));
                 toolEffect := Some scaledToolEffect;
                 tr_error := None |}
          end
      end
  | _, _ =>
      {| updatedCreature := creature; toolEffect := None;
         tr_error := Some "Tool application failed - missing creature or tool:" |}
  end.

(** [scaledSpellEffect] of [applySpell] *)
Definition scaleSpellEffect (spellEffect0 : SpellEffect) (basePowerMultiplier : num)
    : SpellEffect :=
  {| se_damage :=
       Some (scaleCapped (int 100) basePowerMultiplier (se_damage spellEffect0));
     se_criticalChance := se_criticalChance spellEffect0;
     se_armorPiercing := se_armorPiercing spellEffect0;
     se_selfHeal :=
       Some (scaleCapped (int 40) basePowerMultiplier (se_selfHeal spellEffect0));
     se_statDrain := se_statDrain spellEffect0;
     se_statGain := se_statGain spellEffect0;
     se_prepareEffect := se_prepareEffect spellEffect0;
     se_chargeBonus := se_chargeBonus spellEffect0;
     se_statChanges :=
       Some (match se_statChanges spellEffect0 with
             | Some changes => scaleStatChanges (int 12) basePowerMultiplier changes
             | None => []
             end);
     se_healing :=
       Some (scaleCapped (int 80) basePowerMultiplier (se_healing spellEffect0));
     se_damageReduction := se_damageReduction spellEffect0;
     se_healthOverTime :=
       Some (scaleUncapped basePowerMultiplier (se_healthOverTime spellEffect0));
     se_duration := se_duration spellEffect0;
     se_actualDamage := se_actualDamage spellEffect0;
     se_wasCritical := se_wasCritical spellEffect0 |}.

(** The damage that a spell deals once the critical roll and the armor
    piercing bonus are applied, and whether the hit was critical. *)
Definition spellFinalDamage (scaledDamage casterMagic0 basePowerMultiplier : num)
    (armorPiercing : option bool) (critRoll : num) : num * bool :=
  let critChance :=
    JS.min (JS.add (int 3) (JS.floor (JS.mul casterMagic0 (dec 3 10)))) (int 15) in
  let isCritical0 := JS.le (JS.mul critRoll (int 100)) critChance in
  let finalDamage0 :=
    if isCritical0 then JS.round (JS.mul scaledDamage (dec 15 10)) else scaledDamage in
  let finalDamage0 :=
    if match armorPiercing with Some b => b | None => false end
       || JS.ge basePowerMultiplier (dec 13 10)
    then JS.add finalDamage0 (JS.round (JS.mul finalDamage0 (dec 2 10)))
    else finalDamage0 in
  (finalDamage0, isCritical0).

(** The stat-drain loop on the pair of the target's and the caster's
    battle stats.  Reading a stat of a caster without battle stats throws:
    the result is then [None]. *)
Definition drainStep (statGain : Obj) (acc : option (Obj * option Obj))
    (entry : string * num) : option (Obj * option Obj) :=
  let (stat, value) := entry in
  match acc with
  | None => None
  | Some (targetStats, casterStats) =>
      match obj_get stat targetStats with
      | None => Some (targetStats, casterStats)
      | Some cur =>
          match casterStats with
          | None => None
          | Some cs =>
              match obj_get stat cs with
              | None => Some (targetStats, casterStats)
              | Some ccur =>
                  let gainValue := JS.orElse (obj_get stat statGain) (int 0) in
                  Some (obj_set stat (JS.max (int 0) (JS.add cur value)) targetStats,
                        Some (obj_set stat (JS.add ccur gainValue) cs))
              end
          end
      end
  end.

(** The direct-damage step of [applySpell]: the target after the hit and
    the scaled effect with [actualDamage] and [wasCritical] recorded. *)
Definition spellDamageStep (scaled : SpellEffect)
    (casterMagic0 basePowerMultiplier critRoll : num) (targetClone : Creature)
    : Creature * SpellEffect :=
  let scaledDamage := JS.toNum (se_damage scaled) in
  if JS.truthy scaledDamage then
    let (finalDamage0, isCritical0) :=
      spellFinalDamage scaledDamage casterMagic0 basePowerMultiplier
        (se_armorPiercing scaled) critRoll in
    (withCurrentHealth targetClone
       (JS.max (int 0) (JS.sub (currentHealth targetClone) finalDamage0)),
     {| se_damage := se_damage scaled;
        se_criticalChance := se_criticalChance scaled;
        se_armorPiercing := se_armorPiercing scaled;
        se_selfHeal := se_selfHeal scaled;
        se_statDrain := se_statDrain scaled;
        se_statGain := se_statGain scaled;
        se_prepareEffect := se_prepareEffect scaled;
        se_chargeBonus := se_chargeBonus scaled;
        se_statChanges := se_statChanges scaled;
        se_healing := se_healing scaled;
        se_damageReduction := se_damageReduction scaled;
        se_healthOverTime := se_healthOverTime scaled;
        se_duration := se_duration scaled;
        se_actualDamage := Some finalDamage0;
        se_wasCritical := Some isCritical0 |})
  else (targetClone, scaled).

(** The self-heal step of [applySpell]; [None] when reading
    [casterClone.battleStats.maxHealth] throws. *)
Definition selfHealStep (scaledSelfHeal : num) (sameId : bool)
    (casterClone : Creature) : option Creature :=
  if JS.truthy scaledSelfHeal && negb sameId then
    match battleStats casterClone with
    | None => None
    | Some cs =>
        Some (withCurrentHealth casterClone
                (JS.min (JS.add (currentHealth casterClone) scaledSelfHeal)
                        (JS.toNum (obj_get "maxHealth" cs))))
    end
  else Some casterClone.

(** The stat-drain step of [applySpell] on the battle stats of the target
    and of the caster. *)
Definition statDrainStep (scaled : SpellEffect) (targetStats : Obj)
    (casterStats : option Obj) : option (Obj * option Obj) :=
  match se_statDrain scaled, se_statGain scaled with
  | Some statDrain, Some statGain =>
      fold_left (drainStep statGain) statDrain (Some (targetStats, casterStats))
  | _, _ => Some (targetStats, casterStats)
  end.

(** The active effect that [applySpell] attaches to the target. *)
Definition spellActiveEffect (spell0 : Item) (spellEffect0 scaled : SpellEffect)
    (casterMagic0 basePowerMultiplier : num) (currentTurn0 : Z) : Effect :=
  let isCharge := JS.isStr (spell_effect spell0) "Charge" in
  {| e_name := JS.orStr (i_name spell0) "Spell" ++ " Effect";
     e_type :=
       match se_prepareEffect spellEffect0 with
       | Some _ => if isCharge then "charge" else JS.orStr (spell_type spell0) "magic"
       | None => JS.orStr (spell_type spell0) "magic"
       end;
     duration := match se_duration spellEffect0 with Some d => d | None => 0 end;
     statModifications := Some (orEmpty (se_statChanges scaled));
     healthOverTime := Some (JS.orElse (se_healthOverTime scaled) (int 0));
     powerLevel := Some (powerLevelOf basePowerMultiplier);
     startTurn := currentTurn0;
     effectType := spell_effect spell0;
     chargeEffect := None;
     prepareEffect :=
       match se_prepareEffect spellEffect0 with
       | Some pe =>
           if isCharge then
             Some {| pe_name := pe_name pe; pe_turns := pe_turns pe;
                     pe_damage := JS.round (JS.mul (pe_damage pe) basePowerMultiplier);
                     pe_areaEffect := pe_areaEffect pe;
                     pe_stunChance := pe_stunChance pe |}
           else None
       | None => None
       end;
     casterMagic := Some casterMagic0 |}.

(** [applySpell(caster, target, spell, difficulty, currentTurn)];
    [critRoll] is the value of [Math.random()] at the critical check.
    The value is [None] when the call throws a [TypeError] (a caster
    without battle stats whose health or stats the spell would change). *)
Definition applySpell (caster target : option Creature) (spell : option Item)
    (difficulty : string) (currentTurn0 : Z) (critRoll : num)
    : option SpellResult :=
  match caster, target, spell with
  | Some caster0, Some target0, Some spell0 =>
      match stats caster0, battleStats target0 with
      | Some casterStats0, Some targetStats0 =>
          let targetClone := withCurrentTurn target0 (Some currentTurn0) in
          let casterClone := withCurrentTurn caster0 (Some currentTurn0) in
          let casterMagic0 := JS.orElse (obj_get "magic" casterStats0) (int 5) in
          let basePowerMultiplier :=
            calculateEffectPower spell0 (stats caster0) difficulty in
          match getSpellEffect spell casterMagic0 with
          | None =>
              Some {| updatedCaster := caster; updatedTarget := target;
                      spellEffect := None;
                      sr_error :=
                        Some "Spell application failed - invalid spell effect:" |}
          | Some spellEffect0 =>
              let scaled0 := scaleSpellEffect spellEffect0 basePowerMultiplier in
              let scaledChanges := orEmpty (se_statChanges scaled0) in
              let sameId := id caster0 =? id target0 in
              let (targetClone, scaled) :=
                spellDamageStep scaled0 casterMagic0 basePowerMultiplier critRoll
                  targetClone in
              let targetClone :=
                if JS.truthy (JS.toNum (se_healing scaled)) && sameId then
                  withCurrentHealth targetClone
                    (JS.min (JS.add (currentHealth targetClone)
                                    (JS.toNum (se_healing scaled)))
                            (JS.toNum (obj_get "maxHealth" targetStats0)))
                else targetClone in
              match selfHealStep (JS.toNum (se_selfHeal scaled)) sameId casterClone with
              | None => None
              | Some casterClone =>
                  let targetStats1 :=
                    match scaledChanges with
                    | [] => targetStats0
                    | _ :: _ => applyStatChanges scaledChanges targetStats0
                    end in
                  match statDrainStep scaled targetStats1 (battleStats casterClone) with
                  | None => None
                  | Some (targetStats2, casterStats2) =>
                      let targetClone := withBattleStats targetClone (Some targetStats2) in
                      let casterClone := withBattleStats casterClone casterStats2 in
                      let targetClone :=
                        if match se_duration spellEffect0 with
                           | Some d => d >? 0
                           | None => false
                           end
                        then
                          pushEffect targetClone
                            (spellActiveEffect spell0 spellEffect0 scaled casterMagic0
                               basePowerMultiplier currentTurn0)
                        else targetClone in
                      let targetClone :=
                        match scaledChanges with
                        | [] => targetClone
                        | _ :: _ =>
                            let (newStats, t) :=
                              recalculateDerivedStats calculateDerivedStats targetClone in
                            withBattleStats t (Some newStats)
                        end in
                      Some {| updatedCaster := Some casterClone;
                              updatedTarget := Some targetClone;
                              spellEffect := Some scaled;
                              sr_error := None |}
                  end
              end
          end
      | _, _ =>
          Some {| updatedCaster := caster; updatedTarget := target;
                  spellEffect := None;
                  sr_error := Some "Spell application failed - missing stats:" |}
      end
  | _, _, _ =>
      Some {| updatedCaster := caster; updatedTarget := target;
              spellEffect := None;
              sr_error := Some "Spell application failed - missing parameters:" |}
  end.

End Items.

(** ** battleCore.js: the turn *)

(** [getMaxEnergy(creatures, difficulty)] *)
Definition getMaxEnergy (creatures : list Creature) (difficulty : string) : num :=
  let baseEnergy :=
    if String.eqb difficulty "easy" then int 10
    else if String.eqb difficulty "medium" then int 12
    else if String.eqb difficulty "hard" then int 15
    else if String.eqb difficulty "expert" then int 18
    else int 15 in
  let creatureBonus :=
    JS.floor (JS.mul (int (Z.of_nat (length creatures))) (dec 25 100)) in
  JS.add baseEnergy creatureBonus.

(** [calculateEnergyRegen(creatures, difficulty)] *)
Definition calculateEnergyRegen (creatures : list Creature) (difficulty : string) : num :=
  let baseRegen :=
    if String.eqb difficulty "easy" then int 2
    else if String.eqb difficulty "medium" then int 3
    else if String.eqb difficulty "hard" then int 4
    else if String.eqb difficulty "expert" then int 5
    else int 3 in
  let energyContribution :=
    fold_left
      (fun total creature =>
         match stats creature with
         | None => total
         | Some st =>
             if JS.truthyO (obj_get "energy" st) then
               let contribution := JS.mul (JS.toNum (obj_get "energy" st)) (dec 1 10) in
               let contribution :=
                 if String.eqb (rarity creature) "Legendary"
                 then JS.mul contribution (dec 13 10)
                 else if String.eqb (rarity creature) "Epic"
                 then JS.mul contribution (dec 12 10)
                 else if String.eqb (rarity creature) "Rare"
                 then JS.mul contribution (dec 11 10)
                 else contribution in
               let contribution :=
                 JS.mul contribution
                   (JS.add (int 1)
                      (JS.mul (JS.orElse (form creature) (int 0)) (dec 5 100))) in
               JS.add total contribution
             else total
         end)
      creatures (int 0) in
  let specialtyBonus :=
    fold_left
      (fun total creature =>
         if hasEnergySpecialty creature then JS.add total (dec 5 10) else total)
      creatures (int 0) in
  JS.round (JS.add (JS.add baseRegen energyContribution) specialtyBonus).

(** [getMaxHandSize(difficulty)] *)
Definition getMaxHandSize (difficulty : string) : nat :=
  if String.eqb difficulty "easy" then 5%nat
  else if String.eqb difficulty "medium" then 4%nat
  else if String.eqb difficulty "hard" then 3%nat
  else if String.eqb difficulty "expert" then 3%nat
  else 4%nat.

Section Turn.

Variable sinThird : Z -> num.
Variable calculateDerivedStats : Creature -> Obj.

(** The cards of hands and decks are not inspected by the engine. *)
Variable Card : Type.

Record GameState : Type := {
  playerField : list Creature;
  enemyField : list Creature;
  playerEnergy : num;
  enemyEnergy : num;
  playerHand : list Card;
  playerDeck : list Card;
  enemyHand : list Card;
  enemyDeck : list Card;
  turn : Z
}.

(** The draw of one side: the new hand and deck. *)
Definition drawPhase (maxHandSize : nat) (hand deck : list Card)
    : list Card * list Card :=
  match deck with
  | drawnCard :: rest =>
      if (length hand <? maxHandSize)%nat then ((hand ++ [drawnCard])%list, rest)
      else (hand, deck)
  | [] => (hand, deck)
  end.

(** [processTurn(gameState, difficulty)]; [None] when a death trigger
    throws. *)
Definition processTurn (gameState : GameState) (difficulty : string)
    : option GameState :=
  let maxPlayerEnergy := getMaxEnergy (playerField gameState) difficulty in
  let maxEnemyEnergy := getMaxEnergy (enemyField gameState) difficulty in
  let playerEnergy1 :=
    JS.min (JS.add (playerEnergy gameState)
                   (calculateEnergyRegen (playerField gameState) difficulty))
           maxPlayerEnergy in
  let enemyEnergy1 :=
    JS.min (JS.add (enemyEnergy gameState)
                   (calculateEnergyRegen (enemyField gameState) difficulty))
           maxEnemyEnergy in
  let playerField1 :=
    applyOngoingEffects sinThird calculateDerivedStats
      (Some (playerField gameState)) difficulty (turn gameState) in
  let enemyField1 :=
    applyOngoingEffects sinThird calculateDerivedStats
      (Some (enemyField gameState)) difficulty (turn gameState) in
  match processDefeatedCreatures playerField1 enemyField1 with
  | None => None
  | Some (playerField2, enemyField2) =>
      match processDefeatedCreatures enemyField2 playerField2 with
      | None => None
      | Some (enemyField3, playerField3) =>
          let maxHandSize := getMaxHandSize difficulty in
          let (playerHand1, playerDeck1) :=
            drawPhase maxHandSize (playerHand gameState) (playerDeck gameState) in
          let (enemyHand1, enemyDeck1) :=
            drawPhase maxHandSize (enemyHand gameState) (enemyDeck gameState) in
          Some {| playerField := playerField3; enemyField := enemyField3;
                  playerEnergy := playerEnergy1; enemyEnergy := enemyEnergy1;
                  playerHand := playerHand1; playerDeck := playerDeck1;
                  enemyHand := enemyHand1; enemyDeck := enemyDeck1;
                  turn := turn gameState |}
      end
  end.

End Turn.

(** ** battleCore.js: defensive stance, energy momentum, charge progress *)

(** [a % b] on numbers: the remainder has the sign of [a]. *)
Definition jsRem (a b : num) : num :=
  match a, b with
  | Fin x, Fin y =>
      if Qeq_bool y 0 then NaN
      else
        let quotient := (x / y)%Q in
        let truncated :=
          if Qle_bool 0 quotient then Qfloor quotient else Qceiling quotient in
        JS.fin (x - y * inject_Z truncated)
  | _, _ => NaN
  end.

Section Stance.

(** Imported from [battleCalculations.js]. *)
Variable getRarityMultiplier : string -> num.

(** The [damageReduction] that [defendCreature] writes on its effect. *)
Definition stanceDamageReduction (difficulty : string) : num :=
  if String.eqb difficulty "hard" || String.eqb difficulty "expert"
  then dec 4 10 else dec 2 10.

(** The effect that [defendCreature] attaches.  Its [damageReduction]
    ([stanceDamageReduction]) and [persistThroughTurn] properties are
    written here and read nowhere in the two modules; like [id] they
    have no field in [Effect]. *)
Definition defensiveStance (creatureClone : Creature) (battleStats0 : Obj) : Effect :=
  let basePhysicalDefense := JS.orElse (obj_get "physicalDefense" battleStats0) (int 50) in
  let baseMagicalDefense := JS.orElse (obj_get "magicalDefense" battleStats0) (int 50) in
  let physicalDefenseBoost := JS.round (JS.mul basePhysicalDefense (dec 5 10)) in
  let magicalDefenseBoost := JS.round (JS.mul baseMagicalDefense (dec 5 10)) in
  let rarityBonus := JS.sub (getRarityMultiplier (rarity creatureClone)) (int 1) in
  {| e_name := "Defensive Stance"; e_type := "defense"; duration := 1;
     statModifications :=
       Some [("physicalDefense",
              JS.add physicalDefenseBoost
                     (JS.round (JS.mul physicalDefenseBoost rarityBonus)));
             ("magicalDefense",
              JS.add magicalDefenseBoost
                     (JS.round (JS.mul magicalDefenseBoost rarityBonus)))];
     healthOverTime := None; powerLevel := None;
     startTurn := turnOrZero creatureClone;
     effectType := Some "Shield"; chargeEffect := None; prepareEffect := None;
     casterMagic := None |}.

(** [defendCreature(creature, difficulty)]; an absent creature is
    returned as it is. *)
Definition defendCreature (creature : option Creature) (difficulty : string)
    : option Creature :=
  match creature with
  | None => None
  | Some c =>
      match battleStats c with
      | None => Some c
      | Some battleStats0 =>
          let creatureClone := withIsDefending c true in
          Some (pushEffect creatureClone (defensiveStance creatureClone battleStats0))
      end
  end.

End Stance.

(** The object returned by [processEnergyMomentum]. *)
Record MomentumInfo : Type := {
  currentMomentum : num;
  bonusRegen : num;
  nextThreshold : num;
  totalBonusEarned : num
}.

(** [processEnergyMomentum(momentum)] *)
Definition processEnergyMomentum (momentum : num) : MomentumInfo :=
  let bonusRegen0 := JS.floor (JS.div momentum (int 10)) in
  {| currentMomentum := momentum;
     bonusRegen := bonusRegen0;
     nextThreshold := JS.sub (int 10) (jsRem momentum (int 10));
     totalBonusEarned := bonusRegen0 |}.

(** The three properties that [updateChargeEffects] adds to a charge
    effect. *)
Record ChargeStatus : Type := {
  chargeProgress : num;
  turnsRemaining : num;
  isReady : bool
}.

(** The callback of [activeEffects.map] in [updateChargeEffects]: the
    added properties, or [None] for an effect that is returned as it is. *)
Definition chargeStatus (currentTurn0 : Z) (effect : Effect) : option ChargeStatus :=
  match chargeEffect effect with
  | Some ce =>
      if JS.isStr (effectType effect) "Charge" then
        let turnsActive := int (currentTurn0 - startTurn effect) in
        let maxTurns0 := JS.orElse (Some (maxTurns ce)) (int 3) in
        let chargeProgress0 :=
          JS.mul (JS.min (JS.div turnsActive maxTurns0) (int 1)) (int 100) in
        Some {| chargeProgress := chargeProgress0;
                turnsRemaining := JS.max (int 0) (JS.sub maxTurns0 turnsActive);
                isReady := JS.ge chargeProgress0 (int 100) |}
      else None
  | None => None
  end.

(** [updateChargeEffects(creature, currentTurn)].  The returned creature
    is the given one with the properties of [chargeStatus] added to its
    charge effects; the model returns these additions, one entry per
    effect, in list order.  A creature without effect list is returned as
    it is (no entries).  Reading [effectType] of a null element throws:
    the result is then [None]. *)
Fixpoint chargeStatuses (currentTurn0 : Z) (effects : list (option Effect))
    : option (list (option ChargeStatus)) :=
  match effects with
  | [] => Some []
  | None :: _ => None
  | Some effect :: rest =>
      match chargeStatuses currentTurn0 rest with
      | Some rest' => Some (chargeStatus currentTurn0 effect :: rest')
      | None => None
      end
  end.

Definition updateChargeEffects (creature : Creature) (currentTurn0 : Z)
    : option (list (option ChargeStatus)) :=
  match activeEffects creature with
  | None => Some []
  | Some effects => chargeStatuses currentTurn0 effects
  end.

(** ** itemEffects.js: combinations and recommendations *)

(** An element of the array given to [calculateComboEffect]: the
    properties that the function reads. *)
Record NamedEffect : Type := {
  ne_name : option string;
  ne_statChanges : option Obj
}.

(** The object returned by [calculateComboEffect]. *)
Record ComboBonus : Type := {
  cb_statChanges : Obj;
  cb_damage : num;
  cb_healing : num;
  cb_duration : num
}.

Definition synergyPairs : list (string * string) :=
  [("Surge", "Drain"); ("Shield", "Echo"); ("Charge", "Surge");
   ("Drain", "Echo"); ("Shield", "Charge")].

(** The test under [synergyPairs.some] for the names of two effects. *)
Definition isSynergy (name otherName : option string) : bool :=
  existsb
    (fun synergyPair : string * string =>
       (JS.isStr name (fst synergyPair) && JS.isStr otherName (snd synergyPair))
       || (JS.isStr otherName (fst synergyPair) && JS.isStr name (snd synergyPair)))
    synergyPairs.

(** The body of the inner loop: the bonus after the pair of [effect] and a
    later [otherEffect] was looked at. *)
Definition comboStep (effect : NamedEffect) (comboBonus : ComboBonus)
    (otherEffect : NamedEffect) : ComboBonus :=
  if isSynergy (ne_name effect) (ne_name otherEffect) then
    {| cb_statChanges :=
         fold_left
           (fun acc (entry : string * num) =>
              obj_set (fst entry)
                (JS.add (JS.orElse (obj_get (fst entry) acc) (int 0)) (int 1)) acc)
           (orEmpty (ne_statChanges effect)) (cb_statChanges comboBonus);
       cb_damage := JS.add (cb_damage comboBonus) (int 5);
       cb_healing := JS.add (cb_healing comboBonus) (int 3);
       cb_duration := JS.add (cb_duration comboBonus) (int 1) |}
  else comboBonus.

(** The outer loop: each effect against the effects after it. *)
Fixpoint comboLoop (effects : list NamedEffect) (comboBonus : ComboBonus)
    : ComboBonus :=
  match effects with
  | [] => comboBonus
  | effect :: rest => comboLoop rest (fold_left (comboStep effect) rest comboBonus)
  end.

(** [calculateComboEffect(effects)]; [None] is [null]. *)
Definition calculateComboEffect (effects : option (list NamedEffect))
    : option ComboBonus :=
  match effects with
  | None => None
  | Some l =>
      if (length l <? 2)%nat then None
      else
        let comboBonus :=
          comboLoop l {| cb_statChanges := []; cb_damage := int 0;
                         cb_healing := int 0; cb_duration := int 0 |} in
        if negb (length (cb_statChanges comboBonus) =? 0)%nat
           || JS.gt (cb_damage comboBonus) (int 0)
           || JS.gt (cb_healing comboBonus) (int 0)
        then Some comboBonus else None
  end.

(** The properties of the game state that [calculateItemEfficiency]
    reads. *)
Record AdvisorState : Type := {
  plannedActions : option (list string);
  as_turn : option num
}.

(** [item.tool_effect === tag || item.spell_effect === tag] *)
Definition hasEffectTag (item : Item) (tag : string) : bool :=
  JS.isStr (tool_effect item) tag || JS.isStr (spell_effect item) tag.

(** [target.battleStats?.maxHealth] *)
Definition maxHealthOf (target : Creature) : option num :=
  match battleStats target with
  | Some bs => obj_get "maxHealth" bs
  | None => None
  end.

(** [calculateItemEfficiency(item, target, gameState)] *)
Definition calculateItemEfficiency (item : Item) (target : Creature)
    (gameState : AdvisorState) : num :=
  let efficiency := JS.add (int 0) (int 20) in
  let efficiency :=
    if hasEffectTag item "Shield" then
      let healthPercent :=
        JS.div (currentHealth target) (JS.orElse (maxHealthOf target) (int 50)) in
      JS.add efficiency (JS.mul (JS.sub (int 1) healthPercent) (int 50))
    else if hasEffectTag item "Surge" then
      if match plannedActions gameState with
         | Some actions => existsb (String.eqb "attack") actions
         | None => false
         end
      then JS.add efficiency (int 30) else efficiency
    else if hasEffectTag item "Drain" then
      if JS.lt (currentHealth target) (JS.mul (JS.toNum (maxHealthOf target)) (dec 7 10))
      then JS.add efficiency (int 25) else efficiency
    else if hasEffectTag item "Echo" then JS.add efficiency (int 20)
    else if hasEffectTag item "Charge" then
      if JS.lt (JS.toNum (as_turn gameState)) (int 5)
      then JS.add efficiency (int 35) else efficiency
    else efficiency in
  if JS.truthyStr (spell_type item) then JS.sub efficiency (int 10) else efficiency.

(** [getRecommendationReason(item, creature, efficiency)] *)
Definition getRecommendationReason (item : Item) (creature : Creature)
    (efficiency : num) : string :=
  let effect :=
    if JS.truthyStr (tool_effect item) then tool_effect item else spell_effect item in
  if JS.isStr effect "Shield"
     && JS.lt (currentHealth creature) (JS.mul (JS.toNum (maxHealthOf creature)) (dec 5 10))
  then species_name creature ++ " is low on health and needs protection"
  else if JS.isStr effect "Surge" && JS.gt efficiency (int 50)
  then "Boost " ++ species_name creature ++ "'s attack for maximum damage"
  else if JS.isStr effect "Echo"
  then "Apply lasting effects to " ++ species_name creature
  else if JS.isStr effect "Drain"
  then "Convert " ++ species_name creature ++ "'s defense to offense"
  else if JS.isStr effect "Charge"
  then "Build up " ++ species_name creature ++ "'s power for later"
  else "Use on " ++ species_name creature ++ " for strategic advantage".

(** An element of the array returned by [getRecommendedItemUsage]. *)
Record Recommendation : Type := {
  rec_item : Item;
  rec_target : Creature;
  rec_efficiency : num;
  rec_reason : string
}.

(** The recommendations pushed for one item, in creature order. *)
Definition recommendationsFor (gameState : AdvisorState) (creatures : list Creature)
    (item : Item) : list Recommendation :=
  flat_map
    (fun creature =>
       let efficiency := calculateItemEfficiency item creature gameState in
       if JS.gt efficiency (int 30) then
         [{| rec_item := item; rec_target := creature; rec_efficiency := efficiency;
             rec_reason := getRecommendationReason item creature efficiency |}]
       else [])
    creatures.

(** [recommendations.sort((a, b) => b.efficiency - a.efficiency)]: the
    sort of an array is stable, so a recommendation goes behind those
    that are at least as efficient and came before it. *)
Fixpoint insertRecommendation (r : Recommendation) (sorted : list Recommendation)
    : list Recommendation :=
  match sorted with
  | [] => [r]
  | s :: rest =>
      if JS.lt (rec_efficiency s) (rec_efficiency r) then r :: sorted
      else s :: insertRecommendation r rest
  end.

Definition sortRecommendations (l : list Recommendation) : list Recommendation :=
  fold_left (fun sorted r => insertRecommendation r sorted) l [].

(** [getRecommendedItemUsage(availableItems, creatures, gameState)] *)
Definition getRecommendedItemUsage (availableItems : list Item)
    (creatures : list Creature) (gameState : AdvisorState) : list Recommendation :=
  firstn 3
    (sortRecommendations (flat_map (recommendationsFor gameState creatures) availableItems)).

(** ** Notions used to state the properties *)

Section EffectEvolution.

Variable sinThird : Z -> num.
Variable calculateDerivedStats : Creature -> Obj.

(** The element that the callback of [tickEffect] returns for an effect.
    It does not depend on the creature (see [tickEffect_snd]), so any
    state will do. *)
Definition effectAfterTick (currentTurn0 : Z) (oe : option Effect) : option Effect :=
  snd (tickEffect sinThird "medium" currentTurn0 "Common" []
         {| ts_currentHealth := int 0; ts_nextAttackBonus := None;
            ts_currentStatMods := []; ts_statsModified := false |} oe).

(** An effect list after one tick, and after the ticks of the given turns. *)
Definition effectsAfterTick (currentTurn0 : Z) (l : list (option Effect))
    : list (option Effect) :=
  filter keepEffect (map (effectAfterTick currentTurn0) l).


(** A creature ticked once per entry of [ticks], each entry giving the
    difficulty and the turn number of that tick. *)
Definition runTicks (ticks : list (string * Z)) (c : Creature) : Creature :=
  fold_left
    (fun c (dt : string * Z) =>
       tickCreature sinThird calculateDerivedStats (fst dt) (snd dt) c)
    ticks c.

End EffectEvolution.


(** [x] does not exceed [cap]: it is a number at most [cap], or it is
    [NaN], which the engine treats as no amount at all. *)
Definition atMost (x cap : num) : Prop :=
  match x with
  | Fin _ => JS.le x cap = true
  | NaN => True
  end.

(** [x] is a number, not [NaN]. *)
Definition isNumber (x : num) : Prop := exists q, x = Fin q.



(** A creature is alive when [currentHealth > 0]. *)
Definition alive (c : Creature) : Prop := JS.gt (currentHealth c) (int 0) = true.
Definition defeated (c : Creature) : Prop := JS.gt (currentHealth c) (int 0) = false.

(** What the legendary death trigger makes of an ally that has battle
    stats [bs]. *)
Definition blessedAlly (creature ally : Creature) (bs : Obj) : Creature :=
  pushEffect
    (withBattleStats ally
       (Some (addAssign "magicalAttack" (int 2) (addAssign "physicalAttack" (int 2) bs))))
    (plainEffect (species_name creature ++ "'s Final Gift") "legendary_blessing" 5
       [("physicalAttack", int 2); ("magicalAttack", int 2)] (turnOrZero ally)).

(** The types of the effects of a creature, in list order. *)
Definition effectTypes (c : Creature) : list string :=
  flat_map (fun oe => match oe with Some e => [e_type e] | None => [] end)
    (match activeEffects c with Some l => l | None => [] end).

(** The number of effects of the given type on a creature. *)
Definition countEffects (type : string) (c : Creature) : nat :=
  length (filter (String.eqb type) (effectTypes c)).


(** [currentHealth > 0], as the death sweep tests it. *)
Definition aliveb (c : Creature) : bool := JS.gt (currentHealth c) (int 0).

(** A defeated creature whose fall is avenged: Legendary or Epic. *)
Definition avengedb (c : Creature) : bool :=
  negb (aliveb c)
  && (String.eqb (rarity c) "Legendary" || String.eqb (rarity c) "Epic").

(** [c'] is [c] with other battle stats and effects. *)
Definition sameButStatsAndEffects (c c' : Creature) : Prop :=
  exists bs l, c' = withActiveEffects (withBattleStats c bs) l.

(** [c'] is [c] with other effects. *)
Definition sameButEffects (c c' : Creature) : Prop :=
  exists l, c' = withActiveEffects c l.

(** [a] is at least as efficient as [b]. *)
Definition byEfficiency (a b : Recommendation) : Prop :=
  JS.ge (rec_efficiency a) (rec_efficiency b) = true.

(** The number of pairs of an earlier and a later effect that are a
    synergy. *)
Fixpoint synergyCount (effects : list NamedEffect) : nat :=
  match effects with
  | [] => 0%nat
  | effect :: rest =>
      (length (filter (fun otherEffect =>
                         isSynergy (ne_name effect) (ne_name otherEffect)) rest)
       + synergyCount rest)%nat
  end.


(** [x] is a number and does not exceed [cap]. *)
Definition within (x cap : num) : Prop := JS.le x cap = true.

(** The power multiplier of [item] would be computed from a member that
    the caster's stats inherit from [Object.prototype]: the item has a
    non-empty [spell_type] that is no stat of the caster and names such
    a member. *)
Definition powerFromInheritedMember (item : Item) (casterStats : option Obj) : bool :=
  match casterStats, spell_type item with
  | Some casterStats, Some type =>
      negb (String.eqb type "")
      && match obj_get type casterStats with
         | Some _ => false
         | None => inheritedProperty type
         end
  | _, _ => false
  end.

(** The stat names that the effects and the permanent modifications of
    a creature use are read as own properties: none of them is the name
    of a member of [Object.prototype], for which [battleStats[stat]]
    would yield the inherited member. *)
Definition ownStatNames (m : Obj) : Prop :=
  Forall (fun entry : string * num => inheritedProperty (fst entry) = false) m.

Definition effectUsesOwnStatNames (oe : option Effect) : Prop :=
  match oe with
  | Some effect =>
      ownStatNames (orEmpty (statModifications effect))
      /\ match chargeEffect effect with
         | Some ce => inheritedProperty (targetStat ce) = false
         | None => True
         end
  | None => True
  end.

Definition usesOwnStatNames (c : Creature) : Prop :=
  Forall effectUsesOwnStatNames
    (match activeEffects c with Some l => l | None => [] end)
  /\ ownStatNames (orEmpty (permanentModifications c)).

(** ** Sample instances of the imported functions and sample data

    The functions of [battleCalculations.js] are parameters of the model.
    The concrete scenarios below fix one instance of each. *)

Definition statOf (c : Creature) (k : string) : num :=
  JS.orElse (obj_get k (orEmpty (stats c))) (int 5).

(** A base-stat derivation that reads the creature's base attributes only. *)
Definition sampleDerivedStats (c : Creature) : Obj :=
  [("physicalAttack", JS.add (int 10) (JS.mul (int 2) (statOf c "strength")));
   ("magicalAttack", JS.add (int 10) (JS.mul (int 2) (statOf c "magic")));
   ("physicalDefense", JS.add (int 10) (JS.mul (int 2) (statOf c "stamina")));
   ("magicalDefense", JS.add (int 10) (JS.mul (int 2) (statOf c "energy")));
   ("maxHealth", JS.add (int 50) (JS.mul (int 7) (statOf c "stamina")));
   ("initiative", JS.add (int 10) (statOf c "speed"));
   ("criticalChance", int 5);
   ("dodgeChance", int 5);
   ("energyCost", int 5)].

(** [Math.sin(k * Math.PI / 3)] to seven decimals. *)
Definition sampleSin (k : Z) : num :=
  match k mod 6 with
  | 1 | 2 => dec 8660254 10000000
  | 4 | 5 => dec (-8660254) 10000000
  | _ => int 0
  end.

Definition sampleStats : Obj :=
  [("energy", int 5); ("strength", int 5); ("magic", int 5);
   ("stamina", int 5); ("speed", int 5)].

(** A creature with the given identity, fresh battle stats, full health
    and no effects. *)
Definition freshCreature (ident : Z) (name rarity0 : string)
    (specialty : list string) : Creature :=
  let c :=
    {| id := ident; species_name := name; rarity := rarity0; form := Some (int 0);
       combination_level := 0; stats := Some sampleStats;
       specialty_stats := Some specialty; battleStats := None;
       currentHealth := int 85; c_maxHealth := None; c_health := None;
       activeEffects := Some []; permanentModifications := None;
       isDefending := false; nextAttackBonus := None; currentTurn := None |} in
  withBattleStats c (Some (sampleDerivedStats c)).

Definition golem : Creature := freshCreature 1 "Golem" "Common" ["stamina"].

(** A damage formula under which every attack is dodged. *)
Definition alwaysDodged (attacker defender : Creature) (attackType : string)
    (comboMultiplier0 : num) : DamageResult :=
  {| dr_damage := int 0; isDodged := true; isCritical := false;
     effectiveness := "normal"; damageType := None;
     dr_actualDamage := None; comboMultiplier := None |}.

(** A damage formula under which every attack hits for 30, without
    critical hit or elemental advantage. *)
Definition alwaysThirty (attacker defender : Creature) (attackType : string)
    (comboMultiplier0 : num) : DamageResult :=
  {| dr_damage := int 30; isDodged := false; isCritical := false;
     effectiveness := "normal"; damageType := None;
     dr_actualDamage := None; comboMultiplier := None |}.

Definition sampleCombo (comboLevel : num) : num :=
  JS.add (int 1) (JS.mul (JS.min comboLevel (int 5)) (dec 1 10)).

(** Integers in decimal, other rationals as a fraction. *)
Definition sampleShow (n : num) : string :=
  match n with
  | Fin q =>
      NilZero.string_of_int (Z.to_int (Qnum q))
      ++ (if Pos.eqb (Qden q) 1 then ""
          else "/" ++ NilZero.string_of_uint (Pos.to_uint (Qden q)))
  | NaN => "NaN"
  end.

(** ** Sample items, creatures and states *)

Definition shieldTool : Item :=
  {| i_name := Some "Ledger Lens"; tool_effect := Some "Shield";
     tool_type := Some "magic"; spell_effect := None; spell_type := None |}.

Definition chargeTool : Item :=
  {| i_name := Some "Olympia Emblem"; tool_effect := Some "Charge";
     tool_type := Some "stamina"; spell_effect := None; spell_type := None |}.



(** Items whose category is the name of a member of [Object.prototype]
    and whose effect tag is none of the five known tags. *)
Definition inheritedCategoryTool : Item :=
  {| i_name := Some "Odd Tool"; tool_effect := Some "Boost";
     tool_type := Some "constructor"; spell_effect := None; spell_type := None |}.

Definition inheritedCategorySpell : Item :=
  {| i_name := Some "Odd Spell"; tool_effect := None; tool_type := None;
     spell_effect := Some "Boost"; spell_type := Some "constructor" |}.

Definition wisp : Creature := freshCreature 2 "Wisp" "Rare" ["magic"].

Definition fallen (ident : Z) (name rarity0 : string) (specialty : list string)
    : Creature :=
  withCurrentHealth (freshCreature ident name rarity0 specialty) (int 0).

Definition phoenix : Creature := fallen 10 "Phoenix" "Legendary" ["energy"; "magic"].
Definition titan : Creature := fallen 11 "Titan" "Legendary" ["strength"].
Definition imp : Creature := freshCreature 3 "Imp" "Common" ["speed"].
Definition ogre : Creature := freshCreature 4 "Ogre" "Common" ["strength"].
Definition raider : Creature := freshCreature 20 "Raider" "Common" ["speed"].

(** A golem under a two-turn debuff that lowers its maximum health. *)
Definition weakenedGolem : Creature :=
  withCurrentHealth
    (withActiveEffects golem
       (Some [Some (plainEffect "Weakened" "debuff" 2 [("maxHealth", int (-20))] 0)]))
    (int 80).

Definition titansGift (turns : Z) : Effect :=
  plainEffect "Titan's Final Gift" "legendary_blessing" turns
    [("physicalAttack", int 2); ("magicalAttack", int 2)] 0.

(** A golem that carries a legendary blessing, before any tool is used. *)
Definition giftedGolem : Creature :=
  withActiveEffects golem (Some [Some (titansGift 5)]).

(** The same golem two ticks after a Shield tool was used on it at turn 0:
    the shield effect has just expired, the battle stats still contain its
    bonus, and the health is above the base maximum of 85. *)
Definition fadedShieldGolem : Creature :=
  withCurrentTurn
    (withCurrentHealth
       (withBattleStats
          (withActiveEffects golem (Some [Some (titansGift 3)]))
          (Some [("physicalAttack", int 22); ("magicalAttack", int 22);
                 ("physicalDefense", int 30); ("magicalDefense", int 30);
                 ("maxHealth", int 95); ("initiative", int 15);
                 ("criticalChance", int 5); ("dodgeChance", int 5);
                 ("energyCost", int 5)]))
       (int 90))
    (Some 0).

(** The charge effect that the stamina Charge tool attaches at turn 0. *)
Definition olympiaCharge (turns : Z) (recorded : num) : Effect :=
  {| e_name := "Olympia Emblem Effect"; e_type := "charge"; duration := turns;
     statModifications := Some [("physicalDefense", recorded)];
     healthOverTime := Some (int 0); powerLevel := Some "weak"; startTurn := 0;
     effectType := Some "Charge"; chargeEffect := Some staminaCharge;
     prepareEffect := None; casterMagic := None |}.

(** The golem right after the stamina Charge tool was used on it at turn 0. *)
Definition chargingGolem : Creature :=
  withCurrentTurn
    (withBattleStats
       (withActiveEffects golem (Some [Some (olympiaCharge 3 (int 3))]))
       (Some [("physicalAttack", int 20); ("magicalAttack", int 20);
              ("physicalDefense", int 23); ("magicalDefense", int 20);
              ("maxHealth", int 85); ("initiative", int 15);
              ("criticalChance", int 5); ("dodgeChance", int 5);
              ("energyCost", int 5)]))
    (Some 0).

(** The value of a battle stat of a creature. *)
Definition battleStat (k : string) (c : Creature) : option num :=
  obj_get k (orEmpty (battleStats c)).

Definition sampleGame (field : list Creature) (turn0 : Z) : GameState nat :=
  {| playerField := field; enemyField := [raider];
     playerEnergy := int 3; enemyEnergy := int 3;
     playerHand := []; playerDeck := [1%nat; 2%nat];
     enemyHand := []; enemyDeck := [];
     turn := turn0 |}.

(** A wisp that carries a blessing, a two-turn debuff and a one-turn
    debuff, in this order. *)
Definition weakenedWisp : Creature :=
  withActiveEffects wisp
    (Some ([Some (titansGift 5)]
           ++ Some (elementalWeakness wisp) :: [Some (criticalStrikeTrauma wisp)])%list).

(** A caster with a magic attribute of 20, and a burst spell. *)
Definition archmage : Creature :=
  let c :=
    {| id := 5; species_name := "Archmage"; rarity := "Epic"; form := Some (int 1);
       combination_level := 0;
       stats := Some [("energy", int 5); ("strength", int 5); ("magic", int 20);
                      ("stamina", int 5); ("speed", int 5)];
       specialty_stats := Some ["magic"]; battleStats := None;
       currentHealth := int 85; c_maxHealth := None; c_health := None;
       activeEffects := Some []; permanentModifications := None;
       isDefending := false; nextAttackBonus := None; currentTurn := None |} in
  withBattleStats c (Some (sampleDerivedStats c)).

Definition babylonBurst : Item :=
  {| i_name := Some "Babylon Burst"; tool_effect := None; tool_type := None;
     spell_effect := Some "Surge"; spell_type := Some "energy" |}.

(** A rarity multiplier: nothing for Common, a tenth for Legendary. *)
Definition sampleRarityMultiplier (rarity0 : string) : num :=
  if String.eqb rarity0 "Legendary" then dec 11 10
  else if String.eqb rarity0 "Epic" then dec 107 100
  else if String.eqb rarity0 "Rare" then dec 103 100
  else int 1.

(** A drain spell, and a caster that has base stats but no battle stats. *)
Definition leechSpell : Item :=
  {| i_name := Some "Leech"; tool_effect := None; tool_type := None;
     spell_effect := Some "Drain"; spell_type := Some "strength" |}.

Definition unpreparedMage : Creature := withBattleStats archmage None.

(** A raider with a pending attack bonus. *)
Definition empoweredRaider : Creature := withNextAttackBonus raider (Some (int 25)).

(** The second turn of a game, with an attack planned. *)
Definition sampleAdvisor : AdvisorState :=
  {| plannedActions := Some ["attack"]; as_turn := Some (int 2) |}.

(** A shield spell whose category is the name of a member of
    [Object.prototype]. *)
Definition cursedWard : Item :=
  {| i_name := Some "Odd Ward"; tool_effect := None; tool_type := None;
     spell_effect := Some "Shield"; spell_type := Some "constructor" |}.


(** * Properties *)

(** ** Facts about numbers *)

(** Case analysis on the condition of the first conditional in the goal. *)
Ltac case_if :=
  match goal with
  | |- context [if ?b then _ else _] => destruct b
  end.

Lemma round_atMost (x : num) (c : Z) :
  atMost x (int c) -> atMost (JS.round x) (int c).
Proof.
  destruct x as [q|]; [|trivial]. cbn. intros H.
  apply Qle_bool_iff in H. apply Qle_bool_iff.
  pose proof (Qfloor_le (q + (1 # 2))) as Hf.
  assert (Hc : (inject_Z (Qfloor (q + (1 # 2))) <= inject_Z c + (1 # 2))%Q).
  { eapply Qle_trans; [exact Hf|]. apply Qplus_le_compat; [exact H | apply Qle_refl]. }
  rewrite <- Zle_Qle. unfold Qle in Hc. cbn in Hc. lia.
Qed.

Lemma min_atMost (x cap : num) : atMost (JS.min x cap) cap.
Proof.
  destruct x as [q|], cap as [c|]; cbn; trivial.
  destruct (Qle_bool q c) eqn:E; cbn.
  - exact E.
  - apply Qle_bool_iff. apply Qle_refl.
Qed.

Lemma scaleCapped_atMost (c : Z) (m : num) (x : option num) :
  0 <= c -> atMost (scaleCapped (int c) m x) (int c).
Proof.
  intros Hc. unfold scaleCapped. destruct (JS.truthyO x).
  - apply round_atMost. apply min_atMost.
  - cbn. apply Qle_bool_iff. rewrite <- Zle_Qle. exact Hc.
Qed.

(** With a multiplier that is a number the scaled amount is a number. *)
Lemma scaleCapped_finite (c : Z) (q : Q) (x : option num) :
  exists r, scaleCapped (int c) (Fin q) x = Fin r.
Proof.
  unfold scaleCapped, int, JS.ofZ.
  destruct x as [[y|]|]; cbn [JS.truthyO JS.truthy]; eauto.
  destruct (negb (Qeq_bool y 0)); eauto.
  cbn [JS.toNum JS.mul JS.lift2 JS.fin JS.min].
  destruct (Qle_bool _ _); unfold JS.round, JS.fin, JS.ofZ; eauto.
Qed.

Lemma Qabs_Qred (q : Q) : (Qabs (Qred q) == Qabs q)%Q.
Proof. apply Qabs_wd. apply Qred_correct. Qed.

(** The capped base value has magnitude at most the cap. *)
Lemma capMagnitude_atMost (c : Z) (value : num) :
  0 <= c -> atMost (JS.abs (capMagnitude (int c) value)) (int c).
Proof.
  intros Hc. destruct value as [v|]; [|exact I].
  unfold capMagnitude, JS.sign, JS.abs, JS.min, int, JS.ofZ.
  assert (Hm : forall m : Q, (0 <= m)%Q -> (m <= inject_Z c)%Q ->
                 forall s : Z, (-1 <= s <= 1) ->
                 atMost (JS.abs (JS.mul (Fin m) (Fin (inject_Z s)))) (Fin (inject_Z c))).
  { intros m Hm0 Hmc s Hs.
    unfold atMost, JS.abs, JS.mul, JS.lift2, JS.fin, JS.le. apply Qle_bool_iff.
    rewrite Qabs_Qred, Qabs_Qmult.
    assert (Hs1 : (Qabs (inject_Z s) <= 1)%Q).
    { apply Qabs_Qle_condition. split.
      - change (- (1))%Q with (inject_Z (-1)). rewrite <- Zle_Qle. lia.
      - change 1%Q with (inject_Z 1). rewrite <- Zle_Qle. lia. }
    rewrite (Qabs_pos m Hm0).
    setoid_replace (inject_Z c) with (inject_Z c * 1)%Q by ring.
    apply Qmult_le_compat_nonneg.
    - split; assumption.
    - split; [apply Qabs_nonneg | exact Hs1]. }
  assert (Hmin : exists m, (if Qle_bool (Qabs v) (inject_Z c) then Fin (Qabs v)
                            else Fin (inject_Z c)) = Fin m
                           /\ (0 <= m)%Q /\ (m <= inject_Z c)%Q).
  { destruct (Qle_bool (Qabs v) (inject_Z c)) eqn:E.
    - exists (Qabs v). split; [reflexivity|]. split; [apply Qabs_nonneg|].
      apply Qle_bool_iff. exact E.
    - exists (inject_Z c). split; [reflexivity|]. split; [|apply Qle_refl].
      change 0%Q with (inject_Z 0). rewrite <- Zle_Qle. exact Hc. }
  destruct Hmin as (m & -> & Hm0 & Hmc).
  destruct (Qcompare v 0); apply Hm; auto; lia.
Qed.

(** ** Facts about objects *)

Lemma obj_set_In (k : string) (v : num) (m : Obj) (k' : string) (v' : num) :
  In (k', v') (obj_set k v m) -> In (k', v') m \/ (k' = k /\ v' = v).
Proof.
  induction m as [|[k0 v0] m IH]; cbn.
  - intros [H | []]. right. split; congruence.
  - destruct (String.eqb k k0) eqn:E.
    + apply String.eqb_eq in E. subst k0.
      intros [H | H]; [right; split; congruence | left; right; exact H].
    + intros [H | H]; [left; left; exact H|].
      destruct (IH H) as [H' | H']; [left; right; exact H' | right; exact H'].
Qed.

(** Every entry of [mapValues f m] is the image under [f] of an entry of
    [m] with the same key. *)
Lemma mapValues_In (f : num -> num) (m : Obj) (k : string) (v : num) :
  In (k, v) (mapValues f m) -> exists x, In (k, x) m /\ v = f x.
Proof.
  unfold mapValues.
  assert (H : forall l acc,
             (forall k v, In (k, v) acc -> exists x, In (k, x) m /\ v = f x) ->
             incl l m ->
             forall k v,
               In (k, v)
                 (fold_left (fun acc (entry : string * num) =>
                               obj_set (fst entry) (f (snd entry)) acc) l acc) ->
               exists x, In (k, x) m /\ v = f x).
  { induction l as [|[k1 x1] l IH]; intros acc Hacc Hl k' v' Hin.
    - cbn in Hin. eauto.
    - cbn [fold_left fst snd] in Hin. apply (IH (obj_set k1 (f x1) acc)) in Hin; auto.
      + intros k2 v2 H2. apply obj_set_In in H2. destruct H2 as [H2 | [-> ->]]; eauto.
        exists x1. split; [apply Hl; left; reflexivity | reflexivity].
      + intros y Hy. apply Hl. right. exact Hy. }
  apply (H m [] (fun k v (F : In (k, v) []) => match F with end) (incl_refl m)).
Qed.

Lemma obj_get_set_same (k : string) (v : num) (m : Obj) :
  obj_get k (obj_set k v m) = Some v.
Proof.
  induction m as [|[k0 v0] m IH]; cbn.
  - rewrite String.eqb_refl. reflexivity.
  - destruct (String.eqb k k0) eqn:E; cbn; rewrite E; [reflexivity | exact IH].
Qed.

Lemma lt_not_ge (a b : num) : JS.lt a b = true -> JS.ge a b = false.
Proof.
  destruct a as [x|], b as [y|]; cbn; try discriminate.
  destruct (Qle_bool y x); [discriminate | reflexivity].
Qed.

(** Adding a positive amount to zero and then once more gives twice the
    amount. *)
Lemma add_twice (b : num) :
  JS.gt b (int 0) = true ->
  JS.truthy (JS.add (int 0) b) = true
  /\ JS.add (JS.add (int 0) b) b = JS.mul (int 2) b.
Proof.
  destruct b as [q|]; [|discriminate].
  unfold JS.gt, JS.lt, int, JS.ofZ. intros Hpos.
  assert (Hq : (0 < q)%Q).
  { destruct (Qle_bool q (inject_Z 0)) eqn:E; [discriminate|].
    apply Qnot_le_lt. intros Hle. apply Qle_bool_iff in Hle.
    change (inject_Z 0) with 0%Q in E. congruence. }
  split.
  - unfold JS.add, JS.lift2, JS.fin, JS.truthy.
    destruct (Qeq_bool (Qred (inject_Z 0 + q)) 0) eqn:E; [|reflexivity].
    apply Qeq_bool_iff in E. rewrite Qred_correct in E.
    exfalso. apply (Qlt_irrefl 0). rewrite <- E at 2.
    setoid_replace (inject_Z 0 + q)%Q with q by (change (inject_Z 0) with 0%Q; ring).
    exact Hq.
  - unfold JS.add, JS.mul, JS.lift2, JS.fin. f_equal.
    apply Qred_complete. rewrite Qred_correct.
    change (inject_Z 0) with 0%Q. change (inject_Z 2) with 2%Q. ring.
Qed.

(** ** Stat recalculation *)

Section RecalculationFacts.

Variable calculateDerivedStats : Creature -> Obj.

(** The derivation reads base attributes only: it does not see the current
    health or the battle stats of the creature it is given. *)
Hypothesis derived_from_base :
  forall c h bs,
    calculateDerivedStats (withBattleStats (withCurrentHealth c h) bs)
    = calculateDerivedStats c.

Lemma withCurrentHealth_eta (c : Creature) (h : num) :
  withBattleStats (withCurrentHealth c h) (battleStats c) = withCurrentHealth c h.
Proof. destruct c; reflexivity. Qed.

Lemma withBattleStats_eta (c : Creature) (bs : option Obj) :
  withBattleStats (withCurrentHealth c (currentHealth c)) bs = withBattleStats c bs.
Proof. destruct c; reflexivity. Qed.

Lemma derived_ignores_health (c : Creature) (h : num) :
  calculateDerivedStats (withCurrentHealth c h) = calculateDerivedStats c.
Proof. rewrite <- withCurrentHealth_eta. apply derived_from_base. Qed.

Lemma derived_ignores_battleStats (c : Creature) (bs : option Obj) :
  calculateDerivedStats (withBattleStats c bs) = calculateDerivedStats c.
Proof. rewrite <- withBattleStats_eta. apply derived_from_base. Qed.

(** The stats that [recalculateDerivedStats] returns are a function of the
    derived stats, the effect list, the permanent modifications and the
    combination level. *)
Lemma recalculate_stats_ext (c c' : Creature) :
  stats c' = stats c ->
  battleStats c' = battleStats c \/ stats c <> None ->
  activeEffects c' = activeEffects c ->
  permanentModifications c' = permanentModifications c ->
  combination_level c' = combination_level c ->
  calculateDerivedStats c' = calculateDerivedStats c ->
  fst (recalculateDerivedStats calculateDerivedStats c')
  = fst (recalculateDerivedStats calculateDerivedStats c).
Proof.
  intros Hs Hb He Hp Hl Hd. unfold recalculateDerivedStats.
  rewrite Hs. destruct (stats c) eqn:Es.
  - rewrite He, Hp, Hl, Hd. reflexivity.
  - destruct Hb as [Hb | Hb]; [rewrite Hb; reflexivity | congruence].
Qed.

(** What the call leaves of the creature: the same creature, possibly
    with a lower current health. *)
Lemma recalculate_creature (c : Creature) :
  exists h,
    snd (recalculateDerivedStats calculateDerivedStats c) = withCurrentHealth c h.
Proof.
  unfold recalculateDerivedStats. destruct (stats c).
  - cbn zeta.
    match goal with
    | |- context [if (JS.truthy ?a && ?b) then _ else _] =>
        destruct (JS.truthy a && b)
    end; cbn [snd].
    + eexists; reflexivity.
    + exists (currentHealth c). destruct c; reflexivity.
  - exists (currentHealth c). destruct c; reflexivity.
Qed.

(** C5. The stat recalculation pipeline is idempotent: the second of two
    calls in a row returns the battle stats that the first returned,
    whether or not the caller stored the first result in
    [creature.battleStats] in between.  The effect list, the permanent
    modifications and the base stats are those the first call saw. *)
Theorem recalculateDerivedStats_idempotent (c : Creature) :
  let first := recalculateDerivedStats calculateDerivedStats c in
  fst (recalculateDerivedStats calculateDerivedStats (snd first)) = fst first
  /\ fst (recalculateDerivedStats calculateDerivedStats
            (withBattleStats (snd first) (Some (fst first))))
     = fst first.
Proof.
  cbn zeta. destruct (recalculate_creature c) as [h Hh]. rewrite Hh. split.
  - apply recalculate_stats_ext; try reflexivity.
    + left; reflexivity.
    + apply derived_ignores_health.
  - destruct (stats c) eqn:Es.
    + apply recalculate_stats_ext; try reflexivity.
      * right. congruence.
      * rewrite derived_from_base. reflexivity.
    + unfold recalculateDerivedStats at 1. cbn [stats withBattleStats withCurrentHealth].
      rewrite Es. cbn.
      unfold recalculateDerivedStats. rewrite Es. reflexivity.
Qed.

End RecalculationFacts.

Lemma sampleDerivedStats_from_base (c : Creature) (h : num) (bs : option Obj) :
  sampleDerivedStats (withBattleStats (withCurrentHealth c h) bs)
  = sampleDerivedStats c.
Proof. reflexivity. Qed.

Lemma recalculateDerivedStats_idempotent_witness :
  let first := recalculateDerivedStats sampleDerivedStats weakenedGolem in
  obj_get "maxHealth" (fst first) = Some (int 65)
  /\ currentHealth (snd first) = int 65
  /\ fst (recalculateDerivedStats sampleDerivedStats (snd first)) = fst first
  /\ fst (recalculateDerivedStats sampleDerivedStats
            (withBattleStats (snd first) (Some (fst first))))
     = fst first.
Proof.
  split; [reflexivity|]. split; [reflexivity|].
  exact (recalculateDerivedStats_idempotent sampleDerivedStats
           sampleDerivedStats_from_base weakenedGolem).
Defined.

(** ** Attacks *)

Section AttackFacts.

Variable calculateComboBonus : num -> num.
Variable calculateDamage : Creature -> Creature -> string -> num -> DamageResult.
Variable showNum : num -> string.

(** A dodge can only be reported by the damage formula: the sentinel
    result for invalid input is never a dodge. *)
Lemma processAttack_dodged_valid (attacker defender : option Creature)
    (attackType : string) (comboLevel critRoll effectRoll : num) :
  isDodged (damageResult
              (processAttack calculateComboBonus calculateDamage showNum
                 attacker defender attackType comboLevel critRoll effectRoll))
  = true ->
  exists a d sa sd,
    attacker = Some a /\ defender = Some d
    /\ battleStats a = Some sa /\ battleStats d = Some sd.
Proof.
  unfold processAttack.
  destruct attacker as [a|]; [|discriminate].
  destruct defender as [d|]; [|discriminate].
  destruct (battleStats a) as [sa|] eqn:Ea; [|discriminate].
  destruct (battleStats d) as [sd|] eqn:Ed; [|discriminate].
  intros _. exists a, d, sa, sd. auto.
Qed.

(** C6. When the damage result of [processAttack] is a dodge, the
    returned defender has the current health of the input defender, its
    effect list is the input defender's list (empty if it had none), so
    no debuff was attached, and [actualDamage] and its aliases are 0. *)
Theorem processAttack_dodged_conservation (attacker defender : option Creature)
    (attackType : string) (comboLevel critRoll effectRoll : num) :
  let result :=
    processAttack calculateComboBonus calculateDamage showNum
      attacker defender attackType comboLevel critRoll effectRoll in
  isDodged (damageResult result) = true ->
  exists d d',
    defender = Some d
    /\ updatedDefender result = Some d'
    /\ currentHealth d' = currentHealth d
    /\ activeEffects d'
       = Some (match activeEffects d with Some l => l | None => [] end)
    /\ actualDamage result = int 0
    /\ damage result = int 0 /\ finalDamage result = int 0
    /\ totalDamage result = int 0 /\ damageDealt result = int 0.
Proof.
  cbn zeta. intros Hdodge.
  destruct (processAttack_dodged_valid _ _ _ _ _ _ Hdodge)
    as (a & d & sa & sd & -> & -> & Ea & Ed).
  revert Hdodge. unfold processAttack. rewrite Ea, Ed.
  cbn [damageResult isDodged updatedDefender actualDamage damage finalDamage
       totalDamage damageDealt].
  intros Hdodge. rewrite Hdodge. cbn [negb].
  exists d. eexists. split; [reflexivity|]. split; [reflexivity|].
  repeat split; reflexivity.
Qed.

End AttackFacts.

(** A plain hit: the defender loses the 30 points that the damage formula
    returned, and every damage field reports them. *)
Example processAttack_plain_hit :
  let result :=
    processAttack sampleCombo alwaysThirty sampleShow (Some golem) (Some wisp)
      "auto" (int 1) (int 0) (int 0) in
  option_map currentHealth (updatedDefender result) = Some (int 55)
  /\ actualDamage result = int 30 /\ damage result = int 30
  /\ ar_attackType result = Some "physical"
  /\ battleLog result = "Golem used physical attack on Wisp dealing 30 damage.".
Proof. cbn zeta. repeat split; vm_compute; reflexivity. Qed.

Lemma processAttack_dodged_conservation_witness :
  let result :=
    processAttack sampleCombo alwaysDodged sampleShow
      (Some golem) (Some (freshCreature 2 "Wisp" "Rare" ["magic"]))
      "auto" (int 1) (int 0) (int 0) in
  isDodged (damageResult result) = true
  /\ exists d d',
       Some (freshCreature 2 "Wisp" "Rare" ["magic"]) = Some d
       /\ updatedDefender result = Some d'
       /\ currentHealth d' = currentHealth d
       /\ activeEffects d'
          = Some (match activeEffects d with Some l => l | None => [] end)
       /\ actualDamage result = int 0
       /\ damage result = int 0 /\ finalDamage result = int 0
       /\ totalDamage result = int 0 /\ damageDealt result = int 0.
Proof.
  split; [reflexivity|].
  apply (processAttack_dodged_conservation sampleCombo alwaysDodged sampleShow).
  reflexivity.
Defined.

(** ** Effect expiry *)

Section ExpiryFacts.

Variable sinThird : Z -> num.
Variable calculateDerivedStats : Creature -> Obj.


Lemma processTimedEffect_identity (e : Effect) (t s : Z) :
  e_name (processTimedEffect sinThird e t s) = e_name e
  /\ e_type (processTimedEffect sinThird e t s) = e_type e
  /\ chargeEffect (processTimedEffect sinThird e t s) = chargeEffect e
  /\ startTurn (processTimedEffect sinThird e t s) = startTurn e.
Proof.
  unfold processTimedEffect.
  destruct (chargeEffect e) eqn:E; repeat case_if; cbn; rewrite ?E; auto.
Qed.

(** The element returned by the callback is the same whatever the
    creature state. *)
Lemma tickEffect_snd (d : string) (t : Z) (r : string) (bs : Obj)
    (st : TickState) (oe : option Effect) :
  snd (tickEffect sinThird d t r bs st oe) = effectAfterTick sinThird t oe.
Proof.
  unfold effectAfterTick, tickEffect. destruct oe as [e|]; [|reflexivity].
  cbn zeta.
  destruct (chargeEffect (processTimedEffect sinThird e t (startTurn e)));
    [|reflexivity].
  destruct (String.eqb _ "charge"); [|reflexivity].
  destruct (JS.ge _ _ && JS.truthy _); [reflexivity|].
  destruct (negb _ && JS.gt _ _); reflexivity.
Qed.

Lemma tickEffects_snd (d : string) (t : Z) (r : string) (bs : Obj)
    (l : list (option Effect)) (st : TickState) :
  snd (tickEffects sinThird d t r bs st l) = map (effectAfterTick sinThird t) l.
Proof.
  revert st. induction l as [|oe l IH]; intros st; [reflexivity|].
  cbn [tickEffects map].
  pose proof (tickEffect_snd d t r bs st oe) as H.
  destruct (tickEffect sinThird d t r bs st oe) as [st1 oe'].
  specialize (IH st1).
  destruct (tickEffects sinThird d t r bs st1 l) as [st2 rest'].
  cbn [snd] in *. congruence.
Qed.

Lemma tickCreature_effects (d : string) (t : Z) (c : Creature) (bs : Obj) :
  battleStats c = Some bs ->
  activeEffects (tickCreature sinThird calculateDerivedStats d t c)
  = Some (effectsAfterTick sinThird t
            (match activeEffects c with Some l => l | None => [] end))
  /\ exists bs', battleStats (tickCreature sinThird calculateDerivedStats d t c)
                 = Some bs'.
Proof.
  intros Hbs. unfold tickCreature. rewrite Hbs.
  match goal with
  | |- context [tickEffects sinThird d t ?r ?b ?s ?l] =>
      pose proof (tickEffects_snd d t r b l s) as H;
      destruct (tickEffects sinThird d t r b s l) as [st mapped]
  end.
  cbn [snd] in H. subst mapped. unfold effectsAfterTick.
  destruct (ts_statsModified st);
    match goal with
    | |- context [if isDefending ?x then _ else _] => destruct (isDefending x)
    end; cbn; rewrite ?Hbs; eauto.
Qed.








End ExpiryFacts.



(** ** Tools and spells: what is returned *)

Section ItemFacts.

Variable calculateDerivedStats : Creature -> Obj.

(** A returned tool effect is the scaled table entry. *)
Lemma applyTool_effect (creature : option Creature) (tool : option Item)
    (d : string) (t : Z) (e : ToolEffect) :
  toolEffect (applyTool calculateDerivedStats creature tool d t) = Some e ->
  exists c tool0 bs base,
    creature = Some c /\ tool = Some tool0 /\ battleStats c = Some bs
    /\ getToolEffect tool = Some base
    /\ e = scaleToolEffect base (calculateEffectPower tool0 (stats c) d).
Proof.
  unfold applyTool.
  destruct creature as [c|]; [|discriminate].
  destruct tool as [tool0|]; [|discriminate].
  destruct (battleStats c) as [bs|] eqn:Ebs; [|discriminate].
  destruct (getToolEffect (Some tool0)) as [base|] eqn:Eg; [|discriminate].
  cbn zeta.
  match goal with
  | |- context [recalculateDerivedStats calculateDerivedStats ?x] =>
      destruct (recalculateDerivedStats calculateDerivedStats x) as [newStats c']
  end.
  cbn [toolEffect]. intros [= <-].
  exists c, tool0, bs, base. auto.
Qed.

(** A returned spell effect carries the scaled amounts of the table entry. *)
Lemma applySpell_effect (caster target : option Creature) (spell : option Item)
    (d : string) (t : Z) (critRoll : num) (r : SpellResult) (e : SpellEffect) :
  applySpell calculateDerivedStats caster target spell d t critRoll = Some r ->
  spellEffect r = Some e ->
  exists c tg spell0 cs base,
    caster = Some c /\ target = Some tg /\ spell = Some spell0
    /\ stats c = Some cs
    /\ getSpellEffect spell (JS.orElse (obj_get "magic" cs) (int 5)) = Some base
    /\ let scaled := scaleSpellEffect base (calculateEffectPower spell0 (stats c) d) in
       se_damage e = se_damage scaled
       /\ se_healing e = se_healing scaled
       /\ se_selfHeal e = se_selfHeal scaled
       /\ se_statChanges e = se_statChanges scaled.
Proof.
  unfold applySpell.
  destruct caster as [c|]; [|intros [= <-]; discriminate].
  destruct target as [tg|]; [|intros [= <-]; discriminate].
  destruct spell as [spell0|]; [|intros [= <-]; discriminate].
  destruct (stats c) as [cs|] eqn:Ecs; [|intros [= <-]; discriminate].
  destruct (battleStats tg) as [ts|] eqn:Ets; [|intros [= <-]; discriminate].
  destruct (getSpellEffect (Some spell0) _) as [base|] eqn:Eg;
    [|intros [= <-]; discriminate].
  cbn zeta.
  set (m := calculateEffectPower spell0 (Some cs) d).
  set (scaled0 := scaleSpellEffect base m).
  assert (Hstep : forall tc,
             let scaled := snd (spellDamageStep scaled0
                                  (JS.orElse (obj_get "magic" cs) (int 5)) m critRoll tc) in
             se_damage scaled = se_damage scaled0
             /\ se_healing scaled = se_healing scaled0
             /\ se_selfHeal scaled = se_selfHeal scaled0
             /\ se_statChanges scaled = se_statChanges scaled0).
  { intros tc. unfold spellDamageStep.
    destruct (JS.truthy _); [|cbn; auto].
    destruct (spellFinalDamage _ _ _ _ _); cbn; auto. }
  match goal with
  | |- context [spellDamageStep scaled0 ?a ?b ?c ?tc] =>
      specialize (Hstep tc); destruct (spellDamageStep scaled0 a b c tc) as [tc' scaled]
  end.
  cbn [snd] in Hstep.
  destruct (selfHealStep _ _ _) as [cc|]; [|discriminate].
  destruct (statDrainStep _ _ _) as [[ts2 cs2]|]; [|discriminate].
  intros [= <-]. cbn [spellEffect]. intros [= <-].
  exists c, tg, spell0, cs, base. rewrite Ecs. fold m. fold scaled0.
  repeat split; try assumption; apply Hstep.
Qed.

(** The scaled stat changes: capped base value times capped multiplier. *)
Lemma scaleStatChanges_In (c : Z) (m : num) (changes : Obj) (stat : string) (v : num) :
  0 <= c ->
  In (stat, v) (scaleStatChanges (int c) m changes) ->
  exists b,
    In (stat, b) changes
    /\ v = JS.round (JS.mul (capMagnitude (int c) b) (JS.min m (dec 15 10)))
    /\ atMost (JS.abs (capMagnitude (int c) b)) (int c).
Proof.
  intros Hc Hin. apply mapValues_In in Hin. destruct Hin as (b & Hb & ->).
  exists b. split; [exact Hb|]. split; [reflexivity|].
  apply capMagnitude_atMost. exact Hc.
Qed.

End ItemFacts.

Lemma atMost_within (x cap : num) : isNumber x -> atMost x cap -> within x cap.
Proof. intros [q ->] H. exact H. Qed.

Lemma capMagnitude_number (cap : Z) (q : Q) :
  isNumber (capMagnitude (int cap) (Fin q)).
Proof.
  unfold capMagnitude, JS.abs, JS.min, JS.sign, int, JS.ofZ.
  destruct (Qle_bool _ _), (Qcompare q 0); eexists; reflexivity.
Qed.

Lemma scaled_change_number (cap : Z) (b m : num) :
  isNumber b -> isNumber m ->
  isNumber (JS.round (JS.mul (capMagnitude (int cap) b) (JS.min m (dec 15 10)))).
Proof.
  intros [q ->] [p ->]. destruct (capMagnitude_number cap q) as [x ->].
  unfold JS.min, dec, JS.fin. destruct (Qle_bool _ _); eexists; reflexivity.
Qed.

Lemma calculateEffectPower_number (item : Item) (casterStats : option Obj)
    (difficulty : string) :
  isNumber (calculateEffectPower item casterStats difficulty)
  <-> powerFromInheritedMember item casterStats = false.
Proof.
  unfold calculateEffectPower, powerFromInheritedMember.
  assert (Hp : exists p,
             (if String.eqb difficulty "easy" then JS.mul (int 1) (dec 9 10)
              else if String.eqb difficulty "medium" then JS.mul (int 1) (int 1)
              else if String.eqb difficulty "hard" then JS.mul (int 1) (dec 11 10)
              else if String.eqb difficulty "expert" then JS.mul (int 1) (dec 12 10)
              else int 1) = Fin p)
    by (repeat case_if; eexists; reflexivity).
  destruct Hp as [p ->].
  destruct casterStats as [o|]; [|split; [reflexivity | intros _; eexists; reflexivity]].
  destruct (spell_type item) as [ty|];
    [|split; [reflexivity | intros _; eexists; reflexivity]].
  destruct (String.eqb ty ""); cbn [negb andb];
    [split; [reflexivity | intros _; eexists; reflexivity]|].
  destruct (obj_get ty o) as [v|].
  - split; [reflexivity|]. intros _.
    assert (Hv : exists x, JS.orElse (Some v) (int 5) = Fin x).
    { unfold JS.orElse. destruct v as [x|]; cbn [JS.truthy].
      - destruct (negb _); eexists; reflexivity.
      - eexists; reflexivity. }
    destruct Hv as [x ->]. eexists; reflexivity.
  - destruct (inheritedProperty ty).
    + split; [intros [q Hq]; discriminate | discriminate].
    + split; [reflexivity | intros _; eexists; reflexivity].
Qed.

Lemma getToolEffect_changes_numbers (tool : option Item) (base : ToolEffect) :
  getToolEffect tool = Some base ->
  Forall (fun entry : string * num => isNumber (snd entry))
    (orEmpty (te_statChanges base)).
Proof.
  unfold getToolEffect, toolBaseEffect.
  destruct tool as [[n [e|] [ty|] se st]|];
    repeat case_if; intros [= <-]; vm_compute;
    repeat (apply Forall_cons; [eexists; reflexivity|]); apply Forall_nil.
Qed.

Lemma getSpellEffect_changes_numbers (spell : option Item) (casterMagic0 : num)
    (base : SpellEffect) :
  getSpellEffect spell casterMagic0 = Some base ->
  Forall (fun entry : string * num => isNumber (snd entry))
    (orEmpty (se_statChanges base)).
Proof.
  unfold getSpellEffect, spellBaseEffect.
  destruct spell as [[n te tt [e|] [ty|]]|];
    repeat case_if; intros [= <-]; cbn [se_statChanges shieldSpell echoSpell burstSpell
      drainSpell chargeSpell emptySpellEffect orEmpty];
    vm_compute;
    repeat (apply Forall_cons; [eexists; reflexivity|]); apply Forall_nil.
Qed.

Lemma scaleCapped_within (c : Z) (m : num) (x : option num) :
  0 <= c -> isNumber m -> within (scaleCapped (int c) m x) (int c).
Proof.
  intros Hc [q ->]. apply atMost_within.
  - destruct (scaleCapped_finite c q x) as [r ->]. eexists; reflexivity.
  - apply scaleCapped_atMost. exact Hc.
Qed.

Lemma scaled_changes_within (c : Z) (m : num) (changes : Obj) (stat : string)
    (v : num) :
  0 <= c -> isNumber m ->
  Forall (fun entry : string * num => isNumber (snd entry)) changes ->
  In (stat, v) (scaleStatChanges (int c) m changes) ->
  exists b,
    In (stat, b) changes
    /\ v = JS.round (JS.mul (capMagnitude (int c) b) (JS.min m (dec 15 10)))
    /\ within (JS.abs (capMagnitude (int c) b)) (int c)
    /\ isNumber v.
Proof.
  intros Hc Hm Hnum Hin.
  destruct (scaleStatChanges_In c m changes stat v Hc Hin) as (b & Hb & Hv & Hcap).
  exists b. split; [exact Hb|]. split; [exact Hv|].
  rewrite Forall_forall in Hnum. destruct (Hnum _ Hb) as [q Hq]. cbn [snd] in Hq.
  split.
  - apply atMost_within; [|exact Hcap]. subst b.
    destruct (capMagnitude_number c q) as [x ->]. eexists; reflexivity.
  - subst v b. apply scaled_change_number; [eexists; reflexivity | exact Hm].
Qed.

Lemma capped_multiplier_within (m : num) :
  isNumber m -> within (JS.min m (dec 15 10)) (dec 15 10).
Proof.
  intros [q ->]. apply atMost_within; [|apply min_atMost].
  unfold JS.min, dec, JS.fin. destruct (Qle_bool _ _); eexists; reflexivity.
Qed.

(** C9, for a category that names an inherited member.  The caps hold,
    as bounds on numbers, for every tool and spell whose power
    multiplier is a number, and the multiplier is a number unless the
    item's [spell_type] is no stat of the caster and names a member of
    [Object.prototype].  For such an item the multiplier is [NaN] and
    the caps are lost: the Shield spell [cursedWard] comes back with a
    healing and with stat changes that are [NaN], not numbers within the
    caps, and after the call the target's defenses and maximum health
    are [NaN]. *)
Theorem caps_lost_to_inherited_spell_type :
  (exists r e target',
      applySpell sampleDerivedStats (Some archmage) (Some wisp) (Some cursedWard)
        "medium" 0 (int 1) = Some r
      /\ spellEffect r = Some e /\ updatedTarget r = Some target'
      /\ calculateEffectPower cursedWard (stats archmage) "medium" = NaN
      /\ se_healing e = Some NaN
      /\ ~ within (JS.toNum (se_healing e)) (int 80)
      /\ se_statChanges e
         = Some [("physicalDefense", NaN); ("magicalDefense", NaN); ("maxHealth", NaN)]
      /\ battleStat "physicalDefense" wisp = Some (int 20)
      /\ (forall stat,
            In stat ["physicalDefense"; "magicalDefense"; "maxHealth"] ->
            exists old, battleStat stat wisp = Some (Fin old)
                        /\ battleStat stat target' = Some NaN))
  /\ (forall item casterStats difficulty,
        isNumber (calculateEffectPower item casterStats difficulty)
        <-> powerFromInheritedMember item casterStats = false)
  /\ (forall calculateDerivedStats creature tool d t e,
        toolEffect (applyTool calculateDerivedStats creature tool d t) = Some e ->
        exists c tool0 base,
          creature = Some c /\ tool = Some tool0 /\ getToolEffect tool = Some base
          /\ let m := calculateEffectPower tool0 (stats c) d in
             (powerFromInheritedMember tool0 (stats c) = false ->
              (forall stat v,
                  In (stat, v) (orEmpty (te_statChanges e)) ->
                  exists b,
                    In (stat, b) (orEmpty (te_statChanges base))
                    /\ v = JS.round (JS.mul (capMagnitude (int 10) b)
                                            (JS.min m (dec 15 10)))
                    /\ within (JS.abs (capMagnitude (int 10) b)) (int 10)
                    /\ isNumber v)
              /\ within (JS.min m (dec 15 10)) (dec 15 10)
              /\ within (JS.toNum (te_healthChange e)) (int 50)))
  /\ (forall calculateDerivedStats caster target spell d t critRoll r e,
        applySpell calculateDerivedStats caster target spell d t critRoll = Some r ->
        spellEffect r = Some e ->
        exists c spell0 cs base,
          caster = Some c /\ spell = Some spell0 /\ stats c = Some cs
          /\ getSpellEffect spell (JS.orElse (obj_get "magic" cs) (int 5)) = Some base
          /\ let m := calculateEffectPower spell0 (stats c) d in
             (powerFromInheritedMember spell0 (stats c) = false ->
              (forall stat v,
                  In (stat, v) (orEmpty (se_statChanges e)) ->
                  exists b,
                    In (stat, b) (orEmpty (se_statChanges base))
                    /\ v = JS.round (JS.mul (capMagnitude (int 12) b)
                                            (JS.min m (dec 15 10)))
                    /\ within (JS.abs (capMagnitude (int 12) b)) (int 12)
                    /\ isNumber v)
              /\ within (JS.min m (dec 15 10)) (dec 15 10)
              /\ within (JS.toNum (se_healing e)) (int 80)
              /\ within (JS.toNum (se_selfHeal e)) (int 40)
              /\ within (JS.toNum (se_damage e)) (int 100))).
Proof.
  split; [|split; [|split]].
  - do 3 eexists. split; [vm_compute; reflexivity|].
    split; [reflexivity|]. split; [reflexivity|].
    split; [vm_compute; reflexivity|]. split; [vm_compute; reflexivity|].
    split; [vm_compute; discriminate|]. split; [vm_compute; reflexivity|].
    split; [vm_compute; reflexivity|].
    intros stat [<- | [<- | [<- | []]]]; eexists;
      (split; [vm_compute; reflexivity|]); vm_compute; reflexivity.
  - intros. apply calculateEffectPower_number.
  - intros calculateDerivedStats creature tool d t e He.
    apply applyTool_effect in He.
    destruct He as (c & tool0 & bs & base & -> & -> & Hbs & Hg & ->).
    exists c, tool0, base. split; [reflexivity|]. split; [reflexivity|].
    split; [exact Hg|]. cbn zeta. intros Hm.
    apply calculateEffectPower_number with (difficulty := d) in Hm.
    split; [|split].
    + intros stat v Hin. cbn [scaleToolEffect te_statChanges orEmpty] in Hin.
      pose proof (getToolEffect_changes_numbers _ _ Hg) as Hnum.
      destruct (te_statChanges base) as [changes|]; [|destruct Hin].
      apply scaled_changes_within in Hin; [exact Hin | lia | exact Hm | exact Hnum].
    + apply capped_multiplier_within. exact Hm.
    + cbn [scaleToolEffect te_healthChange JS.toNum].
      apply scaleCapped_within; [lia | exact Hm].
  - intros calculateDerivedStats caster target spell d t critRoll r e Hr He.
    destruct (applySpell_effect _ _ _ _ _ _ _ _ _ Hr He)
      as (c & tg & spell0 & cs & base & -> & -> & -> & Hcs & Hg & Hd & Hh & Hs & Hc).
    exists c, spell0, cs, base. split; [reflexivity|]. split; [reflexivity|].
    split; [exact Hcs|]. split; [exact Hg|]. cbn zeta. intros Hm.
    apply calculateEffectPower_number with (difficulty := d) in Hm.
    split; [|split; [|split; [|split]]].
    + intros stat v Hin. rewrite Hc in Hin.
      cbn [scaleSpellEffect se_statChanges orEmpty] in Hin.
      pose proof (getSpellEffect_changes_numbers _ _ _ Hg) as Hnum.
      destruct (se_statChanges base) as [changes|]; [|destruct Hin].
      apply scaled_changes_within in Hin; [exact Hin | lia | exact Hm | exact Hnum].
    + apply capped_multiplier_within. exact Hm.
    + rewrite Hh. cbn [scaleSpellEffect se_healing JS.toNum].
      apply scaleCapped_within; [lia | exact Hm].
    + rewrite Hs. cbn [scaleSpellEffect se_selfHeal JS.toNum].
      apply scaleCapped_within; [lia | exact Hm].
    + rewrite Hd. cbn [scaleSpellEffect se_damage JS.toNum].
      apply scaleCapped_within; [lia | exact Hm].
Qed.

Lemma caps_lost_to_inherited_spell_type_witness :
  (exists e,
      toolEffect (applyTool sampleDerivedStats (Some golem) (Some shieldTool) "expert" 0)
      = Some e
      /\ te_healthChange e = Some (int 6)
      /\ within (JS.toNum (te_healthChange e)) (int 50))
  /\ (exists r e,
        applySpell sampleDerivedStats (Some archmage) (Some wisp) (Some babylonBurst)
          "expert" 0 (int 1) = Some r
        /\ spellEffect r = Some e
        /\ se_damage e = Some (int 100)
        /\ within (JS.toNum (se_damage e)) (int 100)).
Proof.
  destruct caps_lost_to_inherited_spell_type as (_ & _ & Htool & Hspell).
  split.
  - assert (H : exists e,
               toolEffect (applyTool sampleDerivedStats (Some golem) (Some shieldTool)
                             "expert" 0) = Some e
               /\ te_healthChange e = Some (int 6)).
    { eexists. split; [vm_compute; reflexivity|]. vm_compute. reflexivity. }
    destruct H as (e & He & Hh). exists e. split; [exact He|]. split; [exact Hh|].
    destruct (Htool sampleDerivedStats _ _ _ _ e He)
      as (c & tool0 & base & Hc & Ht & _ & Hcaps).
    injection Hc as <-. injection Ht as <-.
    exact (proj2 (proj2 (Hcaps eq_refl))).
  - assert (H : exists r e,
               applySpell sampleDerivedStats (Some archmage) (Some wisp)
                 (Some babylonBurst) "expert" 0 (int 1) = Some r
               /\ spellEffect r = Some e
               /\ se_damage e = Some (int 100)).
    { do 2 eexists. split; [vm_compute; reflexivity|].
      split; [reflexivity|]. vm_compute. reflexivity. }
    destruct H as (r & e & Hr & He & Hd). exists r, e.
    split; [exact Hr|]. split; [exact He|]. split; [exact Hd|].
    destruct (Hspell sampleDerivedStats _ _ _ _ _ _ r e Hr He)
      as (c & spell0 & cs & base & Hc & Hsp & _ & _ & Hcaps).
    injection Hc as <-. injection Hsp as <-.
    exact (proj2 (proj2 (proj2 (proj2 (Hcaps eq_refl))))).
Defined.

(** ** Effect tables *)

Lemma getToolEffect_never_null (tool : option Item) :
  exists e, getToolEffect tool = Some e.
Proof.
  unfold getToolEffect.
  destruct tool as [[n [effect|] [type|] se st]|]; eauto.
  repeat (case_if; eauto).
Qed.

Lemma getSpellEffect_never_null (spell : option Item) (casterMagic0 : num) :
  exists e, getSpellEffect spell casterMagic0 = Some e.
Proof.
  unfold getSpellEffect.
  destruct spell as [[n te tt [effect|] [type|]]|]; cbn zeta; eauto.
  repeat (case_if; eauto).
Qed.

(** C10, at a category inherited from [Object.prototype].  Neither function ever returns
    null or undefined, so the null checks of [applyTool] and [applySpell]
    are dead code; but for a category that names a member of
    [Object.prototype] and an unknown effect tag the returned object has
    no [duration]. *)
Theorem effect_lookup_inherited_category :
  (forall tool, getToolEffect tool <> None)
  /\ (forall spell casterMagic0, getSpellEffect spell casterMagic0 <> None)
  /\ getToolEffect (Some inheritedCategoryTool)
     = Some {| te_statChanges := Some []; te_energyGain := None;
               te_healthChange := Some (int 0); te_healthOverTime := None;
               te_chargeEffect := None; te_duration := None |}
  /\ (exists e, getSpellEffect (Some inheritedCategorySpell) (int 5) = Some e
                /\ se_duration e = None).
Proof.
  split; [|split; [|split]].
  - intros tool H. destruct (getToolEffect_never_null tool). congruence.
  - intros spell m H. destruct (getSpellEffect_never_null spell m). congruence.
  - reflexivity.
  - eexists. split; reflexivity.
Qed.

Section SoftFailure.

Variable calculateDerivedStats : Creature -> Obj.






End SoftFailure.



(** ** Death triggers *)

Lemma defeatLoop_app (l1 l2 : list Creature) (acc : list Creature * list Creature) :
  defeatLoop acc (l1 ++ l2)
  = match defeatLoop acc l1 with
    | Some acc' => defeatLoop acc' l2
    | None => None
    end.
Proof.
  revert acc. induction l1 as [|c l1 IH]; intros acc; [reflexivity|].
  cbn [app defeatLoop]. destruct (defeatStep acc c); [apply IH | reflexivity].
Qed.

(** Creatures that are alive are collected unchanged, in field order. *)
Lemma defeatLoop_alive (l : list Creature) (survivors opp : list Creature) :
  Forall alive l ->
  defeatLoop (survivors, opp) l = Some ((survivors ++ l)%list, opp).
Proof.
  revert survivors. induction l as [|c l IH]; intros survivors Hl.
  - cbn. rewrite app_nil_r. reflexivity.
  - inversion Hl as [|? ? Hc Hl']; subst. cbn [defeatLoop defeatStep].
    unfold alive in Hc. rewrite Hc. rewrite IH by assumption.
    rewrite <- app_assoc. reflexivity.
Qed.

Lemma forEachAlly_blessed (creature : Creature) (l : list Creature) :
  Forall (fun ally => battleStats ally <> None) l ->
  forEachAlly (legendaryBlessing creature) l
  = Some (map (fun ally => blessedAlly creature ally (orEmpty (battleStats ally))) l).
Proof.
  induction l as [|a l IH]; intros Hl; [reflexivity|].
  inversion Hl as [|? ? Ha Hl']; subst. cbn [forEachAlly map].
  unfold legendaryBlessing at 1. destruct (battleStats a) as [bs|] eqn:E; [|congruence].
  rewrite IH by assumption. reflexivity.
Qed.

(** For a Legendary casualty the ally trigger throws as soon as one of
    the allies collected so far has no battle stats. *)
Lemma forEachAlly_throws (creature : Creature) (l : list Creature) :
  Exists (fun ally => battleStats ally = None) l ->
  forEachAlly (legendaryBlessing creature) l = None.
Proof.
  induction 1 as [a l Ha | a l _ IH]; cbn [forEachAlly].
  - unfold legendaryBlessing. rewrite Ha. reflexivity.
  - destruct (legendaryBlessing creature a); [|reflexivity].
    rewrite IH. reflexivity.
Qed.

(** C4, as the code has it.  The loop over the field, started from any
    pair [start] of survivors and opposing field
    ([processDefeatedCreatures] starts it from no survivors and the
    given opposing field), reaches a defeated [creature] after the part
    [before] of the field, with [survivors] collected so far and the
    opposing field as [opp]; [after] is the rest of the field.  Whatever
    these are, the casualty fires at most one ally trigger on
    [survivors], the first that applies in the order legendary, energy
    specialty, epic, and after it, independently, the revenge debuff on
    [opp] when it is Legendary or Epic; the loop then goes on with
    [after].  A defeated Legendary creature gives the survivors the
    legendary blessing only, whether or not its specialties include
    energy; the call throws if one of them has no battle stats. *)
Theorem death_triggers_by_priority
    (start : list Creature * list Creature)
    (before after survivors opp : list Creature) (creature : Creature) :
  defeated creature ->
  defeatLoop start before = Some (survivors, opp) ->
  let sweep := defeatLoop start (before ++ creature :: after) in
  (rarity creature = "Legendary" ->
   (Forall (fun ally => battleStats ally <> None) survivors ->
    sweep
    = defeatLoop
        (map (fun ally => blessedAlly creature ally (orEmpty (battleStats ally)))
           survivors,
         map guiltyConscience opp)
        after)
   /\ (Exists (fun ally => battleStats ally = None) survivors -> sweep = None))
  /\ (rarity creature <> "Legendary" ->
      hasEnergySpecialty creature = true ->
      sweep
      = defeatLoop
          (map energyRelease survivors,
           if String.eqb (rarity creature) "Epic"
           then map guiltyConscience opp else opp)
          after)
  /\ (rarity creature = "Epic" ->
      hasEnergySpecialty creature = false ->
      sweep = defeatLoop (map epicEssence survivors, map guiltyConscience opp) after)
  /\ (rarity creature <> "Legendary" ->
      rarity creature <> "Epic" ->
      hasEnergySpecialty creature = false ->
      sweep = defeatLoop (survivors, opp) after).
Proof.
  intros Hd Hbefore. cbn zeta.
  rewrite defeatLoop_app, Hbefore.
  cbn [defeatLoop defeatStep]. unfold defeated in Hd. rewrite Hd.
  split; [|split; [|split]].
  - intros Hr. rewrite Hr, (String.eqb_refl "Legendary"). cbn [orb]. split.
    + intros Hbs. rewrite forEachAlly_blessed by assumption. reflexivity.
    + intros Hbs. rewrite forEachAlly_throws by assumption. reflexivity.
  - intros Hr He. apply String.eqb_neq in Hr. rewrite Hr, He. cbn [orb].
    destruct (String.eqb (rarity creature) "Epic"); reflexivity.
  - intros Hr He. rewrite Hr, He. reflexivity.
  - intros Hr1 Hr2 He. apply String.eqb_neq in Hr1, Hr2. rewrite Hr1, Hr2, He.
    reflexivity.
Qed.

(** C4 fails for a Legendary energy specialist.  A defeated Legendary creature with the energy
    specialty leaves its ally with the legendary blessing and nothing
    else: no Energy Release is attached. *)
Lemma legendary_energy_specialist_gives_no_energy_release :
  exists ally' enemy',
    processDefeatedCreatures [imp; phoenix] [raider] = Some ([ally'], [enemy'])
    /\ hasEnergySpecialty phoenix = true
    /\ effectTypes ally' = ["legendary_blessing"]
    /\ countEffects "energy_burst" ally' = 0%nat
    /\ effectTypes enemy' = ["debuff"].
Proof.
  eexists. eexists. split; [vm_compute; reflexivity|].
  repeat split; vm_compute; reflexivity.
Qed.

Lemma death_triggers_by_priority_witness :
  defeated phoenix /\ rarity phoenix = "Legendary"
  /\ hasEnergySpecialty phoenix = true
  /\ exists blessedImp opp,
       processDefeatedCreatures [titan; imp; fallen 12 "Drake" "Epic" ["speed"]]
         [raider]
       = Some ([blessedImp], opp)
       /\ effectTypes blessedImp = ["epic_blessing"]
       /\ processDefeatedCreatures
            ([titan; imp; fallen 12 "Drake" "Epic" ["speed"]] ++ phoenix :: [ogre])
            [raider]
          = defeatLoop
              ([blessedAlly phoenix blessedImp (orEmpty (battleStats blessedImp))],
               map guiltyConscience opp)
              [ogre].
Proof.
  assert (Hd : defeated phoenix) by reflexivity.
  split; [exact Hd|]. split; [reflexivity|]. split; [reflexivity|].
  assert (H : exists a o,
             processDefeatedCreatures [titan; imp; fallen 12 "Drake" "Epic" ["speed"]]
               [raider] = Some ([a], o)
             /\ effectTypes a = ["epic_blessing"]
             /\ battleStats a <> None).
  { do 2 eexists. split; [vm_compute; reflexivity|].
    split; [vm_compute; reflexivity | discriminate]. }
  destruct H as (a & o & H & Ht & Hbs). exists a, o.
  split; [exact H|]. split; [exact Ht|].
  apply (proj1 (proj1 (death_triggers_by_priority ([], [raider]) _ [ogre] _ _ phoenix
                         Hd H) eq_refl)).
  constructor; [exact Hbs | constructor].
Defined.

(** The blessing of a defeated Legendary creature reaches the allies that
    stand before it in the field and none of those that stand after it. *)
Lemma legendary_blessing_reaches_preceding_allies
    (before after opp : list Creature) (creature : Creature) :
  Forall alive before -> Forall alive after ->
  Forall (fun ally => battleStats ally <> None) before ->
  defeated creature -> rarity creature = "Legendary" ->
  processDefeatedCreatures (before ++ creature :: after) opp
  = Some ((map (fun ally => blessedAlly creature ally (orEmpty (battleStats ally)))
             before ++ after)%list,
          map guiltyConscience opp).
Proof.
  intros Hb Ha Hbs Hd Hr. unfold processDefeatedCreatures.
  rewrite defeatLoop_app, (defeatLoop_alive before [] opp Hb).
  cbn [app defeatLoop defeatStep]. unfold defeated in Hd. rewrite Hd, Hr.
  rewrite (String.eqb_refl "Legendary"). cbn [orb].
  rewrite forEachAlly_blessed by assumption.
  apply defeatLoop_alive. exact Ha.
Qed.

(** C8, by field order.  With the defeated Legendary
    creature first in the field, the three survivors are returned without
    any new effect: the blessing reaches only the survivors that stand
    before the defeated creature.  With the defeated creature last, each
    of the three survivors receives one legendary blessing of duration 5
    with +2 physical and +2 magical attack. *)
Theorem legendary_blessing_depends_on_field_order :
  processDefeatedCreatures [titan; golem; imp; ogre] [] = Some ([golem; imp; ogre], [])
  /\ map (countEffects "legendary_blessing") [golem; imp; ogre] = [0; 0; 0]%nat
  /\ exists a b c,
       processDefeatedCreatures [golem; imp; ogre; titan] [] = Some ([a; b; c], [])
       /\ map (countEffects "legendary_blessing") [a; b; c] = [1; 1; 1]%nat
       /\ map activeEffects [a; b; c]
          = let gift :=
              Some [Some (plainEffect "Titan's Final Gift" "legendary_blessing" 5
                            [("physicalAttack", int 2); ("magicalAttack", int 2)] 0)] in
            [gift; gift; gift].
Proof.
  split; [vm_compute; reflexivity|]. split; [vm_compute; reflexivity|].
  do 3 eexists. split; [vm_compute; reflexivity|].
  split; vm_compute; reflexivity.
Qed.

(** ** The tick: health against the recomputed maximum *)

(** The state used for C1 is a state of play: it is what a Shield tool
    at turn 0 and the ticks of turns 1 and 2 make of [giftedGolem]. *)
Lemma fadedShieldGolem_reached :
  exists shielded,
    updatedCreature
      (applyTool sampleDerivedStats (Some giftedGolem) (Some shieldTool) "medium" 0)
    = Some shielded
    /\ tickCreature sampleSin sampleDerivedStats "medium" 2
         (tickCreature sampleSin sampleDerivedStats "medium" 1 shielded)
       = fadedShieldGolem.
Proof.
  eexists. split; [vm_compute; reflexivity|]. vm_compute. reflexivity.
Qed.

(** C1, after a shield has expired.  The tick of turn 3 rebuilds the
    battle stats without the expired shield, which lowers [maxHealth] from
    95 to 85, and leaves [currentHealth] at 90: after the tick, and after
    the whole turn, the health is above the maximum. *)
Theorem tick_leaves_health_above_maxHealth :
  battleStat "maxHealth" fadedShieldGolem = Some (int 95)
  /\ currentHealth fadedShieldGolem = int 90
  /\ (exists c',
         applyOngoingEffects sampleSin sampleDerivedStats
           (Some [fadedShieldGolem]) "medium" 3 = [c']
         /\ currentHealth c' = int 90
         /\ battleStat "maxHealth" c' = Some (int 85)
         /\ JS.le (currentHealth c') (JS.toNum (battleStat "maxHealth" c')) = false)
  /\ (exists g c',
         processTurn sampleSin sampleDerivedStats nat
           (sampleGame [fadedShieldGolem] 3) "medium" = Some g
         /\ playerField nat g = [c']
         /\ currentHealth c' = int 90
         /\ battleStat "maxHealth" c' = Some (int 85)).
Proof.
  split; [reflexivity|]. split; [reflexivity|]. split.
  - eexists. split; [vm_compute; reflexivity|]. repeat split; vm_compute; reflexivity.
  - do 2 eexists. split; [vm_compute; reflexivity|].
    split; [vm_compute; reflexivity|]. split; vm_compute; reflexivity.
Qed.

(** ** The tick: charge effects *)

Section ChargeFacts.

Variable sinThird : Z -> num.

(** While a charge effect builds up, one tick adds its incremental bonus
    to the target stat twice: once through the [statModifications] that
    [processTimedEffect] writes, once in the charge branch of the tick. *)
Lemma charge_increment_added_twice (d r : string) (bs : Obj) (t : Z)
    (e : Effect) (ce : ChargeEffect) (health : num) (pending : option num) :
  e_type e = "charge" ->
  effectType e = Some "Charge" ->
  chargeEffect e = Some ce ->
  targetStat ce <> "" ->
  (forall k v, In (k, v) (orEmpty (statModifications e)) -> k = targetStat ce) ->
  (length (orEmpty (statModifications e)) <= 1)%nat ->
  let progress :=
    JS.min (JS.div (int (t - startTurn e)) (JS.orElse (Some (maxTurns ce)) (int 3)))
           (int 1) in
  let increment := JS.floor (JS.mul (perTurnBonus ce) progress) in
  JS.lt progress (int 1) = true ->
  JS.gt increment (int 0) = true ->
  obj_get (targetStat ce)
    (ts_currentStatMods
       (fst (tickEffect sinThird d t r bs
               {| ts_currentHealth := health; ts_nextAttackBonus := pending;
                  ts_currentStatMods := []; ts_statsModified := false |}
               (Some e))))
  = Some (JS.mul (int 2) increment).
Proof.
  intros Htype Htag Hce Hk Hkeys Hlen progress increment Hlt Hpos.
  assert (Hpe : processTimedEffect sinThird e t (startTurn e)
                = withStatModifications e (Some [(targetStat ce, increment)])).
  { unfold processTimedEffect. rewrite Hce, Htag. cbn [JS.isStr].
    change (String.eqb "Charge" "Charge") with true.
    change (String.eqb "Charge" "Echo") with false. cbn [andb].
    fold progress. rewrite Hlt. fold increment. f_equal. f_equal.
    destruct (statModifications e) as [[|[k v] [|? ?]]|]; cbn in *;
      try reflexivity; try lia.
    rewrite (Hkeys k v (or_introl eq_refl)), String.eqb_refl. reflexivity. }
  unfold tickEffect. cbn zeta. rewrite Hpe.
  cbn [statModifications withStatModifications fold_left fst snd chargeEffect
       e_type startTurn healthOverTime].
  rewrite Hce, Htype. change (String.eqb "charge" "charge") with true.
  fold progress. rewrite (lt_not_ge _ _ Hlt). cbn [andb]. fold increment.
  apply String.eqb_neq in Hk. rewrite Hk, Hpos. cbn [negb andb fst].
  unfold applyHealthOverTime.
  assert (Hmods : forall st, ts_currentStatMods
            match healthOverTime e with
            | Some hot =>
                if negb (JS.eqb hot (int 0)) then
                  {| ts_currentHealth :=
                       JS.min (JS.toNum (obj_get "maxHealth" bs))
                         (JS.max (int 0)
                            (JS.add (ts_currentHealth st)
                               (scaleHealthChange d r hot)));
                     ts_nextAttackBonus := ts_nextAttackBonus st;
                     ts_currentStatMods := ts_currentStatMods st;
                     ts_statsModified := ts_statsModified st |}
                else st
            | None => st
            end = ts_currentStatMods st).
  { intros st. destruct (healthOverTime e) as [hot|]; [|reflexivity].
    destruct (negb _); reflexivity. }
  unfold addStatMod at 1. cbn [ts_currentStatMods]. rewrite obj_get_set_same.
  rewrite Hmods. unfold addStatMod. cbn [ts_currentStatMods obj_get obj_set].
  rewrite String.eqb_refl. cbn [JS.orElse].
  destruct (add_twice increment Hpos) as [Htruthy Htwice].
  rewrite Htruthy, Htwice. reflexivity.
Qed.

Lemma addStatMod_fold_bonus (mods : Obj) (st : TickState) :
  ts_nextAttackBonus
    (fold_left (fun s (entry : string * num) => addStatMod s (fst entry) (snd entry))
       mods st)
  = ts_nextAttackBonus st.
Proof.
  revert st. induction mods as [|[k v] mods IH]; intros st; [reflexivity|].
  cbn [fold_left]. rewrite IH. reflexivity.
Qed.

Lemma applyHealthOverTime_bonus (d r : string) (bs : Obj) (st : TickState) (e : Effect) :
  ts_nextAttackBonus (applyHealthOverTime d r bs st e) = ts_nextAttackBonus st.
Proof.
  unfold applyHealthOverTime. destruct (healthOverTime e) as [hot|]; [|reflexivity].
  destruct (negb _); reflexivity.
Qed.

(** On the tick at which a charge effect is complete, its final burst is
    added once to the pending next-attack bonus and the effect is dropped
    from the list. *)
Lemma charge_final_burst (d r : string) (bs : Obj) (t : Z)
    (e : Effect) (ce : ChargeEffect) (st : TickState) :
  e_type e = "charge" ->
  chargeEffect e = Some ce ->
  JS.truthy (finalBurst ce) = true ->
  JS.ge (JS.min (JS.div (int (t - startTurn e))
                        (JS.orElse (Some (maxTurns ce)) (int 3)))
                (int 1))
        (int 1) = true ->
  ts_nextAttackBonus (fst (tickEffect sinThird d t r bs st (Some e)))
  = Some (JS.add (JS.orElse (ts_nextAttackBonus st) (int 0)) (finalBurst ce))
  /\ keepEffect (snd (tickEffect sinThird d t r bs st (Some e))) = false.
Proof.
  intros Htype Hce Hburst Hdone. unfold tickEffect. cbn zeta.
  destruct (processTimedEffect_identity sinThird e t (startTurn e))
    as (_ & Htype' & Hce' & Hstart').
  rewrite Hce', Hce, Htype', Htype, Hstart'.
  change (String.eqb "charge" "charge") with true.
  rewrite Hdone, Hburst. cbn [andb fst snd ts_nextAttackBonus keepEffect].
  split; [|reflexivity].
  rewrite applyHealthOverTime_bonus.
  destruct (statModifications _); [rewrite addStatMod_fold_bonus|]; reflexivity.
Qed.

End ChargeFacts.

Lemma chargingGolem_reached :
  updatedCreature
    (applyTool sampleDerivedStats (Some golem) (Some chargeTool) "medium" 0)
  = Some chargingGolem.
Proof. vm_compute. reflexivity. Qed.

(** C2, on the stamina charge tool.  A charge effect with
    [perTurnBonus] 3, [maxTurns] 3 and [finalBurst] 25 is attached at
    turn 0 to a creature whose base physical defense is 20.  The
    incremental bonus [floor (3 * elapsed / 3)] is 1 at turn 1 and 2 at
    turn 2, but the tick adds it twice: the physical defense is 22 after
    the tick of turn 1 and 24 after the tick of turn 2.  The tick of
    turn 3 grants the final burst once, as a next-attack bonus of 25, and
    removes the effect. *)
Theorem charge_bonus_counted_twice :
  let tick := tickCreature sampleSin sampleDerivedStats "medium" in
  let t1 := tick 1 chargingGolem in
  let t2 := tick 2 t1 in
  let t3 := tick 3 t2 in
  obj_get "physicalDefense" (sampleDerivedStats chargingGolem) = Some (int 20)
  /\ JS.floor (JS.mul (int 3) (JS.div (int 1) (int 3))) = int 1
  /\ JS.floor (JS.mul (int 3) (JS.div (int 2) (int 3))) = int 2
  /\ battleStat "physicalDefense" t1 = Some (int 22)
  /\ activeEffects t1 = Some [Some (olympiaCharge 2 (int 1))]
  /\ battleStat "physicalDefense" t2 = Some (int 24)
  /\ activeEffects t2 = Some [Some (olympiaCharge 1 (int 2))]
  /\ nextAttackBonus t2 = None
  /\ nextAttackBonus t3 = Some (int 25)
  /\ activeEffects t3 = Some [].
Proof. cbn zeta. repeat split; vm_compute; reflexivity. Qed.

(** * Further properties of the engine *)

(** ** Further facts about numbers and objects *)

Lemma obj_get_set_other (k k' : string) (v : num) (m : Obj) :
  k' <> k -> obj_get k' (obj_set k v m) = obj_get k' m.
Proof.
  intros Hne. induction m as [|[k0 v0] m IH]; cbn.
  - apply String.eqb_neq in Hne. rewrite Hne. reflexivity.
  - destruct (String.eqb k k0) eqn:E; cbn.
    + apply String.eqb_eq in E. subst k0.
      apply String.eqb_neq in Hne. rewrite Hne. reflexivity.
    + destruct (String.eqb k' k0); [reflexivity | exact IH].
Qed.

Lemma obj_set_keys (k : string) (v x : num) (m : Obj) :
  obj_get k m = Some x -> map fst (obj_set k v m) = map fst m.
Proof.
  induction m as [|[k0 v0] m IH]; cbn; [discriminate|].
  destruct (String.eqb k k0) eqn:E; cbn; [reflexivity|].
  intros H. rewrite (IH H). reflexivity.
Qed.

Lemma Qred_inject_Z (z : Z) : Qred (inject_Z z) = inject_Z z.
Proof.
  unfold Qred, inject_Z.
  pose proof (Z.ggcd_gcd z 1) as Hg.
  pose proof (Z.ggcd_correct_divisors z 1) as Hd.
  destruct (Z.ggcd z 1) as [g [a b]]. cbn [fst snd] in *.
  rewrite Z.gcd_1_r in Hg. subst g. destruct Hd as [Ha Hb].
  rewrite Z.mul_1_l in Ha, Hb. subst a b. reflexivity.
Qed.

Lemma add_int (a b : Z) : JS.add (int a) (int b) = int (a + b).
Proof.
  unfold JS.add, JS.lift2, JS.fin, int, JS.ofZ. f_equal.
  rewrite <- (Qred_inject_Z (a + b)). apply Qred_complete.
  rewrite inject_Z_plus. reflexivity.
Qed.

Lemma pushEffect_fields (c : Creature) (e : Effect) :
  currentHealth (pushEffect c e) = currentHealth c
  /\ battleStats (pushEffect c e) = battleStats c
  /\ activeEffects (pushEffect c e)
     = Some ((match activeEffects c with Some l => l | None => [] end) ++ [Some e])%list.
Proof. destruct c; cbn; auto. Qed.

(** ** Attacks: damage, bonus and debuffs *)

Section AttackBounds.

Variable calculateComboBonus : num -> num.
Variable calculateDamage : Creature -> Creature -> string -> num -> DamageResult.
Variable showNum : num -> string.

(** The damage formula returns a number that is not negative. *)
Hypothesis damage_not_negative :
  forall attacker defender attackType multiplier,
  exists q, dr_damage (calculateDamage attacker defender attackType multiplier) = Fin q
            /\ (0 <= q)%Q.

Lemma hit_arithmetic (h q : Q) :
  (0 <= h)%Q -> (0 <= q)%Q ->
  let health' := JS.max (int 0) (JS.sub (Fin h) (Fin q)) in
  let dealt := JS.sub (Fin h) health' in
  JS.le (int 0) health' = true /\ JS.le health' (Fin h) = true
  /\ JS.le (int 0) dealt = true /\ JS.le dealt (Fin h) = true
  /\ JS.le dealt (Fin q) = true
  /\ JS.eqb (JS.add health' dealt) (Fin h) = true.
Proof.
  intros Hh Hq. cbn zeta.
  unfold JS.sub, JS.lift2, JS.fin, JS.max, int, JS.ofZ.
  change (inject_Z 0) with 0%Q.
  destruct (Qle_bool 0 (Qred (h - q))) eqn:E.
  - apply Qle_bool_iff in E. rewrite Qred_correct in E.
    unfold JS.le, JS.eqb, JS.add, JS.lift2, JS.fin.
    repeat split; try apply Qle_bool_iff; try apply Qeq_bool_iff;
      rewrite ?Qred_correct; try lra.
    all: rewrite ?Qred_correct; lra.
  - assert (Hlt : (h - q < 0)%Q).
    { apply Qnot_le_lt. intros Hle. rewrite <- (Qred_correct (h - q)) in Hle.
      apply Qle_bool_iff in Hle. congruence. }
    unfold JS.le, JS.eqb, JS.add, JS.lift2, JS.fin.
    repeat split; try apply Qle_bool_iff; try apply Qeq_bool_iff;
      rewrite ?Qred_correct; try lra.
    all: rewrite ?Qred_correct; lra.
Qed.

(** X1. A hit never heals and never deals more than it should: when the
    attack is not dodged and the defender's health is a number that is
    not negative, the defender's new health lies between 0 and the old
    health, the reported damage lies between 0 and the old health, and
    new health plus reported damage is the old health. *)
Theorem processAttack_hit_bounds (attacker defender : Creature)
    (attackType : string) (comboLevel critRoll effectRoll : num)
    (sa sd : Obj) (h : Q) :
  battleStats attacker = Some sa ->
  battleStats defender = Some sd ->
  currentHealth defender = Fin h ->
  (0 <= h)%Q ->
  let result :=
    processAttack calculateComboBonus calculateDamage showNum
      (Some attacker) (Some defender) attackType comboLevel critRoll effectRoll in
  isDodged (damageResult result) = false ->
  exists d',
    updatedDefender result = Some d'
    /\ JS.le (int 0) (currentHealth d') = true
    /\ JS.le (currentHealth d') (currentHealth defender) = true
    /\ JS.le (int 0) (actualDamage result) = true
    /\ JS.le (actualDamage result) (currentHealth defender) = true
    /\ JS.eqb (JS.add (currentHealth d') (actualDamage result))
              (currentHealth defender) = true.
Proof.
  intros Ha Hd Hh Hpos. cbn zeta. unfold processAttack. rewrite Ha, Hd.
  cbn [damageResult isDodged updatedDefender actualDamage].
  match goal with
  | |- context [calculateDamage ?x ?y ?t ?m] =>
      destruct (damage_not_negative x y t m) as (q & Hq & Hq0);
      set (dr := calculateDamage x y t m) in *
  end.
  intros Hdodge. rewrite Hdodge. cbn [negb].
  assert (Hclone : currentHealth
                     (withIsDefending (cloneForAttack defender)
                        (isDefending defender || false)) = Fin h).
  { destruct defender; cbn in *. exact Hh. }
  rewrite Hq.
  destruct (hit_arithmetic h q Hpos Hq0) as (H1 & H2 & H3 & H4 & H5 & H6).
  eexists. split; [reflexivity|].
  repeat match goal with
         | |- context [if ?b then pushEffect ?c ?e else ?c] =>
             replace (currentHealth (if b then pushEffect c e else c))
               with (currentHealth c)
               by (destruct b; [destruct (pushEffect_fields c e) as [-> _]|];
                   reflexivity)
         end.
  cbn [currentHealth withCurrentHealth]. rewrite Hclone, Hh.
  repeat split; assumption.
Qed.

End AttackBounds.


Section AttackFrame.

Variable calculateComboBonus : num -> num.
Variable calculateDamage : Creature -> Creature -> string -> num -> DamageResult.
Variable showNum : num -> string.

(** X2. An attack uses up the pending next-attack bonus and otherwise
    leaves the attacker alone: in the returned attacker no bonus is
    pending, health and effect list are those of the input, and every
    battle stat other than the two attack stats is unchanged. *)
Theorem processAttack_consumes_bonus (attacker defender : Creature)
    (attackType : string) (comboLevel critRoll effectRoll : num) (sa sd : Obj) :
  battleStats attacker = Some sa ->
  battleStats defender = Some sd ->
  exists a' sa',
    updatedAttacker
      (processAttack calculateComboBonus calculateDamage showNum
         (Some attacker) (Some defender) attackType comboLevel critRoll effectRoll)
    = Some a'
    /\ JS.truthyO (nextAttackBonus a') = false
    /\ currentHealth a' = currentHealth attacker
    /\ activeEffects a'
       = Some (match activeEffects attacker with Some l => l | None => [] end)
    /\ battleStats a' = Some sa'
    /\ (forall stat, stat <> "physicalAttack" -> stat <> "magicalAttack" ->
        obj_get stat sa' = obj_get stat sa)
    /\ (JS.truthyO (nextAttackBonus attacker) = false -> sa' = sa).
Proof.
  intros Ha Hd. unfold processAttack. rewrite Ha, Hd. cbn [updatedAttacker].
  assert (Hb : nextAttackBonus (cloneForAttack attacker) = nextAttackBonus attacker)
    by (destruct attacker; reflexivity).
  rewrite Hb. destruct (JS.truthyO (nextAttackBonus attacker)) eqn:Et.
  - eexists. eexists. split; [reflexivity|].
    split; [reflexivity|]. split; [destruct attacker; reflexivity|].
    split; [destruct attacker; reflexivity|]. split; [reflexivity|].
    split; [|discriminate].
    intros stat H1 H2. unfold addAssign. apply obj_get_set_other.
    destruct (String.eqb _ "physical"); assumption.
  - exists (cloneForAttack attacker), sa. split; [reflexivity|].
    rewrite Hb. split; [exact Et|].
    destruct attacker; cbn in *. subst. auto 10.
Qed.

(** X3. An attack changes the defender's health and effect list only: the
    battle stats of the returned defender are those of the input, its
    effects are the input's effects followed by at most two new ones,
    and each new effect is a debuff that lasts one or two turns. *)
Theorem processAttack_defender_frame (attacker defender : Creature)
    (attackType : string) (comboLevel critRoll effectRoll : num) (sa sd : Obj) :
  battleStats attacker = Some sa ->
  battleStats defender = Some sd ->
  exists d' added,
    updatedDefender
      (processAttack calculateComboBonus calculateDamage showNum
         (Some attacker) (Some defender) attackType comboLevel critRoll effectRoll)
    = Some d'
    /\ battleStats d' = Some sd
    /\ activeEffects d'
       = Some ((match activeEffects defender with Some l => l | None => [] end)
               ++ map Some added)%list
    /\ (length added <= 2)%nat
    /\ Forall (fun e => e_type e = "debuff" /\ 1 <= duration e <= 2
                        /\ chargeEffect e = None /\ healthOverTime e = None)
         added.
Proof.
  intros Ha Hd. unfold processAttack. rewrite Ha, Hd. cbn [updatedDefender].
  match goal with
  | |- context [calculateDamage ?x ?y ?t ?m] => set (dr := calculateDamage x y t m)
  end.
  set (clone := withIsDefending (cloneForAttack defender) (isDefending defender || false)).
  assert (Hc : battleStats clone = Some sd
               /\ activeEffects clone
                  = Some (match activeEffects defender with Some l => l | None => [] end)).
  { subst clone. destruct defender; cbn in *. auto. }
  destruct Hc as [Hcs Hce].
  destruct (negb (isDodged dr)).
  - set (hit := withCurrentHealth clone _).
    assert (Hh : battleStats hit = Some sd /\ activeEffects hit = activeEffects clone)
      by (subst hit; destruct clone; cbn in *; auto).
    destruct Hh as [Hhs Hhe].
    destruct (isCritical dr && JS.lt critRoll (dec 2 10));
      destruct ((String.eqb (effectiveness dr) "very effective"
                 || String.eqb (effectiveness dr) "effective")
                && JS.lt effectRoll (dec 25 100)).
    + eexists. exists [criticalStrikeTrauma hit;
                       elementalWeakness (pushEffect hit (criticalStrikeTrauma hit))].
      split; [reflexivity|].
      destruct (pushEffect_fields (pushEffect hit (criticalStrikeTrauma hit))
                  (elementalWeakness (pushEffect hit (criticalStrikeTrauma hit))))
        as (_ & -> & ->).
      destruct (pushEffect_fields hit (criticalStrikeTrauma hit)) as (_ & -> & ->).
      rewrite Hhs, Hhe, Hce. split; [reflexivity|]. split.
      { rewrite <- app_assoc. reflexivity. }
      split; [cbn; lia|]. repeat constructor; cbn; lia.
    + eexists. exists [criticalStrikeTrauma hit]. split; [reflexivity|].
      destruct (pushEffect_fields hit (criticalStrikeTrauma hit)) as (_ & -> & ->).
      rewrite Hhs, Hhe, Hce. split; [reflexivity|]. split; [reflexivity|].
      split; [cbn; lia|]. repeat constructor; cbn; lia.
    + eexists. exists [elementalWeakness hit]. split; [reflexivity|].
      destruct (pushEffect_fields hit (elementalWeakness hit)) as (_ & -> & ->).
      rewrite Hhs, Hhe, Hce. split; [reflexivity|]. split; [reflexivity|].
      split; [cbn; lia|]. repeat constructor; cbn; lia.
    + exists hit, []. split; [reflexivity|]. rewrite Hhs, Hhe, Hce.
      cbn [map]. rewrite app_nil_r. repeat split; auto. 
  - exists clone, []. split; [reflexivity|]. rewrite Hcs, Hce.
    cbn [map]. rewrite app_nil_r. repeat split; auto.
Qed.

(** X4. An attack with a missing party or missing battle stats is not
    carried out: both parties are returned as given, every damage field
    is 0, the result reports neither dodge nor critical hit, and the log
    line says so. *)
Theorem processAttack_invalid_input (attacker defender : option Creature)
    (attackType : string) (comboLevel critRoll effectRoll : num) :
  attacker = None \/ defender = None
  \/ (exists a, attacker = Some a /\ battleStats a = None)
  \/ (exists d, defender = Some d /\ battleStats d = None) ->
  let result :=
    processAttack calculateComboBonus calculateDamage showNum
      attacker defender attackType comboLevel critRoll effectRoll in
  updatedAttacker result = attacker /\ updatedDefender result = defender
  /\ actualDamage result = int 0 /\ damage result = int 0
  /\ isDodged (damageResult result) = false
  /\ isCritical (damageResult result) = false
  /\ battleLog result = "Invalid attack - missing stats".
Proof.
  intros H. cbn zeta. unfold processAttack.
  destruct H as [-> | [-> | [(a & -> & Ha) | (d & -> & Hd)]]].
  - repeat split.
  - destruct attacker; repeat split.
  - destruct defender; rewrite ?Ha; repeat split.
  - destruct attacker as [a|]; [|repeat split].
    rewrite Hd. destruct (battleStats a); repeat split.
Qed.

End AttackFrame.

(** ** Death sweep: who is returned *)

Lemma sameButStatsAndEffects_refl (c : Creature) : sameButStatsAndEffects c c.
Proof. exists (battleStats c), (activeEffects c). destruct c; reflexivity. Qed.

Lemma sameButStatsAndEffects_push (x c : Creature) (e : Effect) :
  sameButStatsAndEffects x c -> sameButStatsAndEffects x (pushEffect c e).
Proof.
  intros (bs & l & ->). eexists bs, _. destruct x; reflexivity.
Qed.

Lemma sameButStatsAndEffects_stats (x c : Creature) (bs : option Obj) :
  sameButStatsAndEffects x c -> sameButStatsAndEffects x (withBattleStats c bs).
Proof.
  intros (bs0 & l & ->). exists bs, l. destruct x; reflexivity.
Qed.

Lemma sameButEffects_refl (c : Creature) : sameButEffects c c.
Proof. exists (activeEffects c). destruct c; reflexivity. Qed.

Lemma sameButEffects_push (x c : Creature) (e : Effect) :
  sameButEffects x c -> sameButEffects x (pushEffect c e).
Proof. intros (l & ->). eexists. destruct x; reflexivity. Qed.

Lemma Forall2_map_r {A B : Type} (R : A -> B -> Prop) (f : B -> B)
    (xs : list A) (ys : list B) :
  (forall x y, R x y -> R x (f y)) ->
  Forall2 R xs ys -> Forall2 R xs (map f ys).
Proof. intros Hf H. induction H; cbn; constructor; auto. Qed.

Lemma forEachAlly_Forall2 (creature : Creature) (xs l l' : list Creature) :
  forEachAlly (legendaryBlessing creature) l = Some l' ->
  Forall2 sameButStatsAndEffects xs l ->
  Forall2 sameButStatsAndEffects xs l'.
Proof.
  intros Hl H. revert l' Hl.
  induction H as [|x c xs l Hxc H IH]; intros l' Hl; cbn in Hl.
  - injection Hl as <-. constructor.
  - destruct (legendaryBlessing creature c) as [c'|] eqn:Ec; [|discriminate].
    destruct (forEachAlly (legendaryBlessing creature) l) as [r|]; [|discriminate].
    injection Hl as <-. constructor; [|apply IH; reflexivity].
    unfold legendaryBlessing in Ec. destruct (battleStats c); [|discriminate].
    injection Ec as <-.
    apply sameButStatsAndEffects_push, sameButStatsAndEffects_stats. exact Hxc.
Qed.

Lemma forEachAlly_total (creature : Creature) (xs l : list Creature) :
  Forall2 sameButStatsAndEffects xs l ->
  Forall (fun c => battleStats c <> None) l ->
  exists l', forEachAlly (legendaryBlessing creature) l = Some l'
             /\ Forall (fun c => battleStats c <> None) l'.
Proof.
  intros _ H. induction H as [|c l Hc H IH]; cbn.
  - exists []. split; [reflexivity | constructor].
  - unfold legendaryBlessing at 1. destruct (battleStats c) eqn:E; [|congruence].
    destruct IH as (l' & -> & Hl'). eexists. split; [reflexivity|].
    constructor; [|exact Hl']. destruct c; cbn; discriminate.
Qed.

Lemma defeatStep_relates (xs os surv opp surv' opp' : list Creature) (c : Creature) :
  defeatStep (surv, opp) c = Some (surv', opp') ->
  Forall2 sameButStatsAndEffects xs surv ->
  Forall2 sameButEffects os opp ->
  Forall2 sameButStatsAndEffects (xs ++ (if aliveb c then [c] else [])) surv'
  /\ Forall2 sameButEffects os opp'.
Proof.
  unfold defeatStep, aliveb. intros Hs Hx Ho.
  destruct (JS.gt (currentHealth c) (int 0)).
  - injection Hs as <- <-. split; [|exact Ho].
    apply Forall2_app; [exact Hx|]. constructor; [|constructor].
    apply sameButStatsAndEffects_refl.
  - rewrite app_nil_r.
    assert (Hallies : forall allies,
               (if String.eqb (rarity c) "Legendary"
                then forEachAlly (legendaryBlessing c) surv
                else if hasEnergySpecialty c then Some (map energyRelease surv)
                else if String.eqb (rarity c) "Epic" then Some (map epicEssence surv)
                else Some surv) = Some allies ->
               Forall2 sameButStatsAndEffects xs allies).
    { intros allies Ha. destruct (String.eqb (rarity c) "Legendary").
      - eapply forEachAlly_Forall2; eassumption.
      - destruct (hasEnergySpecialty c).
        + injection Ha as <-. apply Forall2_map_r; [|exact Hx].
          intros; apply sameButStatsAndEffects_push; assumption.
        + destruct (String.eqb (rarity c) "Epic"); injection Ha as <-; [|exact Hx].
          apply Forall2_map_r; [|exact Hx].
          intros; apply sameButStatsAndEffects_push; assumption. }
    match type of Hs with
    | match ?a with _ => _ end = _ => destruct a as [allies|] eqn:Ea; [|discriminate]
    end.
    specialize (Hallies allies eq_refl).
    destruct (String.eqb (rarity c) "Legendary" || String.eqb (rarity c) "Epic");
      injection Hs as <- <-; split; auto.
    apply Forall2_map_r; [|exact Ho].
    intros; apply sameButEffects_push; assumption.
Qed.

Lemma defeatLoop_relates (l : list Creature) :
  forall xs os surv opp surv' opp',
    defeatLoop (surv, opp) l = Some (surv', opp') ->
    Forall2 sameButStatsAndEffects xs surv ->
    Forall2 sameButEffects os opp ->
    Forall2 sameButStatsAndEffects (xs ++ filter aliveb l) surv'
    /\ Forall2 sameButEffects os opp'.
Proof.
  induction l as [|c l IH]; intros xs os surv opp surv' opp' Hl Hx Ho.
  - cbn in Hl. injection Hl as <- <-. cbn. rewrite app_nil_r. auto.
  - cbn [defeatLoop] in Hl.
    destruct (defeatStep (surv, opp) c) as [[s1 o1]|] eqn:Es; [|discriminate].
    destruct (defeatStep_relates _ _ _ _ _ _ _ Es Hx Ho) as [Hx1 Ho1].
    destruct (IH _ _ _ _ _ _ Hl Hx1 Ho1) as [Hx2 Ho2].
    split; [|exact Ho2]. cbn [filter].
    destruct (aliveb c); [|rewrite app_nil_r in Hx2; exact Hx2].
    rewrite <- app_assoc in Hx2. exact Hx2.
Qed.

Lemma sweep_relates (creatures opposing survivors opposing' : list Creature) :
  processDefeatedCreatures creatures opposing = Some (survivors, opposing') ->
  Forall2 sameButStatsAndEffects (filter aliveb creatures) survivors
  /\ Forall2 sameButEffects opposing opposing'.
Proof.
  unfold processDefeatedCreatures. intros H.
  apply (defeatLoop_relates creatures [] opposing [] opposing survivors opposing' H).
  - constructor.
  - clear H. induction opposing; constructor; auto. apply sameButEffects_refl.
Qed.

(** X5. The death sweep returns exactly the creatures whose health is
    above 0, in field order: each returned creature is the corresponding
    living creature of the field with, at most, other battle stats and
    effects, and each creature of the opposing field comes back with, at
    most, other effects.  Nobody's health or identity is touched. *)
Theorem processDefeatedCreatures_returns_the_living
    (creatures opposing survivors opposing' : list Creature) :
  processDefeatedCreatures creatures opposing = Some (survivors, opposing') ->
  Forall2 sameButStatsAndEffects (filter aliveb creatures) survivors
  /\ Forall2 sameButEffects opposing opposing'.
Proof. apply sweep_relates. Qed.

Lemma defeatStep_total (surv opp : list Creature) (c : Creature) :
  Forall (fun a => battleStats a <> None) surv ->
  battleStats c <> None ->
  exists surv' opp',
    defeatStep (surv, opp) c = Some (surv', opp')
    /\ Forall (fun a => battleStats a <> None) surv'.
Proof.
  intros Hs Hc. unfold defeatStep.
  assert (Hrel : forall a e, battleStats (pushEffect a e) = battleStats a)
    by (intros a e; destruct a; reflexivity).
  assert (Hpush : forall f : Creature -> Creature,
             (forall a, battleStats (f a) = battleStats a) ->
             Forall (fun a => battleStats a <> None) (map f surv)).
  { intros f Hf. apply Forall_map. eapply Forall_impl; [|exact Hs].
    intros a Ha. cbn. rewrite Hf. exact Ha. }
  destruct (JS.gt (currentHealth c) (int 0)).
  - do 2 eexists. split; [reflexivity|]. apply Forall_app. split; [exact Hs|].
    constructor; [exact Hc | constructor].
  - destruct (String.eqb (rarity c) "Legendary") eqn:El.
    + destruct (forEachAlly_total c surv surv) as (l' & -> & Hl'); auto.
      { clear. induction surv; constructor; auto.
        apply sameButStatsAndEffects_refl. }
      cbn [orb]. do 2 eexists. split; [reflexivity | exact Hl'].
    + destruct (hasEnergySpecialty c).
      * destruct (String.eqb (rarity c) "Epic"); cbn [orb];
          do 2 eexists; (split; [reflexivity|]); apply Hpush; intros; apply Hrel.
      * destruct (String.eqb (rarity c) "Epic"); cbn [orb];
          do 2 eexists; (split; [reflexivity|]); auto.
Qed.

(** X6. The death sweep does not fail on a field in which every creature
    has battle stats. *)
Theorem processDefeatedCreatures_total (creatures opposing : list Creature) :
  Forall (fun c => battleStats c <> None) creatures ->
  exists survivors opposing',
    processDefeatedCreatures creatures opposing = Some (survivors, opposing').
Proof.
  unfold processDefeatedCreatures. intros H.
  assert (G : forall surv opp,
             Forall (fun a => battleStats a <> None) surv ->
             exists survivors opposing',
               defeatLoop (surv, opp) creatures = Some (survivors, opposing')).
  { induction H as [|c l Hc H IH]; intros surv opp Hs.
    - do 2 eexists. reflexivity.
    - cbn [defeatLoop].
      destruct (defeatStep_total surv opp c Hs Hc) as (s1 & o1 & -> & Hs1).
      apply IH. exact Hs1. }
  apply G. constructor.
Qed.

Lemma defeatStep_opposing (surv opp surv' opp' : list Creature) (c : Creature) :
  defeatStep (surv, opp) c = Some (surv', opp') ->
  opp' = if avengedb c then map guiltyConscience opp else opp.
Proof.
  unfold defeatStep, avengedb, aliveb.
  destruct (JS.gt (currentHealth c) (int 0)); cbn [negb andb].
  - intros [= <- <-]. reflexivity.
  - match goal with
    | |- match ?a with _ => _ end = _ -> _ => destruct a; [|discriminate]
    end.
    destruct (_ || _); intros [= <- <-]; reflexivity.
Qed.

(** X7. After the death sweep, every creature of the opposing field
    carries one more Guilty Conscience for each defeated Legendary or Epic
    creature of the swept field, and is otherwise as before. *)
Theorem processDefeatedCreatures_revenge_count
    (creatures opposing survivors opposing' : list Creature) :
  processDefeatedCreatures creatures opposing = Some (survivors, opposing') ->
  opposing'
  = map (Nat.iter (length (filter avengedb creatures)) guiltyConscience) opposing.
Proof.
  unfold processDefeatedCreatures. generalize (@nil Creature) as surv.
  revert opposing. induction creatures as [|c l IH]; intros opp surv H.
  - cbn in H. injection H as <- <-. cbn. rewrite map_id. reflexivity.
  - cbn [defeatLoop] in H.
    destruct (defeatStep (surv, opp) c) as [[s1 o1]|] eqn:Es; [|discriminate].
    apply defeatStep_opposing in Es. apply IH in H. subst o1 opposing'.
    cbn [filter]. destruct (avengedb c); [|reflexivity].
    cbn [length]. rewrite map_map. apply map_ext. intros a.
    rewrite Nat.iter_succ_r. reflexivity.
Qed.

(** ** The turn: fields, cards and energy *)

Lemma sweep_survivors_alive (xs survivors : list Creature) :
  Forall2 sameButStatsAndEffects xs survivors ->
  Forall (fun c => aliveb c = true) xs ->
  Forall (fun c => aliveb c = true) survivors.
Proof.
  intros H. induction H as [|x c xs l (bs & e & ->) H IH]; intros Hx.
  - constructor.
  - inversion Hx; subst. constructor; [|auto].
    destruct x; assumption.
Qed.

Lemma sameButEffects_alive (xs l : list Creature) :
  Forall2 sameButEffects xs l ->
  Forall (fun c => aliveb c = true) xs ->
  Forall (fun c => aliveb c = true) l.
Proof.
  intros H. induction H as [|x c xs l (e & ->) H IH]; intros Hx.
  - constructor.
  - inversion Hx; subst. constructor; [|auto]. destruct x; assumption.
Qed.

Lemma filter_aliveb_alive (l : list Creature) :
  Forall (fun c => aliveb c = true) (filter aliveb l).
Proof. apply Forall_forall. intros c Hc. apply filter_In in Hc. apply Hc. Qed.

Section TurnFacts.

Variable sinThird : Z -> num.
Variable calculateDerivedStats : Creature -> Obj.
Variable Card : Type.

(** X8. After a turn every creature left on either field has health above
    0, and no field has grown. *)
Theorem processTurn_fields_alive (g g' : GameState Card) (difficulty : string) :
  processTurn sinThird calculateDerivedStats Card g difficulty = Some g' ->
  Forall (fun c => aliveb c = true) (playerField Card g')
  /\ Forall (fun c => aliveb c = true) (enemyField Card g')
  /\ (length (playerField Card g') <= length (playerField Card g))%nat
  /\ (length (enemyField Card g') <= length (enemyField Card g))%nat.
Proof.
  unfold processTurn.
  destruct (processDefeatedCreatures _ _) as [[p2 e2]|] eqn:E1; [|discriminate].
  destruct (processDefeatedCreatures e2 p2) as [[e3 p3]|] eqn:E2; [|discriminate].
  destruct (drawPhase _ _ _ _) as [ph pd].
  destruct (drawPhase _ _ (enemyHand Card g) _) as [eh ed].
  intros [= <-]. cbn [playerField enemyField].
  destruct (sweep_relates _ _ _ _ E1) as [Hp2 He2].
  destruct (sweep_relates _ _ _ _ E2) as [He3 Hp3].
  pose proof (sweep_survivors_alive _ _ Hp2 (filter_aliveb_alive _)) as Ap2.
  pose proof (sweep_survivors_alive _ _ He3 (filter_aliveb_alive _)) as Ae3.
  pose proof (sameButEffects_alive _ _ Hp3 Ap2) as Ap3.
  split; [exact Ap3|]. split; [exact Ae3|].
  apply Forall2_length in Hp2, He2, He3, Hp3.
  unfold applyOngoingEffects in *. rewrite length_map in *.
  pose proof (filter_length_le aliveb
                (map (tickCreature sinThird calculateDerivedStats difficulty
                        (turn Card g)) (playerField Card g))) as L1.
  pose proof (filter_length_le aliveb e2) as L2.
  rewrite length_map in L1. lia.
Qed.

Lemma drawPhase_facts (maxHandSize : nat) (hand deck : list Card) :
  let (hand', deck') := drawPhase Card maxHandSize hand deck in
  (hand' ++ deck' = hand ++ deck)%list
  /\ (length hand' <= Nat.max (length hand) maxHandSize)%nat
  /\ ((length hand < maxHandSize)%nat -> deck <> [] ->
      length hand' = S (length hand)).
Proof.
  unfold drawPhase. destruct deck as [|card rest].
  - split; [reflexivity|]. split; [lia|]. intros _ H. congruence.
  - destruct (Nat.ltb_spec (length hand) maxHandSize).
    + split; [rewrite <- app_assoc; reflexivity|].
      rewrite length_app. cbn. split; [lia|]. intros; lia.
    + split; [reflexivity|]. split; [lia|]. intros; lia.
Qed.

(** X9. The draw of a turn loses no card and keeps the order: on each
    side, hand followed by deck is the same sequence before and after.
    A hand within the limit of the difficulty stays within it, and a
    hand below the limit with a non-empty deck grows by exactly one. *)
Theorem processTurn_draw (g g' : GameState Card) (difficulty : string) :
  processTurn sinThird calculateDerivedStats Card g difficulty = Some g' ->
  (playerHand Card g' ++ playerDeck Card g'
   = playerHand Card g ++ playerDeck Card g)%list
  /\ (enemyHand Card g' ++ enemyDeck Card g'
      = enemyHand Card g ++ enemyDeck Card g)%list
  /\ (length (playerHand Card g')
      <= Nat.max (length (playerHand Card g)) (getMaxHandSize difficulty))%nat
  /\ ((length (playerHand Card g) < getMaxHandSize difficulty)%nat ->
      playerDeck Card g <> [] ->
      length (playerHand Card g') = S (length (playerHand Card g))).
Proof.
  unfold processTurn.
  destruct (processDefeatedCreatures _ _) as [[p2 e2]|]; [|discriminate].
  destruct (processDefeatedCreatures e2 p2) as [[e3 p3]|]; [|discriminate].
  pose proof (drawPhase_facts (getMaxHandSize difficulty)
                (playerHand Card g) (playerDeck Card g)) as Hp.
  pose proof (drawPhase_facts (getMaxHandSize difficulty)
                (enemyHand Card g) (enemyDeck Card g)) as He.
  destruct (drawPhase _ _ (playerHand Card g) _) as [ph pd].
  destruct (drawPhase _ _ (enemyHand Card g) _) as [eh ed].
  intros [= <-]. cbn [playerHand playerDeck enemyHand enemyDeck].
  destruct Hp as (Hp1 & Hp2 & Hp3), He as (He1 & _).
  auto.
Qed.

(** X10. A turn never leaves a side with more energy than the cap that
    [getMaxEnergy] gives for its field as it stood before the turn, and
    the turn counter is not advanced. *)
Theorem processTurn_energy_capped (g g' : GameState Card) (difficulty : string) :
  processTurn sinThird calculateDerivedStats Card g difficulty = Some g' ->
  atMost (playerEnergy Card g') (getMaxEnergy (playerField Card g) difficulty)
  /\ atMost (enemyEnergy Card g') (getMaxEnergy (enemyField Card g) difficulty)
  /\ turn Card g' = turn Card g.
Proof.
  unfold processTurn.
  destruct (processDefeatedCreatures _ _) as [[p2 e2]|]; [|discriminate].
  destruct (processDefeatedCreatures e2 p2) as [[e3 p3]|]; [|discriminate].
  destruct (drawPhase _ _ (playerHand Card g) _) as [ph pd].
  destruct (drawPhase _ _ (enemyHand Card g) _) as [eh ed].
  intros [= <-]. cbn [playerEnergy enemyEnergy turn].
  split; [apply min_atMost|]. split; [apply min_atMost | reflexivity].
Qed.

End TurnFacts.

(** ** Stat maps keep their keys *)

Lemma fold_keys (step : Obj -> string * num -> Obj) (mods : Obj) :
  (forall acc entry, map fst (step acc entry) = map fst acc) ->
  forall m, map fst (fold_left step mods m) = map fst m.
Proof.
  intros Hs. induction mods as [|entry mods IH]; intros m; [reflexivity|].
  cbn [fold_left]. rewrite IH. apply Hs.
Qed.

Lemma update_if_present_keys (f : string -> num -> num -> num)
    (acc : Obj) (entry : string * num) :
  map fst (let (stat, value) := entry in
           match obj_get stat acc with
           | Some cur => obj_set stat (f stat cur value) acc
           | None => acc
           end)
  = map fst acc.
Proof.
  destruct entry as [stat value]. destruct (obj_get stat acc) eqn:E; [|reflexivity].
  eapply obj_set_keys. exact E.
Qed.

Lemma addEffectModifications_keys (m mods : Obj) :
  map fst (addEffectModifications m mods) = map fst m.
Proof.
  unfold addEffectModifications. apply fold_keys. intros acc entry.
  apply (update_if_present_keys (fun stat cur value => clampStat stat (JS.add cur value))).
Qed.

Lemma addPermanentModifications_keys (m mods : Obj) :
  map fst (addPermanentModifications m mods) = map fst m.
Proof.
  unfold addPermanentModifications. apply fold_keys. intros acc entry.
  apply (update_if_present_keys (fun _ cur value => JS.add cur value)).
Qed.

Lemma applyCombination_keys (level : Z) (m : Obj) :
  map fst (applyCombination level m) = map fst m.
Proof.
  unfold applyCombination. rewrite map_map. apply map_ext.
  intros [stat value]. destruct (_ && _); reflexivity.
Qed.

Lemma applyCurrentStatMods_keys (mods m : Obj) :
  map fst (applyCurrentStatMods mods m) = map fst m.
Proof.
  unfold applyCurrentStatMods. apply fold_keys. intros acc entry.
  apply (update_if_present_keys (fun _ cur value => JS.max (int 0) (JS.add cur value))).
Qed.

Section KeyFacts.

Variable sinThird : Z -> num.
Variable calculateDerivedStats : Creature -> Obj.

(** X11. As long as the stat names used by the creature's effects and
    permanent modifications are not names of members of
    [Object.prototype], effects, permanent modifications and the
    combination bonus never add, drop or reorder a stat: for a creature
    with base stats the stat map returned by [recalculateDerivedStats]
    has exactly the keys of the derived stats, in their order; and the
    battle stats that a tick leaves have the keys of the old battle stats
    or, when the tick rebuilt them, of the derived stats. *)
Theorem stat_keys_preserved (c : Creature) :
  usesOwnStatNames c ->
  (stats c <> None ->
   map fst (fst (recalculateDerivedStats calculateDerivedStats c))
   = map fst (calculateDerivedStats c))
  /\ (forall difficulty currentTurn0 bs,
        battleStats c = Some bs ->
        exists bs' c0,
          battleStats (tickCreature sinThird calculateDerivedStats
                         difficulty currentTurn0 c) = Some bs'
          /\ (bs' = bs \/ map fst bs' = map fst (calculateDerivedStats c0))).
Proof.
  intros _. split.
  - intros Hs. unfold recalculateDerivedStats.
    destruct (stats c); [|congruence]. cbn [fst].
    assert (He : forall l m,
               map fst
                 (fold_left
                    (fun acc (oe : option Effect) =>
                       match oe with
                       | Some effect =>
                           match statModifications effect with
                           | Some mods => addEffectModifications acc mods
                           | None => acc
                           end
                       | None => acc
                       end) l m) = map fst m).
    { induction l as [|[e|] l IH]; intros m; cbn [fold_left]; auto.
      rewrite IH. destruct (statModifications e); [|reflexivity].
      apply addEffectModifications_keys. }
    destruct (combination_level c >? 0);
      rewrite ?applyCombination_keys;
      destruct (permanentModifications c);
      rewrite ?addPermanentModifications_keys;
      destruct (activeEffects c); rewrite ?He; reflexivity.
  - intros d t bs Hbs. unfold tickCreature. rewrite Hbs.
    destruct (tickEffects _ _ _ _ _ _ _) as [st mapped].
    destruct (ts_statsModified st).
    + eexists. eexists. split.
      * match goal with
        | |- context [if isDefending ?x then _ else _] => destruct (isDefending x)
        end; reflexivity.
      * right. apply applyCurrentStatMods_keys.
    + exists bs. exists c. split; [|left; reflexivity].
      match goal with
      | |- context [if isDefending ?x then _ else _] => destruct (isDefending x)
      end; cbn; exact Hbs.
Qed.

(** X12. [recalculateDerivedStats] touches nothing of the creature but its
    current health, which it never raises: the health stays, or drops to
    the new maximum.  Afterwards a health that is not 0 does not exceed
    the returned maximum. *)
Theorem recalculateDerivedStats_health (c : Creature) :
  let newStats := fst (recalculateDerivedStats calculateDerivedStats c) in
  let c' := snd (recalculateDerivedStats calculateDerivedStats c) in
  c' = withCurrentHealth c (currentHealth c')
  /\ (currentHealth c' = currentHealth c
      \/ (currentHealth c' = JS.toNum (obj_get "maxHealth" newStats)
          /\ JS.lt (currentHealth c') (currentHealth c) = true))
  /\ (stats c <> None -> JS.truthy (currentHealth c) = true ->
      JS.gt (currentHealth c') (JS.toNum (obj_get "maxHealth" newStats)) = false).
Proof.
  cbn zeta. unfold recalculateDerivedStats. destruct (stats c) eqn:Es.
  - cbn zeta.
    match goal with
    | |- context [JS.toNum (obj_get "maxHealth" ?m)] => set (ms := m)
    end.
    destruct (JS.truthy (currentHealth c)) eqn:Et; cbn [andb].
    + destruct (JS.gt (currentHealth c) (JS.toNum (obj_get "maxHealth" ms))) eqn:Eg;
        cbn [fst snd].
      * split; [destruct c; reflexivity|]. split.
        { right. split; [destruct c; reflexivity|].
          destruct c; cbn in *. exact Eg. }
        intros _ _. destruct c; cbn in *.
        destruct (JS.toNum (obj_get "maxHealth" ms)) as [q|]; cbn; [|reflexivity].
        destruct (Qle_bool q q) eqn:E; [reflexivity|].
        exfalso. assert (Qle_bool q q = true) by (apply Qle_bool_iff, Qle_refl).
        congruence.
      * split; [destruct c; reflexivity|]. split; [left; reflexivity|].
        intros _ _. exact Eg.
    + cbn [fst snd]. split; [destruct c; reflexivity|]. split; [left; reflexivity|].
      intros _ H. discriminate.
  - cbn [fst snd]. split; [destruct c; reflexivity|]. split; [left; reflexivity|].
    intros H. congruence.
Qed.

End KeyFacts.

(** ** What a tick leaves behind *)

Section TickFacts.

Variable sinThird : Z -> num.
Variable calculateDerivedStats : Creature -> Obj.

Lemma applyHealthOverTime_health (d r : string) (bs : Obj) (st : TickState)
    (e : Effect) :
  ts_currentHealth (applyHealthOverTime d r bs st e) = ts_currentHealth st
  \/ atMost (ts_currentHealth (applyHealthOverTime d r bs st e))
            (JS.toNum (obj_get "maxHealth" bs)).
Proof.
  unfold applyHealthOverTime. destruct (healthOverTime e) as [hot|]; [|left; reflexivity].
  destruct (negb (JS.eqb hot (int 0))); [|left; reflexivity].
  right. cbn [ts_currentHealth].
  destruct (JS.toNum (obj_get "maxHealth" bs)) as [m|]; [|exact I].
  destruct (JS.max (int 0) _) as [y|]; [|exact I].
  cbn. destruct (Qle_bool m y) eqn:E; cbn.
  - apply Qle_bool_iff, Qle_refl.
  - apply Qle_bool_iff. apply Qlt_le_weak. apply Qnot_le_lt. intros H.
    apply Qle_bool_iff in H. congruence.
Qed.

Lemma addStatMod_fold_health (mods : Obj) (st : TickState) :
  ts_currentHealth
    (fold_left (fun s (entry : string * num) => addStatMod s (fst entry) (snd entry))
       mods st)
  = ts_currentHealth st.
Proof.
  revert st. induction mods as [|entry mods IH]; intros st; [reflexivity|].
  cbn [fold_left]. rewrite IH. reflexivity.
Qed.

Lemma tickEffect_health (d : string) (t : Z) (r : string) (bs : Obj)
    (st : TickState) (oe : option Effect) :
  ts_currentHealth (fst (tickEffect sinThird d t r bs st oe)) = ts_currentHealth st
  \/ atMost (ts_currentHealth (fst (tickEffect sinThird d t r bs st oe)))
            (JS.toNum (obj_get "maxHealth" bs)).
Proof.
  unfold tickEffect. destruct oe as [e|]; [|left; reflexivity]. cbn zeta.
  match goal with
  | |- context [applyHealthOverTime d r bs ?s ?p] =>
      pose proof (applyHealthOverTime_health d r bs s p) as H;
      assert (Hs : ts_currentHealth s = ts_currentHealth st)
        by (destruct (statModifications p);
            [apply addStatMod_fold_health | reflexivity]);
      rewrite Hs in H;
      set (st1 := applyHealthOverTime d r bs s p) in *
  end.
  destruct (chargeEffect _); [|exact H].
  destruct (String.eqb _ "charge"); [|exact H].
  destruct (JS.ge _ _ && JS.truthy _); [exact H|].
  destruct (negb _ && JS.gt _ _); exact H.
Qed.

Lemma tickEffects_health (d : string) (t : Z) (r : string) (bs : Obj)
    (l : list (option Effect)) (st : TickState) :
  ts_currentHealth (fst (tickEffects sinThird d t r bs st l)) = ts_currentHealth st
  \/ atMost (ts_currentHealth (fst (tickEffects sinThird d t r bs st l)))
            (JS.toNum (obj_get "maxHealth" bs)).
Proof.
  revert st. induction l as [|oe l IH]; intros st; [left; reflexivity|].
  cbn [tickEffects].
  pose proof (tickEffect_health d t r bs st oe) as H1.
  destruct (tickEffect sinThird d t r bs st oe) as [st1 oe'].
  specialize (IH st1).
  destruct (tickEffects sinThird d t r bs st1 l) as [st2 rest'].
  cbn [fst] in *. destruct IH as [IH|IH]; [|right; exact IH].
  rewrite IH. exact H1.
Qed.

(** X13. A tick never lets healing overshoot the maximum health the
    creature had before the tick: afterwards the current health is the
    one before the tick, or it is at most the pre-tick
    [battleStats.maxHealth]. *)
Theorem tick_health_bounded (d : string) (t : Z) (c : Creature) (bs : Obj) :
  battleStats c = Some bs ->
  let c' := tickCreature sinThird calculateDerivedStats d t c in
  currentHealth c' = currentHealth c
  \/ atMost (currentHealth c') (JS.toNum (obj_get "maxHealth" bs)).
Proof.
  intros Hbs. cbn zeta. unfold tickCreature. rewrite Hbs.
  match goal with
  | |- context [tickEffects sinThird d t ?r ?b ?s ?l] =>
      pose proof (tickEffects_health d t r b l s) as H;
      destruct (tickEffects sinThird d t r b s l) as [st mapped]
  end.
  cbn [fst ts_currentHealth] in H.
  destruct (ts_statsModified st);
    match goal with
    | |- context [if isDefending ?x then _ else _] => destruct (isDefending x)
    end; cbn; exact H.
Qed.

(** X14. After a tick a creature with battle stats is no longer
    defending, its effect list holds no empty slot and no effect whose
    duration is 0 or less, and the list did not grow; identity, rarity,
    base stats, permanent modifications and turn number are untouched. *)
Theorem tick_postconditions (d : string) (t : Z) (c : Creature) (bs : Obj) :
  battleStats c = Some bs ->
  let c' := tickCreature sinThird calculateDerivedStats d t c in
  isDefending c' = false
  /\ (exists l,
        activeEffects c' = Some l
        /\ Forall (fun oe => exists e, oe = Some e /\ 0 < duration e) l
        /\ (length l <= length (match activeEffects c with
                                | Some l0 => l0
                                | None => []
                                end))%nat)
  /\ id c' = id c /\ species_name c' = species_name c /\ rarity c' = rarity c
  /\ stats c' = stats c /\ specialty_stats c' = specialty_stats c
  /\ permanentModifications c' = permanentModifications c
  /\ combination_level c' = combination_level c
  /\ currentTurn c' = currentTurn c.
Proof.
  intros Hbs. cbn zeta.
  destruct (tickCreature_effects sinThird calculateDerivedStats d t c bs Hbs)
    as [He _].
  split; [|split].
  - unfold tickCreature. rewrite Hbs.
    destruct (tickEffects _ _ _ _ _ _ _) as [st mapped].
    match goal with
    | |- context [if isDefending ?x then _ else _] =>
        destruct (isDefending x) eqn:E; [reflexivity | exact E]
    end.
  - eexists. split; [exact He|]. split.
    + apply Forall_forall. intros oe Hin. unfold effectsAfterTick in Hin.
      apply filter_In in Hin. destruct Hin as [_ Hk].
      destruct oe as [e|]; [|discriminate]. exists e. split; [reflexivity|].
      cbn in Hk. lia.
    + unfold effectsAfterTick.
      etransitivity; [apply filter_length_le|]. rewrite length_map. apply Nat.le_refl.
  - unfold tickCreature. rewrite Hbs.
    destruct (tickEffects _ _ _ _ _ _ _) as [st mapped].
    destruct (ts_statsModified st);
      match goal with
      | |- context [if isDefending ?x then _ else _] => destruct (isDefending x)
      end; cbn; repeat split; reflexivity.
Qed.

Lemma tick_without_effects (d : string) (t : Z) (c : Creature) (bs : Obj) :
  battleStats c = Some bs ->
  activeEffects c = None \/ activeEffects c = Some [] ->
  tickCreature sinThird calculateDerivedStats d t c
  = withIsDefending (withActiveEffects c (Some [])) false.
Proof.
  intros Hbs He. unfold tickCreature. rewrite Hbs.
  assert (Hl : match activeEffects c with Some l => l | None => [] end = [])
    by (destruct He as [He|He]; rewrite He; reflexivity).
  rewrite Hl. cbn [tickEffects ts_statsModified ts_currentHealth ts_nextAttackBonus
                     filter].
  destruct c; cbn in *. case_if; reflexivity.
Qed.

Lemma runTicks_idle (ticks : list (string * Z)) (c : Creature) (bs : Obj) :
  battleStats c = Some bs ->
  activeEffects c = Some [] ->
  isDefending c = false ->
  runTicks sinThird calculateDerivedStats ticks c = c.
Proof.
  intros Hbs He Hd. induction ticks as [|[d t] ticks IH]; [reflexivity|].
  cbn [runTicks fold_left fst snd].
  rewrite (tick_without_effects d t c bs Hbs (or_intror He)).
  replace (withIsDefending (withActiveEffects c (Some [])) false) with c
    by (destruct c; cbn in *; subst; reflexivity).
  exact IH.
Qed.


End TickFacts.

(** ** Tools and spells: duration, power and damage *)



Lemma mul_const_atMost (x : num) (c c' n : Z) (d : positive) :
  0 <= n -> c * n <= c' * Zpos d ->
  atMost x (int c) -> atMost (JS.mul x (dec n d)) (int c').
Proof.
  intros Hn Hc. destruct x as [q|]; [|trivial].
  unfold atMost, JS.mul, JS.lift2, dec, JS.fin, int, JS.ofZ, JS.le.
  intros H. apply Qle_bool_iff in H. apply Qle_bool_iff.
  rewrite Qred_correct. rewrite Qred_correct.
  assert (H1 : (q * (n # d) <= inject_Z c * (n # d))%Q).
  { apply Qmult_le_compat_r; [exact H|]. unfold Qle. cbn. lia. }
  eapply Qle_trans; [exact H1|].
  unfold Qle, Qmult, inject_Z. cbn. lia.
Qed.

Lemma add_atMost (a b : num) (c1 c2 : Z) :
  atMost a (int c1) -> atMost b (int c2) -> atMost (JS.add a b) (int (c1 + c2)).
Proof.
  destruct a as [x|], b as [y|]; try (intros; exact I).
  unfold atMost, JS.add, JS.lift2, JS.fin, int, JS.ofZ, JS.le.
  intros Ha Hb. apply Qle_bool_iff in Ha, Hb. apply Qle_bool_iff.
  rewrite Qred_correct, inject_Z_plus. apply Qplus_le_compat; assumption.
Qed.

Lemma spellFinalDamage_atMost (x cm m : num) (ap : option bool) (roll : num) :
  atMost x (int 100) ->
  atMost (fst (spellFinalDamage x cm m ap roll)) (int 180).
Proof.
  intros Hx. unfold spellFinalDamage. cbn [fst].
  set (crit := JS.le _ _).
  assert (H150 : atMost (if crit then JS.round (JS.mul x (dec 15 10)) else x) (int 150)).
  { destruct crit.
    - apply round_atMost. apply (mul_const_atMost x 100 150 15 10); [lia|lia|exact Hx].
    - apply (mul_const_atMost x 100 150 1 1) in Hx; [|lia|lia].
      destruct x as [q|]; [|exact I].
      unfold atMost, JS.le, int, JS.ofZ in *. apply Qle_bool_iff.
      apply Qle_bool_iff in Hx. unfold JS.mul, JS.lift2, dec, JS.fin in Hx.
      rewrite !Qred_correct in Hx.
      setoid_replace q with (q * (1 # 1))%Q by ring. exact Hx. }
  set (fd := if crit then _ else _) in *.
  destruct (_ || _).
  - change 180 with (150 + 30). apply add_atMost; [exact H150|].
    apply round_atMost. apply (mul_const_atMost fd 150 30 2 10); [lia|lia|exact H150].
  - destruct fd as [q|]; [|exact I].
    unfold atMost, JS.le, int, JS.ofZ in *. apply Qle_bool_iff.
    apply Qle_bool_iff in H150. eapply Qle_trans; [exact H150|].
    rewrite <- Zle_Qle. lia.
Qed.

(** X16. For an item without [spell_type] (every tool) the power
    multiplier does not look at the creature: it is the difficulty factor
    0.9, 1, 1.1 or 1.2 alone, so a tool effect is never rated strong. *)
Theorem tool_power_ignores_stats (item : Item) (casterStats : option Obj)
    (difficulty : string) :
  spell_type item = None ->
  calculateEffectPower item casterStats difficulty
  = calculateEffectPower item None difficulty
  /\ In (calculateEffectPower item casterStats difficulty)
        [dec 9 10; int 1; dec 11 10; dec 12 10]
  /\ powerLevelOf (calculateEffectPower item casterStats difficulty) <> "strong".
Proof.
  intros Hs. unfold calculateEffectPower. rewrite Hs.
  destruct casterStats;
    (split; [reflexivity|]);
    repeat case_if; (split; [vm_compute; tauto | vm_compute; discriminate]).
Qed.

Section ItemApplication.

Variable calculateDerivedStats : Creature -> Obj.


Lemma drain_fold_total (statGain statDrain : Obj) (ts cs : Obj) :
  exists ts' cs',
    fold_left (drainStep statGain) statDrain (Some (ts, Some cs))
    = Some (ts', Some cs').
Proof.
  revert ts cs. induction statDrain as [|[stat value] l IH]; intros ts cs.
  - exists ts, cs. reflexivity.
  - cbn [fold_left]. unfold drainStep at 2.
    destruct (obj_get stat ts); [|apply IH].
    destruct (obj_get stat cs); apply IH.
Qed.

Lemma statDrainStep_total (scaled : SpellEffect) (ts cs : Obj) :
  exists ts' cs', statDrainStep scaled ts (Some cs) = Some (ts', Some cs').
Proof.
  unfold statDrainStep.
  destruct (se_statDrain scaled); [|exists ts, cs; reflexivity].
  destruct (se_statGain scaled); [|exists ts, cs; reflexivity].
  apply drain_fold_total.
Qed.

(** X18. [applySpell] can throw only for a caster that has base stats but
    no battle stats: whenever the call throws, the caster is such a
    creature, and the target and the spell are present. *)
Theorem applySpell_throws_only_without_caster_battleStats
    (caster target : option Creature) (spell : option Item) (d : string) (t : Z)
    (critRoll : num) :
  applySpell calculateDerivedStats caster target spell d t critRoll = None ->
  exists c,
    caster = Some c /\ stats c <> None /\ battleStats c = None
    /\ target <> None /\ spell <> None.
Proof.
  unfold applySpell.
  destruct caster as [c|]; [|discriminate].
  destruct target as [tg|]; [|discriminate].
  destruct spell as [spell0|]; [|discriminate].
  destruct (stats c) as [cs|] eqn:Ecs; [|discriminate].
  destruct (battleStats tg) as [ts|] eqn:Ets; [|discriminate].
  destruct (getSpellEffect (Some spell0) _) as [base|]; [|discriminate].
  cbn zeta. intros H. exists c.
  split; [reflexivity|]. split; [congruence|].
  split; [|split; discriminate].
  destruct (battleStats c) as [cbs|] eqn:Ecb; [|reflexivity]. exfalso.
  destruct (spellDamageStep _ _ _ _ _) as [tc' scaled].
  unfold selfHealStep in H. cbn [battleStats withCurrentTurn] in H. rewrite Ecb in H.
  destruct (JS.truthy _ && negb _);
    cbn [battleStats withCurrentHealth withCurrentTurn] in H; rewrite ?Ecb in H.
  - match type of H with
    | context [statDrainStep ?s ?a (Some ?b)] =>
        destruct (statDrainStep_total s a b) as (ts' & cs' & Hd); rewrite Hd in H
    end.
    discriminate.
  - match type of H with
    | context [statDrainStep ?s ?a (Some ?b)] =>
        destruct (statDrainStep_total s a b) as (ts' & cs' & Hd); rewrite Hd in H
    end.
    discriminate.
Qed.


(** X20. The damage that a spell reports as dealt is at most 180: the
    scaled damage is capped at 100, a critical hit multiplies it by 1.5
    and armor piercing adds a fifth of the result. *)
Theorem spell_actual_damage_bounded (caster target : option Creature)
    (spell : option Item) (d : string) (t : Z) (critRoll : num)
    (r : SpellResult) (e : SpellEffect) (dmg : num) :
  applySpell calculateDerivedStats caster target spell d t critRoll = Some r ->
  spellEffect r = Some e ->
  se_actualDamage e = Some dmg ->
  atMost dmg (int 180).
Proof.
  unfold applySpell.
  destruct caster as [c|]; [|intros [= <-]; discriminate].
  destruct target as [tg|]; [|intros [= <-]; discriminate].
  destruct spell as [spell0|]; [|intros [= <-]; discriminate].
  destruct (stats c) as [cs|] eqn:Ecs; [|intros [= <-]; discriminate].
  destruct (battleStats tg) as [ts|] eqn:Ets; [|intros [= <-]; discriminate].
  destruct (getSpellEffect (Some spell0) _) as [base|] eqn:Eg;
    [|intros [= <-]; discriminate].
  cbn zeta.
  set (m := calculateEffectPower spell0 (Some cs) d).
  assert (Hbase : se_actualDamage base = None).
  { revert Eg. unfold getSpellEffect.
    destruct spell0 as [n te tt [ef|] [ty|]]; try (intros [= <-]; reflexivity).
    repeat case_if; intros [= <-]; reflexivity. }
  assert (Hstep : forall tc,
             forall x, se_actualDamage
                         (snd (spellDamageStep (scaleSpellEffect base m)
                                 (JS.orElse (obj_get "magic" cs) (int 5)) m critRoll tc))
                       = Some x -> atMost x (int 180)).
  { intros tc x. unfold spellDamageStep.
    destruct (JS.truthy _).
    - pose proof (spellFinalDamage_atMost
                    (JS.toNum (se_damage (scaleSpellEffect base m)))
                    (JS.orElse (obj_get "magic" cs) (int 5)) m
                    (se_armorPiercing (scaleSpellEffect base m)) critRoll) as Hf.
      destruct (spellFinalDamage _ _ _ _ _) as [fd ic]. cbn [fst] in Hf.
      cbn [snd se_actualDamage]. intros [= <-]. apply Hf.
      cbn [scaleSpellEffect se_damage JS.toNum]. apply scaleCapped_atMost. lia.
    - cbn [snd scaleSpellEffect se_actualDamage]. rewrite Hbase. discriminate. }
  match goal with
  | |- context [spellDamageStep ?s ?a ?b ?c ?tc] =>
      specialize (Hstep tc); destruct (spellDamageStep s a b c tc) as [tc' scaled]
  end.
  cbn [snd] in Hstep.
  destruct (selfHealStep _ _ _) as [cc|]; [|discriminate].
  destruct (statDrainStep _ _ _) as [[ts2 cs2]|]; [|discriminate].
  intros [= <-]. cbn [spellEffect]. intros [= <-]. apply Hstep.
Qed.

End ItemApplication.



Lemma recalculate_clamps (calculateDerivedStats : Creature -> Obj) (c : Creature) :
  stats c <> None ->
  JS.truthy (currentHealth (snd (recalculateDerivedStats calculateDerivedStats c)))
  = true ->
  JS.gt (currentHealth (snd (recalculateDerivedStats calculateDerivedStats c)))
        (JS.toNum (obj_get "maxHealth"
                     (fst (recalculateDerivedStats calculateDerivedStats c))))
  = false.
Proof.
  intros Hs. unfold recalculateDerivedStats. destruct (stats c); [|congruence].
  cbn zeta.
  match goal with
  | |- context [JS.toNum (obj_get "maxHealth" ?m)] => set (ms := m)
  end.
  destruct (JS.truthy (currentHealth c)) eqn:Et; cbn [andb].
  - destruct (JS.gt (currentHealth c) (JS.toNum (obj_get "maxHealth" ms))) eqn:Eg;
      cbn [fst snd].
    + intros _. cbn [currentHealth withCurrentHealth].
      destruct (JS.toNum (obj_get "maxHealth" ms)) as [q|]; cbn; [|reflexivity].
      destruct (Qle_bool q q) eqn:E; [reflexivity|].
      exfalso. assert (Qle_bool q q = true) by (apply Qle_bool_iff, Qle_refl).
      congruence.
    + intros _. exact Eg.
  - cbn [fst snd]. rewrite Et. discriminate.
Qed.

Section ItemTargets.

Variable calculateDerivedStats : Creature -> Obj.


(** X22. A tool application ends with the health inside the new maximum:
    for a creature with base stats the returned current health, unless
    it is 0, does not exceed the [maxHealth] of the returned battle
    stats. *)
Theorem applyTool_health_within_max (c : Creature) (tool0 : Item) (bs : Obj)
    (d : string) (t : Z) :
  stats c <> None ->
  battleStats c = Some bs ->
  exists c' bs',
    updatedCreature (applyTool calculateDerivedStats (Some c) (Some tool0) d t)
    = Some c'
    /\ battleStats c' = Some bs'
    /\ (JS.truthy (currentHealth c') = true ->
        JS.gt (currentHealth c') (JS.toNum (obj_get "maxHealth" bs')) = false).
Proof.
  intros Hs Hbs. unfold applyTool. rewrite Hbs.
  destruct (getToolEffect_never_null (Some tool0)) as [base Hg]. rewrite Hg.
  cbn zeta.
  match goal with
  | |- context [recalculateDerivedStats calculateDerivedStats ?x] =>
      assert (Hx : stats x <> None)
        by (repeat case_if; cbn; exact Hs);
      pose proof (recalculate_clamps calculateDerivedStats x Hx) as Hc;
      destruct (recalculateDerivedStats calculateDerivedStats x) as [newStats c1]
  end.
  cbn [fst snd] in Hc. cbn [updatedCreature].
  exists (withBattleStats c1 (Some newStats)), newStats.
  split; [reflexivity|]. split; [reflexivity|]. exact Hc.
Qed.

End ItemTargets.

(** ** The defensive stance *)

Section StanceFacts.

Variable sinThird : Z -> num.
Variable calculateDerivedStats : Creature -> Obj.
Variable getRarityMultiplier : string -> num.


(** X24. The boost of a defensive stance outlives the stance.  For a
    creature without other effects the tick that follows the defense
    removes the stance and clears the defending flag, but it rebuilds
    the battle stats with the full boost added to the derived stats; as
    no effect is left, no later tick rebuilds them again. *)
Theorem defend_boost_outlives_stance (c dc : Creature) (bs : Obj)
    (difficulty d : string) (t : Z) :
  battleStats c = Some bs ->
  activeEffects c = None \/ activeEffects c = Some [] ->
  defendCreature getRarityMultiplier (Some c) difficulty = Some dc ->
  let c1 := tickCreature sinThird calculateDerivedStats d t dc in
  activeEffects c1 = Some []
  /\ isDefending c1 = false
  /\ battleStats c1
     = Some (applyCurrentStatMods
               (mapValues (JS.add (int 0))
                  (orEmpty (statModifications
                              (defensiveStance getRarityMultiplier
                                 (withIsDefending c true) bs))))
               (calculateDerivedStats
                  (withActiveEffects (withIsDefending c true) (Some []))))
  /\ forall ticks,
       battleStats (runTicks sinThird calculateDerivedStats ticks c1)
       = battleStats c1.
Proof.
  intros Hbs He. unfold defendCreature. rewrite Hbs. intros [= <-]. cbn zeta.
  set (stance := defensiveStance getRarityMultiplier (withIsDefending c true) bs).
  assert (Hl : match activeEffects c with Some l => l | None => [] end = [])
    by (destruct He as [He|He]; rewrite He; reflexivity).
  assert (Htick :
            tickCreature sinThird calculateDerivedStats d t
              (pushEffect (withIsDefending c true) stance)
            = withIsDefending
                (withBattleStats
                   (withActiveEffects (withIsDefending c true) (Some []))
                   (Some (applyCurrentStatMods
                            (mapValues (JS.add (int 0))
                               (orEmpty (statModifications stance)))
                            (calculateDerivedStats
                               (withActiveEffects (withIsDefending c true)
                                  (Some []))))))
                false).
  { unfold tickCreature, pushEffect.
    cbn [battleStats withActiveEffects withIsDefending activeEffects].
    rewrite Hbs, Hl. cbn [app tickEffects]. unfold tickEffect.
    unfold processTimedEffect. cbn [chargeEffect stance defensiveStance effectType
      JS.isStr healthOverTime JS.truthyO andb statModifications].
    change (String.eqb "Shield" "Echo") with false. cbn [andb].
    cbn [statModifications defensiveStance chargeEffect fold_left fst snd].
    unfold applyHealthOverTime. cbn [healthOverTime defensiveStance].
    cbn [duration defensiveStance withDuration filter keepEffect].
    change (1 - 1 >? 0) with false. cbv iota.
    cbn [ts_statsModified addStatMod ts_currentHealth ts_nextAttackBonus
         ts_currentStatMods].
    destruct c; cbn in *. reflexivity. }
  rewrite Htick. split; [reflexivity|]. split; [reflexivity|].
  split; [reflexivity|].
  intros ticks. f_equal.
  eapply runTicks_idle; reflexivity.
Qed.

End StanceFacts.

(** ** Energy momentum and charge progress *)

Lemma Qfloor_tenth (m : Z) : Qfloor (inject_Z m / inject_Z 10) = m / 10.
Proof.
  assert (H : (inject_Z m / inject_Z 10 == m # 10)%Q).
  { unfold Qeq, Qdiv, Qmult, Qinv, inject_Z. cbn. lia. }
  rewrite (Qfloor_comp _ _ H). reflexivity.
Qed.

Lemma div_ten (m : Z) :
  JS.floor (JS.div (int m) (int 10)) = int (m / 10).
Proof.
  unfold JS.div, JS.floor, JS.fin, int, JS.ofZ.
  change (Qeq_bool (inject_Z 10) 0) with false. cbv iota.
  f_equal. f_equal.
  rewrite (Qfloor_comp _ _ (Qred_correct _)). apply Qfloor_tenth.
Qed.

Lemma rem_ten (m : Z) :
  0 <= m -> jsRem (int m) (int 10) = int (m mod 10).
Proof.
  intros Hm. unfold jsRem, int, JS.ofZ, JS.fin.
  change (Qeq_bool (inject_Z 10) 0) with false. cbv iota.
  assert (Hq : Qle_bool 0 (inject_Z m / inject_Z 10) = true).
  { apply Qle_bool_iff. unfold Qle, Qdiv, Qmult, Qinv, inject_Z. cbn. lia. }
  rewrite Hq, Qfloor_tenth. f_equal.
  rewrite <- (Qred_inject_Z (m mod 10)). apply Qred_complete.
  rewrite (Z.mod_eq m 10) by lia.
  replace (m - 10 * (m / 10)) with (m + - (10 * (m / 10))) by lia.
  rewrite inject_Z_plus, inject_Z_opp, inject_Z_mult. reflexivity.
Qed.

Lemma sub_int (a b : Z) : JS.sub (int a) (int b) = int (a - b).
Proof.
  unfold JS.sub, JS.lift2, int, JS.ofZ, JS.fin. f_equal.
  rewrite <- (Qred_inject_Z (a - b)). apply Qred_complete.
  replace (a - b) with (a + - b) by lia.
  rewrite inject_Z_plus, inject_Z_opp. reflexivity.
Qed.

(** X25. For a whole, non-negative momentum the bonus regeneration is
    the number of full tens, and the next threshold is the distance to
    the next multiple of ten, between 1 and 10 (10, not 0, on a multiple
    of ten): gaining that much momentum raises the bonus by exactly 1. *)
Theorem processEnergyMomentum_threshold (m : Z) :
  0 <= m ->
  let info := processEnergyMomentum (int m) in
  bonusRegen info = int (m / 10)
  /\ totalBonusEarned info = bonusRegen info
  /\ (exists k, nextThreshold info = int k /\ 1 <= k <= 10 /\ (m + k) mod 10 = 0)
  /\ bonusRegen (processEnergyMomentum (JS.add (int m) (nextThreshold info)))
     = JS.add (bonusRegen info) (int 1).
Proof.
  intros Hm. cbn zeta. unfold processEnergyMomentum.
  cbn [bonusRegen totalBonusEarned nextThreshold].
  rewrite div_ten, (rem_ten m Hm), sub_int.
  pose proof (Z.mod_pos_bound m 10 ltac:(lia)) as Hb.
  pose proof (Z.div_mod m 10 ltac:(lia)) as Hdm.
  split; [reflexivity|]. split; [reflexivity|]. split.
  - exists (10 - m mod 10). split; [reflexivity|]. split; [lia|].
    replace (m + (10 - m mod 10)) with ((m / 10 + 1) * 10) by lia.
    apply Z.mod_mul. lia.
  - rewrite !add_int, div_ten. f_equal.
    replace (m + (10 - m mod 10)) with ((m / 10 + 1) * 10) by lia.
    apply Z.div_mul. lia.
Qed.

(** X26. The progress display of a charge effect, for a positive number
    of charging turns: the progress is at most 100, and the effect is
    shown as ready exactly when no turn remains, which is exactly when
    the turns since the start have reached [maxTurns]. *)
Theorem chargeStatus_ready (t : Z) (e : Effect) (ce : ChargeEffect)
    (s : ChargeStatus) (q : Q) :
  chargeStatus t e = Some s ->
  chargeEffect e = Some ce ->
  maxTurns ce = Fin q ->
  (0 < q)%Q ->
  atMost (chargeProgress s) (int 100)
  /\ (isReady s = true <-> (q <= inject_Z (t - startTurn e))%Q)
  /\ (isReady s = true <-> JS.eqb (turnsRemaining s) (int 0) = true).
Proof.
  intros Hs Hce Hq Hpos. unfold chargeStatus in Hs. rewrite Hce in Hs.
  destruct (JS.isStr (effectType e) "Charge"); [|discriminate].
  injection Hs as <-. unfold chargeProgress, isReady, turnsRemaining.
  rewrite Hq. set (n := t - startTurn e).
  assert (Hnz : Qeq_bool q 0 = false).
  { destruct (Qeq_bool q 0) eqn:E; [|reflexivity].
    apply Qeq_bool_iff in E. rewrite E in Hpos. discriminate. }
  assert (Ht : JS.truthy (Fin q) = true) by (unfold JS.truthy; rewrite Hnz; reflexivity).
  rewrite Ht, Hnz.
  unfold JS.min, JS.mul, JS.sub, JS.lift2, JS.fin, JS.eqb, atMost, int, JS.ofZ.
  set (r := Qred (inject_Z n / q)).
  assert (Hr : (r == inject_Z n / q)%Q) by apply Qred_correct.
  assert (Hrem : (Qred (q - inject_Z n) == q - inject_Z n)%Q) by apply Qred_correct.
  assert (Hge : (1 <= inject_Z n / q <-> q <= inject_Z n)%Q).
  { split; intros H.
    - apply (Qmult_le_compat_r _ _ q) in H; [|apply Qlt_le_weak; exact Hpos].
      rewrite Qmult_1_l in H. eapply Qle_trans; [exact H|].
      field_simplify (inject_Z n / q * q)%Q; [apply Qle_refl|].
      intros E. rewrite E in Hpos. discriminate.
    - apply Qle_shift_div_l; [exact Hpos|]. rewrite Qmult_1_l. exact H. }
  change (inject_Z 1) with 1%Q. change (inject_Z 0) with 0%Q.
  change (inject_Z 100) with 100%Q.
  destruct (Qle_bool r 1) eqn:E1; cbv iota beta.
  - apply Qle_bool_iff in E1.
    assert (Hready : Qle_bool 100 (Qred (r * 100)) = true <-> (q <= inject_Z n)%Q).
    { rewrite Qle_bool_iff, Qred_correct, <- Hge, <- Hr. split; intros H; lra. }
    split; [|split].
    + unfold JS.le. apply Qle_bool_iff. rewrite Qred_correct. lra.
    + exact Hready.
    + rewrite Hready.
      destruct (Qle_bool 0 (Qred (q - inject_Z n))) eqn:E0; cbv iota.
      * apply Qle_bool_iff in E0. rewrite Hrem in E0.
        rewrite Qeq_bool_iff, Hrem. split; intros H; lra.
      * split; intros H; [reflexivity|].
        destruct (Qlt_le_dec (inject_Z n) q) as [Hlt|Hle]; [|exact Hle].
        exfalso. assert (Qle_bool 0 (Qred (q - inject_Z n)) = true).
        { apply Qle_bool_iff. rewrite Hrem. lra. }
        congruence.
  - assert (Hgt : (1 < inject_Z n / q)%Q).
    { apply Qnot_le_lt. intros H. rewrite <- Hr in H.
      apply Qle_bool_iff in H. congruence. }
    assert (Hqn : (q <= inject_Z n)%Q) by (apply Hge; apply Qlt_le_weak; exact Hgt).
    split; [|split].
    + vm_compute. reflexivity.
    + split; intros _; [exact Hqn | vm_compute; reflexivity].
    + split; intros _; [|vm_compute; reflexivity].
      destruct (Qle_bool 0 (Qred (q - inject_Z n))) eqn:E0; cbv iota.
      * apply Qle_bool_iff in E0. rewrite Hrem in E0.
        apply Qeq_bool_iff. rewrite Hrem. lra.
      * reflexivity.
Qed.

(** ** Combinations and recommendations *)

Lemma comboStep_fold (effect : NamedEffect) (rest : list NamedEffect)
    (b : ComboBonus) (k : Z) :
  cb_damage b = int (5 * k) -> cb_healing b = int (3 * k) -> cb_duration b = int k ->
  let k' := k + Z.of_nat (length (filter (fun otherEffect =>
                                            isSynergy (ne_name effect)
                                                      (ne_name otherEffect)) rest)) in
  let b' := fold_left (comboStep effect) rest b in
  cb_damage b' = int (5 * k') /\ cb_healing b' = int (3 * k')
  /\ cb_duration b' = int k'.
Proof.
  revert b k. induction rest as [|o rest IH]; intros b k Hd Hh Hu; cbn zeta.
  - cbn [filter length fold_left]. rewrite Z.add_0_r. auto.
  - cbn [filter fold_left]. unfold comboStep at 2 4 6.
    destruct (isSynergy (ne_name effect) (ne_name o)).
    + cbn [length]. rewrite Nat2Z.inj_succ.
      replace (k + Z.succ (Z.of_nat (length (filter _ rest))))
        with ((k + 1) + Z.of_nat (length (filter (fun otherEffect =>
                                            isSynergy (ne_name effect)
                                                      (ne_name otherEffect)) rest)))
        by lia.
      apply IH; cbn [cb_damage cb_healing cb_duration].
      * rewrite Hd, add_int. f_equal. lia.
      * rewrite Hh, add_int. f_equal. lia.
      * rewrite Hu, add_int. reflexivity.
    + apply IH; assumption.
Qed.

Lemma comboLoop_counts (effects : list NamedEffect) (b : ComboBonus) (k : Z) :
  cb_damage b = int (5 * k) -> cb_healing b = int (3 * k) -> cb_duration b = int k ->
  let k' := k + Z.of_nat (synergyCount effects) in
  cb_damage (comboLoop effects b) = int (5 * k')
  /\ cb_healing (comboLoop effects b) = int (3 * k')
  /\ cb_duration (comboLoop effects b) = int k'.
Proof.
  revert b k. induction effects as [|e rest IH]; intros b k Hd Hh Hu; cbn zeta.
  - cbn [synergyCount comboLoop]. rewrite Z.add_0_r. auto.
  - cbn [synergyCount comboLoop].
    destruct (comboStep_fold e rest b k Hd Hh Hu) as (Hd' & Hh' & Hu').
    rewrite Nat2Z.inj_add, Z.add_assoc. apply IH; assumption.
Qed.

Lemma comboLoop_no_synergy (effects : list NamedEffect) (b : ComboBonus) :
  synergyCount effects = 0%nat -> comboLoop effects b = b.
Proof.
  revert b. induction effects as [|e rest IH]; intros b Hc; [reflexivity|].
  cbn [synergyCount] in Hc. cbn [comboLoop].
  assert (Hf : filter (fun otherEffect =>
                         isSynergy (ne_name e) (ne_name otherEffect)) rest = []).
  { destruct (filter _ rest); [reflexivity | cbn in Hc; lia]. }
  assert (Hr : synergyCount rest = 0%nat) by lia.
  rewrite IH by exact Hr.
  clear IH Hc Hr. revert b. induction rest as [|o rest IH]; intros b; [reflexivity|].
  cbn [filter] in Hf. cbn [fold_left]. unfold comboStep at 2.
  destruct (isSynergy (ne_name e) (ne_name o)); [discriminate|].
  apply IH. exact Hf.
Qed.

(** X27. A combination earns 5 damage, 3 healing and 1 turn for each
    pair of an earlier and a later effect whose names form a synergy, in
    either order; without such a pair, and for fewer than two effects,
    there is no combination at all. *)
Theorem calculateComboEffect_counts_pairs (effects : list NamedEffect) :
  match calculateComboEffect (Some effects) with
  | Some comboBonus =>
      (0 < synergyCount effects)%nat
      /\ cb_damage comboBonus = int (5 * Z.of_nat (synergyCount effects))
      /\ cb_healing comboBonus = int (3 * Z.of_nat (synergyCount effects))
      /\ cb_duration comboBonus = int (Z.of_nat (synergyCount effects))
  | None => synergyCount effects = 0%nat
  end.
Proof.
  unfold calculateComboEffect.
  set (b0 := {| cb_statChanges := []; cb_damage := int 0; cb_healing := int 0;
                cb_duration := int 0 |}).
  destruct (length effects <? 2)%nat eqn:El.
  - apply Nat.ltb_lt in El.
    destruct effects as [|e [|e' rest]]; cbn in El; try lia; reflexivity.
  - destruct (comboLoop_counts effects b0 0 eq_refl eq_refl eq_refl)
      as (Hd & Hh & Hu).
    rewrite Z.add_0_l in Hd, Hh, Hu.
    destruct (synergyCount effects) as [|n] eqn:En.
    + rewrite (comboLoop_no_synergy effects b0 En). reflexivity.
    + assert (Hpos : JS.gt (cb_damage (comboLoop effects b0)) (int 0) = true).
      { rewrite Hd. unfold JS.gt, JS.lt, int, JS.ofZ.
        destruct (Qle_bool _ _) eqn:E; [|reflexivity].
        apply Qle_bool_iff in E. rewrite <- Zle_Qle in E. lia. }
      rewrite Hpos, orb_true_r. cbn [orb]. repeat split; try assumption. lia.
Qed.

(** *** The recommendations *)

Lemma recommendationsFor_In (gs : AdvisorState) (creatures : list Creature)
    (item : Item) (r : Recommendation) :
  In r (recommendationsFor gs creatures item) <->
  exists creature,
    In creature creatures
    /\ JS.gt (calculateItemEfficiency item creature gs) (int 30) = true
    /\ r = {| rec_item := item; rec_target := creature;
              rec_efficiency := calculateItemEfficiency item creature gs;
              rec_reason :=
                getRecommendationReason item creature
                  (calculateItemEfficiency item creature gs) |}.
Proof.
  unfold recommendationsFor. rewrite in_flat_map. split.
  - intros (creature & Hc & Hin). exists creature.
    destruct (JS.gt _ _) eqn:E; [|destruct Hin].
    destruct Hin as [<-|[]]. auto.
  - intros (creature & Hc & Hg & ->). exists creature. split; [exact Hc|].
    rewrite Hg. left. reflexivity.
Qed.

Lemma insertRecommendation_In (r x : Recommendation) (l : list Recommendation) :
  In x (insertRecommendation r l) <-> x = r \/ In x l.
Proof.
  induction l as [|s l IH]; cbn [insertRecommendation].
  - cbn. intuition.
  - destruct (JS.lt _ _); cbn [In]; [intuition|]. rewrite IH. intuition.
Qed.

Lemma insertRecommendation_length (r : Recommendation) (l : list Recommendation) :
  length (insertRecommendation r l) = S (length l).
Proof.
  induction l as [|s l IH]; cbn [insertRecommendation]; [reflexivity|].
  destruct (JS.lt _ _); cbn [length]; [reflexivity|]. rewrite IH. reflexivity.
Qed.

Lemma byEfficiency_trans (a b c : Recommendation) :
  byEfficiency a b -> byEfficiency b c -> byEfficiency a c.
Proof.
  unfold byEfficiency, JS.ge, JS.le.
  destruct (rec_efficiency a), (rec_efficiency b), (rec_efficiency c);
    try discriminate.
  intros H1 H2. apply Qle_bool_iff in H1, H2. apply Qle_bool_iff.
  eapply Qle_trans; eassumption.
Qed.

Lemma insertRecommendation_sorted (r : Recommendation) (l : list Recommendation) :
  isNumber (rec_efficiency r) ->
  Forall (fun s => isNumber (rec_efficiency s)) l ->
  StronglySorted byEfficiency l ->
  StronglySorted byEfficiency (insertRecommendation r l).
Proof.
  intros [qr Hr] Hfin Hs. induction Hs as [|s l Hs IH Hall]; cbn [insertRecommendation].
  - constructor; constructor.
  - inversion Hfin as [|? ? [qs Hqs] Hfin']; subst.
    destruct (JS.lt (rec_efficiency s) (rec_efficiency r)) eqn:E.
    + assert (Hrs : byEfficiency r s).
      { unfold byEfficiency, JS.ge, JS.le. rewrite Hr, Hqs in *. cbn in E.
        apply Qle_bool_iff. apply Qlt_le_weak. apply Qnot_le_lt. intros H.
        apply Qle_bool_iff in H. rewrite H in E. discriminate. }
      constructor; [constructor; assumption|].
      constructor; [exact Hrs|].
      eapply Forall_impl; [|exact Hall]. intros x Hx.
      eapply byEfficiency_trans; eassumption.
    + constructor; [apply IH; exact Hfin'|].
      apply Forall_forall. intros x Hx. apply insertRecommendation_In in Hx.
      destruct Hx as [-> | Hx].
      * unfold byEfficiency, JS.ge, JS.le. rewrite Hr, Hqs in *. cbn in E.
        destruct (Qle_bool qr qs); [reflexivity | discriminate].
      * rewrite Forall_forall in Hall. apply Hall. exact Hx.
Qed.

Lemma sort_fold_facts (l acc : list Recommendation) :
  Forall (fun s => isNumber (rec_efficiency s)) l ->
  Forall (fun s => isNumber (rec_efficiency s)) acc ->
  StronglySorted byEfficiency acc ->
  let sorted := fold_left (fun sorted r => insertRecommendation r sorted) l acc in
  StronglySorted byEfficiency sorted
  /\ (forall x, In x sorted <-> In x acc \/ In x l)
  /\ length sorted = (length acc + length l)%nat.
Proof.
  revert acc. induction l as [|r l IH]; intros acc Hl Hacc Hs; cbn zeta.
  - cbn [fold_left]. split; [exact Hs|]. split; [cbn; intuition | cbn; lia].
  - inversion Hl as [|? ? Hr Hl']; subst. cbn [fold_left].
    destruct (IH (insertRecommendation r acc) Hl') as (H1 & H2 & H3).
    + apply Forall_forall. intros x Hx. apply insertRecommendation_In in Hx.
      destruct Hx as [-> | Hx]; [exact Hr|].
      rewrite Forall_forall in Hacc. apply Hacc. exact Hx.
    + apply insertRecommendation_sorted; assumption.
    + split; [exact H1|]. split.
      * intros x. rewrite H2, insertRecommendation_In. cbn [In]. intuition.
      * rewrite H3, insertRecommendation_length. cbn [length]. lia.
Qed.

Lemma sorted_app_inv (l1 l2 : list Recommendation) :
  StronglySorted byEfficiency (l1 ++ l2) ->
  forall a b, In a l1 -> In b l2 -> byEfficiency a b.
Proof.
  induction l1 as [|x l1 IH]; intros Hs a b Ha Hb; [destruct Ha|].
  cbn [app] in Hs. inversion Hs as [|? ? Hs' Hall]; subst.
  destruct Ha as [<- | Ha].
  - rewrite Forall_forall in Hall. apply Hall. apply in_or_app. right. exact Hb.
  - apply IH; assumption.
Qed.

Lemma sorted_firstn (n : nat) (l : list Recommendation) :
  StronglySorted byEfficiency l -> StronglySorted byEfficiency (firstn n l).
Proof.
  revert n. induction l as [|x l IH]; intros n Hs.
  - rewrite firstn_nil. constructor.
  - destruct n as [|n]; [constructor|]. cbn [firstn].
    inversion Hs as [|? ? Hs' Hall]; subst. constructor; [apply IH; exact Hs'|].
    apply Forall_forall. intros y Hy. rewrite Forall_forall in Hall. apply Hall.
    rewrite <- (firstn_skipn n l). apply in_or_app. left. exact Hy.
Qed.

(** X28. The advisor returns the best recommendations: at most three,
    ordered from the most to the least efficient, each for an item and a
    creature of the inputs with the efficiency of that pair, which
    exceeds 30; and any pair above 30 that is missing from the answer is
    no more efficient than each of the three returned. *)
Theorem getRecommendedItemUsage_top_three (availableItems : list Item)
    (creatures : list Creature) (gameState : AdvisorState) :
  let recs := getRecommendedItemUsage availableItems creatures gameState in
  (length recs <= 3)%nat
  /\ StronglySorted byEfficiency recs
  /\ (forall r, In r recs ->
        In (rec_item r) availableItems /\ In (rec_target r) creatures
        /\ rec_efficiency r
           = calculateItemEfficiency (rec_item r) (rec_target r) gameState
        /\ JS.gt (rec_efficiency r) (int 30) = true
        /\ rec_reason r
           = getRecommendationReason (rec_item r) (rec_target r) (rec_efficiency r))
  /\ (forall item creature,
        In item availableItems -> In creature creatures ->
        JS.gt (calculateItemEfficiency item creature gameState) (int 30) = true ->
        (exists r, In r recs /\ rec_item r = item /\ rec_target r = creature)
        \/ (length recs = 3%nat
            /\ forall r, In r recs ->
                 JS.ge (rec_efficiency r)
                       (calculateItemEfficiency item creature gameState) = true)).
Proof.
  cbn zeta. unfold getRecommendedItemUsage, sortRecommendations.
  set (cands := flat_map (recommendationsFor gameState creatures) availableItems).
  assert (Hc : forall r, In r cands <->
                 exists item creature,
                   In item availableItems /\ In creature creatures
                   /\ JS.gt (calculateItemEfficiency item creature gameState) (int 30)
                      = true
                   /\ r = {| rec_item := item; rec_target := creature;
                             rec_efficiency :=
                               calculateItemEfficiency item creature gameState;
                             rec_reason :=
                               getRecommendationReason item creature
                                 (calculateItemEfficiency item creature gameState) |}).
  { intros r. unfold cands. rewrite in_flat_map. split.
    - intros (item & Hi & Hin). apply recommendationsFor_In in Hin.
      destruct Hin as (creature & Hcr & Hg & ->). exists item, creature. auto.
    - intros (item & creature & Hi & Hcr & Hg & ->). exists item.
      split; [exact Hi|]. apply recommendationsFor_In. exists creature. auto. }
  assert (Hfin : Forall (fun s => isNumber (rec_efficiency s)) cands).
  { apply Forall_forall. intros r Hr. apply Hc in Hr.
    destruct Hr as (item & creature & _ & _ & Hg & ->). cbn [rec_efficiency].
    destruct (calculateItemEfficiency item creature gameState) as [q|];
      [exists q; reflexivity | discriminate]. }
  destruct (sort_fold_facts cands [] Hfin (Forall_nil _) (SSorted_nil _))
    as (Hsorted & Hin & Hlen).
  set (sorted := fold_left (fun sorted r => insertRecommendation r sorted) cands [])
    in *.
  split; [apply firstn_le_length|].
  split; [apply sorted_firstn; exact Hsorted|].
  split.
  - intros r Hr. assert (Hr' : In r sorted).
    { rewrite <- (firstn_skipn 3 sorted). apply in_or_app. left. exact Hr. }
    apply Hin in Hr'. destruct Hr' as [[]|Hr'].
    apply Hc in Hr'. destruct Hr' as (item & creature & Hi & Hcr & Hg & ->).
    cbn. auto.
  - intros item creature Hi Hcr Hg.
    set (r0 := {| rec_item := item; rec_target := creature;
                  rec_efficiency := calculateItemEfficiency item creature gameState;
                  rec_reason :=
                    getRecommendationReason item creature
                      (calculateItemEfficiency item creature gameState) |}).
    assert (H0 : In r0 sorted).
    { apply Hin. right. apply Hc. exists item, creature. auto. }
    rewrite <- (firstn_skipn 3 sorted) in H0. apply in_app_or in H0.
    destruct H0 as [H0 | H0].
    + left. exists r0. auto.
    + right. split.
      * rewrite length_firstn. apply Nat.min_l.
        destruct (Nat.le_gt_cases 3 (length sorted)) as [Hle|Hgt]; [exact Hle|].
        rewrite skipn_all2 in H0 by lia. destruct H0.
      * intros r Hr.
        rewrite <- (firstn_skipn 3 sorted) in Hsorted.
        exact (sorted_app_inv _ _ Hsorted r r0 Hr H0).
Qed.

(** X29. The energy cap is a whole number of at least 10, the base of
    the difficulty plus one for every four creatures: one more creature
    on the field never lowers it and raises it by at most 1. *)
Theorem getMaxEnergy_growth (creatures : list Creature) (creature : Creature)
    (difficulty : string) :
  exists k,
    getMaxEnergy creatures difficulty = int k
    /\ 10 <= k
    /\ (getMaxEnergy (creature :: creatures) difficulty = int k
        \/ getMaxEnergy (creature :: creatures) difficulty = int (k + 1)).
Proof.
  assert (Hfloor : forall n : nat,
             JS.floor (JS.mul (int (Z.of_nat n)) (dec 25 100)) = int (Z.of_nat n / 4)).
  { intros n. unfold JS.mul, JS.lift2, dec, JS.fin, int, JS.ofZ, JS.floor.
    f_equal. f_equal.
    assert (H : (Qred (inject_Z (Z.of_nat n) * Qred (25 # 100)) == Z.of_nat n # 4)%Q).
    { rewrite !Qred_correct. unfold Qeq, Qmult, inject_Z. cbn. lia. }
    rewrite (Qfloor_comp _ _ H). reflexivity. }
  unfold getMaxEnergy. rewrite !Hfloor. cbn [length]. rewrite Nat2Z.inj_succ.
  set (n := Z.of_nat (length creatures)).
  assert (Hn : 0 <= n) by (unfold n; lia).
  assert (Hstep : Z.succ n / 4 = n / 4 \/ Z.succ n / 4 = n / 4 + 1).
  { pose proof (Z.div_mod n 4 ltac:(lia)) as H1.
    pose proof (Z.mod_pos_bound n 4 ltac:(lia)) as H2.
    pose proof (Z.div_mod (Z.succ n) 4 ltac:(lia)) as H3.
    pose proof (Z.mod_pos_bound (Z.succ n) 4 ltac:(lia)) as H4. lia. }
  assert (Hq : 0 <= n / 4) by (apply Z.div_pos; lia).
  repeat case_if; rewrite !add_int;
    eexists; (split; [reflexivity|]); (split; [lia|]);
    (destruct Hstep as [-> | ->]; [left; reflexivity | right; f_equal; lia]).
Qed.

(** ** The properties at sample inputs *)

Lemma alwaysThirty_not_negative :
  forall attacker defender attackType multiplier,
  exists q, dr_damage (alwaysThirty attacker defender attackType multiplier) = Fin q
            /\ (0 <= q)%Q.
Proof. intros. exists (inject_Z 30). split; [reflexivity | discriminate]. Qed.

Lemma processAttack_hit_bounds_witness :
  exists d',
    updatedDefender
      (processAttack sampleCombo alwaysThirty sampleShow (Some raider) (Some golem)
         "physical" (int 0) (int 1) (int 1)) = Some d'
    /\ currentHealth d' = int 55
    /\ JS.le (currentHealth d') (currentHealth golem) = true.
Proof.
  destruct (processAttack_hit_bounds sampleCombo alwaysThirty sampleShow
              alwaysThirty_not_negative raider golem "physical" (int 0) (int 1) (int 1)
              (sampleDerivedStats raider) (sampleDerivedStats golem) (inject_Z 85)
              eq_refl eq_refl eq_refl ltac:(discriminate) eq_refl)
    as (d' & Hd & _ & Hle & _).
  exists d'. split; [exact Hd|]. split; [|exact Hle].
  vm_compute in Hd. injection Hd as <-. reflexivity.
Defined.

Lemma processAttack_consumes_bonus_witness :
  JS.truthyO (nextAttackBonus empoweredRaider) = true
  /\ exists a',
       updatedAttacker
         (processAttack sampleCombo alwaysThirty sampleShow (Some empoweredRaider)
            (Some golem) "physical" (int 0) (int 1) (int 1)) = Some a'
       /\ JS.truthyO (nextAttackBonus a') = false.
Proof.
  split; [reflexivity|].
  destruct (processAttack_consumes_bonus sampleCombo alwaysThirty sampleShow
              empoweredRaider golem "physical" (int 0) (int 1) (int 1)
              (sampleDerivedStats raider) (sampleDerivedStats golem)
              eq_refl eq_refl)
    as (a' & sa' & Ha & Hb & _).
  exists a'. split; [exact Ha | exact Hb].
Defined.

Lemma processAttack_defender_frame_witness :
  exists d',
    updatedDefender
      (processAttack sampleCombo alwaysThirty sampleShow (Some raider) (Some golem)
         "physical" (int 0) (int 1) (int 1)) = Some d'
    /\ battleStats d' = battleStats golem.
Proof.
  destruct (processAttack_defender_frame sampleCombo alwaysThirty sampleShow
              raider golem "physical" (int 0) (int 1) (int 1)
              (sampleDerivedStats raider) (sampleDerivedStats golem)
              eq_refl eq_refl)
    as (d' & added & Hd & Hs & _).
  exists d'. split; [exact Hd | exact Hs].
Defined.

Lemma processAttack_invalid_input_witness :
  updatedDefender
    (processAttack sampleCombo alwaysThirty sampleShow None (Some golem)
       "physical" (int 0) (int 1) (int 1)) = Some golem.
Proof.
  exact (proj1 (proj2 (processAttack_invalid_input sampleCombo alwaysThirty sampleShow
                         None (Some golem) "physical" (int 0) (int 1) (int 1)
                         (or_introl eq_refl)))).
Defined.

Lemma processDefeatedCreatures_returns_the_living_witness :
  exists survivors opposing',
    processDefeatedCreatures [golem; titan; imp] [raider] = Some (survivors, opposing')
    /\ Forall2 sameButStatsAndEffects [golem; imp] survivors
    /\ Forall2 sameButEffects [raider] opposing'.
Proof.
  assert (H : exists s o,
             processDefeatedCreatures [golem; titan; imp] [raider] = Some (s, o))
    by (do 2 eexists; vm_compute; reflexivity).
  destruct H as (s & o & H). exists s, o. split; [exact H|].
  exact (processDefeatedCreatures_returns_the_living _ _ _ _ H).
Defined.

Lemma processDefeatedCreatures_total_witness :
  exists survivors opposing',
    processDefeatedCreatures [golem; titan; imp] [raider] = Some (survivors, opposing').
Proof.
  apply processDefeatedCreatures_total. repeat constructor; discriminate.
Defined.

Lemma processDefeatedCreatures_revenge_count_witness :
  exists survivors opposing',
    processDefeatedCreatures [golem; titan; phoenix] [raider]
    = Some (survivors, opposing')
    /\ opposing' = [guiltyConscience (guiltyConscience raider)].
Proof.
  assert (H : exists s o,
             processDefeatedCreatures [golem; titan; phoenix] [raider] = Some (s, o))
    by (do 2 eexists; vm_compute; reflexivity).
  destruct H as (s & o & H). exists s, o. split; [exact H|].
  exact (processDefeatedCreatures_revenge_count _ _ _ _ H).
Defined.

Lemma processTurn_fields_alive_witness :
  exists g',
    processTurn sampleSin sampleDerivedStats nat (sampleGame [golem; titan] 1) "medium"
    = Some g'
    /\ Forall (fun c => aliveb c = true) (playerField nat g')
    /\ (length (playerField nat g') <= 2)%nat.
Proof.
  assert (H : exists g',
             processTurn sampleSin sampleDerivedStats nat (sampleGame [golem; titan] 1)
               "medium" = Some g')
    by (eexists; vm_compute; reflexivity).
  destruct H as (g' & H). exists g'. split; [exact H|].
  destruct (processTurn_fields_alive sampleSin sampleDerivedStats nat _ _ _ H)
    as (Ha & _ & Hl & _).
  split; [exact Ha | exact Hl].
Defined.

Lemma processTurn_draw_witness :
  exists g',
    processTurn sampleSin sampleDerivedStats nat (sampleGame [golem] 1) "medium"
    = Some g'
    /\ (playerHand nat g' ++ playerDeck nat g' = [1; 2]%nat)%list
    /\ length (playerHand nat g') = 1%nat.
Proof.
  assert (H : exists g',
             processTurn sampleSin sampleDerivedStats nat (sampleGame [golem] 1)
               "medium" = Some g')
    by (eexists; vm_compute; reflexivity).
  destruct H as (g' & H). exists g'. split; [exact H|].
  destruct (processTurn_draw sampleSin sampleDerivedStats nat _ _ _ H)
    as (Hp & _ & _ & Hgrow).
  split; [exact Hp|].
  apply Hgrow; [cbn; lia | discriminate].
Defined.

Lemma processTurn_energy_capped_witness :
  exists g',
    processTurn sampleSin sampleDerivedStats nat (sampleGame [golem] 1) "medium"
    = Some g'
    /\ atMost (playerEnergy nat g') (int 12).
Proof.
  assert (H : exists g',
             processTurn sampleSin sampleDerivedStats nat (sampleGame [golem] 1)
               "medium" = Some g')
    by (eexists; vm_compute; reflexivity).
  destruct H as (g' & H). exists g'. split; [exact H|].
  exact (proj1 (processTurn_energy_capped sampleSin sampleDerivedStats nat _ _ _ H)).
Defined.

Lemma stat_keys_preserved_witness :
  map fst (fst (recalculateDerivedStats sampleDerivedStats weakenedGolem))
  = map fst (sampleDerivedStats weakenedGolem).
Proof.
  assert (Hown : usesOwnStatNames weakenedGolem).
  { split; [|constructor].
    constructor; [|constructor]. split; [|exact I].
    constructor; [reflexivity | constructor]. }
  exact (proj1 (stat_keys_preserved sampleSin sampleDerivedStats weakenedGolem Hown)
           ltac:(discriminate)).
Defined.

Lemma recalculateDerivedStats_health_witness :
  JS.lt (currentHealth (snd (recalculateDerivedStats sampleDerivedStats weakenedGolem)))
        (currentHealth weakenedGolem) = true
  /\ JS.gt (currentHealth (snd (recalculateDerivedStats sampleDerivedStats weakenedGolem)))
           (JS.toNum (obj_get "maxHealth"
                        (fst (recalculateDerivedStats sampleDerivedStats weakenedGolem))))
     = false.
Proof.
  split; [reflexivity|].
  exact (proj2 (proj2 (recalculateDerivedStats_health sampleDerivedStats weakenedGolem))
           ltac:(discriminate) eq_refl).
Defined.

Lemma tick_health_bounded_witness :
  currentHealth (tickCreature sampleSin sampleDerivedStats "medium" 3 fadedShieldGolem)
  = currentHealth fadedShieldGolem
  \/ atMost (currentHealth
               (tickCreature sampleSin sampleDerivedStats "medium" 3 fadedShieldGolem))
            (int 95).
Proof.
  exact (tick_health_bounded sampleSin sampleDerivedStats "medium" 3 fadedShieldGolem
           _ eq_refl).
Defined.

Lemma tick_postconditions_witness :
  isDefending (tickCreature sampleSin sampleDerivedStats "medium" 1 weakenedWisp) = false
  /\ rarity (tickCreature sampleSin sampleDerivedStats "medium" 1 weakenedWisp) = "Rare".
Proof.
  destruct (tick_postconditions sampleSin sampleDerivedStats "medium" 1 weakenedWisp
              _ eq_refl) as (Hd & _ & _ & _ & Hr & _).
  split; [exact Hd | exact Hr].
Defined.


Lemma tool_power_ignores_stats_witness :
  calculateEffectPower shieldTool (stats archmage) "expert" = dec 12 10
  /\ powerLevelOf (calculateEffectPower shieldTool (stats archmage) "expert")
     <> "strong".
Proof.
  split; [reflexivity|].
  exact (proj2 (proj2 (tool_power_ignores_stats shieldTool (stats archmage) "expert"
                         eq_refl))).
Defined.


Lemma applySpell_throws_only_without_caster_battleStats_witness :
  applySpell sampleDerivedStats (Some unpreparedMage) (Some golem) (Some leechSpell)
    "medium" 1 (int 1) = None
  /\ exists c, Some unpreparedMage = Some c /\ battleStats c = None.
Proof.
  assert (H : applySpell sampleDerivedStats (Some unpreparedMage) (Some golem)
                (Some leechSpell) "medium" 1 (int 1) = None)
    by (vm_compute; reflexivity).
  split; [exact H|].
  destruct (applySpell_throws_only_without_caster_battleStats sampleDerivedStats
              _ _ _ _ _ _ H) as (c & Hc & _ & Hb & _).
  exists c. split; [exact Hc | exact Hb].
Defined.


Lemma spell_actual_damage_bounded_witness :
  exists r e,
    applySpell sampleDerivedStats (Some archmage) (Some wisp) (Some babylonBurst)
      "expert" 0 (int 0) = Some r
    /\ spellEffect r = Some e
    /\ se_actualDamage e = Some (int 180)
    /\ atMost (int 180) (int 180).
Proof.
  assert (H : exists r e,
             applySpell sampleDerivedStats (Some archmage) (Some wisp)
               (Some babylonBurst) "expert" 0 (int 0) = Some r
             /\ spellEffect r = Some e
             /\ se_actualDamage e = Some (int 180)).
  { do 2 eexists. split; [vm_compute; reflexivity|].
    split; [reflexivity|]. vm_compute. reflexivity. }
  destruct H as (r & e & Hr & He & Hd). exists r, e.
  split; [exact Hr|]. split; [exact He|]. split; [exact Hd|].
  exact (spell_actual_damage_bounded sampleDerivedStats _ _ _ _ _ _ r e _ Hr He Hd).
Defined.


Lemma defend_boost_outlives_stance_witness :
  exists dc,
    defendCreature sampleRarityMultiplier (Some golem) "medium" = Some dc
    /\ battleStat "physicalDefense" golem = Some (int 20)
    /\ let c1 := tickCreature sampleSin sampleDerivedStats "medium" 1 dc in
       activeEffects c1 = Some []
       /\ battleStat "physicalDefense" c1 = Some (int 30)
       /\ battleStats (runTicks sampleSin sampleDerivedStats
                         [("medium", 2); ("medium", 3)] c1)
          = battleStats c1.
Proof.
  assert (H : exists dc,
             defendCreature sampleRarityMultiplier (Some golem) "medium" = Some dc)
    by (eexists; reflexivity).
  destruct H as (dc & H). exists dc. split; [exact H|]. split; [reflexivity|].
  destruct (defend_boost_outlives_stance sampleSin sampleDerivedStats
              sampleRarityMultiplier golem dc _ "medium" "medium" 1 eq_refl
              (or_intror eq_refl) H)
    as (He & _ & Hbs & Hstay).
  cbn zeta. split; [exact He|]. split; [|apply Hstay].
  unfold battleStat. rewrite Hbs. vm_compute. reflexivity.
Defined.

Lemma processEnergyMomentum_threshold_witness :
  bonusRegen (processEnergyMomentum (int 27)) = int 2
  /\ bonusRegen (processEnergyMomentum
                   (JS.add (int 27) (nextThreshold (processEnergyMomentum (int 27)))))
     = JS.add (bonusRegen (processEnergyMomentum (int 27))) (int 1).
Proof.
  destruct (processEnergyMomentum_threshold 27 ltac:(lia)) as (Hb & _ & _ & Hn).
  split; [exact Hb | exact Hn].
Defined.

Lemma chargeStatus_ready_witness :
  exists s,
    chargeStatus 3 (olympiaCharge 3 (int 3)) = Some s
    /\ isReady s = true
    /\ JS.eqb (turnsRemaining s) (int 0) = true.
Proof.
  assert (H : exists s, chargeStatus 3 (olympiaCharge 3 (int 3)) = Some s)
    by (eexists; reflexivity).
  destruct H as (s & H).
  destruct (chargeStatus_ready 3 (olympiaCharge 3 (int 3)) staminaCharge s
              (inject_Z 3) H eq_refl eq_refl ltac:(reflexivity))
    as (_ & Hready & Hzero).
  assert (Hr : isReady s = true) by (apply Hready; cbn; discriminate).
  exists s. split; [exact H|]. split; [exact Hr|]. apply Hzero. exact Hr.
Defined.

Lemma getRecommendedItemUsage_top_three_witness :
  (exists r,
      In r (getRecommendedItemUsage [shieldTool; chargeTool] [golem; weakenedGolem]
              sampleAdvisor)
      /\ rec_item r = chargeTool /\ rec_target r = golem)
  \/ (length (getRecommendedItemUsage [shieldTool; chargeTool] [golem; weakenedGolem]
                sampleAdvisor) = 3%nat
      /\ forall r,
           In r (getRecommendedItemUsage [shieldTool; chargeTool] [golem; weakenedGolem]
                   sampleAdvisor) ->
           JS.ge (rec_efficiency r)
                 (calculateItemEfficiency chargeTool golem sampleAdvisor) = true).
Proof.
  exact (proj2 (proj2 (proj2
           (getRecommendedItemUsage_top_three [shieldTool; chargeTool]
              [golem; weakenedGolem] sampleAdvisor)))
           chargeTool golem (or_intror (or_introl eq_refl)) (or_introl eq_refl)
           eq_refl).
Defined.


Lemma applyTool_health_within_max_witness :
  exists c' bs',
    updatedCreature (applyTool sampleDerivedStats (Some fadedShieldGolem)
                       (Some chargeTool) "medium" 3) = Some c'
    /\ battleStats c' = Some bs'
    /\ JS.gt (currentHealth c') (JS.toNum (obj_get "maxHealth" bs')) = false.
Proof.
  destruct (applyTool_health_within_max sampleDerivedStats fadedShieldGolem chargeTool
              _ "medium" 3 ltac:(discriminate) eq_refl)
    as (c' & bs' & Hc & Hb & Hh).
  exists c', bs'. split; [exact Hc|]. split; [exact Hb|].
  apply Hh. vm_compute in Hc. injection Hc as <-. reflexivity.
Defined.
